(** * InsureVis web portal: claim review workflow

    A shallow embedding of the browser client's decision logic
    (login role router, admin signup form, car-company portal and
    insurance-company portal) together with the properties of the
    review workflow that the specification states about it, and with
    further properties of the same code: the login page and the start
    of a portal, the list loads with their migrations, the numbers shown
    for a claim, storage paths and the ages of the audit log.

    Conventions of the embedding:
    - a JavaScript string is a [string] whose characters are the code
      units U+0000..U+00FF;
    - a nullable column is an [option]; JavaScript truthiness is written
      out ([truthyB], [truthyS]);
    - the remote tables are finite maps from row id to row; an [update]
      issued by the client is applied to the table;
    - what a handler does besides updating tables (toasts, notification
      calls, remote requests) is recorded as a list of [Effect]s;
    - a handler is followed up to the point where it returns; rendering,
      timers and the realtime channel are left out. *)

From Stdlib Require Import String Ascii NArith ZArith List Bool Lia.
From stdpp Require Import base option list strings gmap fin_maps.

Open Scope string_scope.

(* ===================================================================== *)
(** * Part 1. Definitions                                                *)
(* ===================================================================== *)

(** ** JavaScript strings and values *)

Module JS.

Definition chars (s : string) : list ascii := list_ascii_of_string s.
Definition str (l : list ascii) : string := string_of_list_ascii l.

(** [WhiteSpace] and [LineTerminator] code units below U+0100: this is
    what [String.prototype.trim] strips and what [\s] matches. *)
Definition isWhiteSpace (c : ascii) : bool :=
  let n := N_of_ascii c in
  (((9 <=? n) && (n <=? 13)) || (n =? 32) || (n =? 160))%N.

(** [String.prototype.toLowerCase] on one code unit below U+0100. *)
Definition lowerChar (c : ascii) : ascii :=
  let n := N_of_ascii c in
  if (((65 <=? n) && (n <=? 90))
      || ((192 <=? n) && (n <=? 222) && negb (n =? 215)))%N
  then ascii_of_N (n + 32) else c.

Fixpoint dropWhile (f : ascii -> bool) (l : list ascii) : list ascii :=
  match l with
  | [] => []
  | c :: l' => if f c then dropWhile f l' else l
  end.

Definition trimChars (l : list ascii) : list ascii :=
  rev (dropWhile isWhiteSpace (rev (dropWhile isWhiteSpace l))).

(** [s.replace(/[cls]+/g, r)]: every maximal run of characters of the
    class [cls] becomes the single character [r]. [inRun] tells that the
    previous character belonged to a run already replaced. *)
Fixpoint replaceRuns (cls : ascii -> bool) (r : ascii) (inRun : bool)
         (l : list ascii) : list ascii :=
  match l with
  | [] => []
  | c :: l' =>
      if cls c
      then (if inRun then replaceRuns cls r true l'
            else r :: replaceRuns cls r true l')
      else c :: replaceRuns cls r false l'
  end.

Fixpoint isPrefix (t s : list ascii) : bool :=
  match t, s with
  | [], _ => true
  | _ :: _, [] => false
  | a :: t', b :: s' => Ascii.eqb a b && isPrefix t' s'
  end.

Fixpoint includesChars (t s : list ascii) : bool :=
  isPrefix t s
  || match s with
     | [] => false
     | _ :: s' => includesChars t s'
     end.

Definition trim (s : string) : string := str (trimChars (chars s)).
Definition toLowerCase (s : string) : string := str (map lowerChar (chars s)).
Definition replaceAll (cls : ascii -> bool) (r : ascii) (s : string) : string :=
  str (replaceRuns cls r false (chars s)).

(** [s.includes(t)] *)
Definition includes (s t : string) : bool := includesChars (chars t) (chars s).

(** [/[\s-]/], [/[_\s]/] and [/-/] *)
Definition isSpaceOrHyphen (c : ascii) : bool := isWhiteSpace c || Ascii.eqb c "-".
Definition isUnderscoreOrSpace (c : ascii) : bool := Ascii.eqb c "_" || isWhiteSpace c.
Definition isHyphen (c : ascii) : bool := Ascii.eqb c "-".

(** Truthiness of a string, of a nullable string and of a nullable
    boolean. *)
Definition truthyStr (s : string) : bool := negb (String.eqb s "").
Definition truthyS (o : option string) : bool :=
  match o with Some s => truthyStr s | None => false end.
Definition truthyB (o : option bool) : bool :=
  match o with Some b => b | None => false end.

(** [o === true] and [o === s] *)
Definition isTrue (o : option bool) : bool :=
  match o with Some true => true | _ => false end.
Definition strictEq (o : option string) (s : string) : bool :=
  match o with Some x => String.eqb x s | None => false end.

(** [arr.includes(x)] on an array of strings *)
Definition arrayIncludes (arr : list string) (x : string) : bool :=
  existsb (String.eqb x) arr.

(** What a property read on an object literal can give: an own string
    property, something inherited from [Object.prototype] (a function or
    the prototype object itself), or [undefined]. *)
Inductive PropertyValue :=
| OwnString (v : string)
| InheritedObject (name : string)
| Undefined.

(** The property names every object literal inherits. *)
Definition objectPrototypeNames : list string :=
  [ "constructor"; "__defineGetter__"; "__defineSetter__"; "hasOwnProperty";
    "__lookupGetter__"; "__lookupSetter__"; "isPrototypeOf";
    "propertyIsEnumerable"; "toString"; "valueOf"; "__proto__";
    "toLocaleString" ].

Fixpoint ownProperty (obj : list (string * string)) (k : string) : option string :=
  match obj with
  | [] => None
  | (k', v) :: obj' => if String.eqb k' k then Some v else ownProperty obj' k
  end.

(** [obj[k]] for an object literal [obj] with string values *)
Definition getProperty (obj : list (string * string)) (k : string) : PropertyValue :=
  match ownProperty obj k with
  | Some v => OwnString v
  | None => if arrayIncludes objectPrototypeNames k then InheritedObject k else Undefined
  end.

Definition truthy (v : PropertyValue) : bool :=
  match v with
  | OwnString s => truthyStr s
  | InheritedObject _ => true
  | Undefined => false
  end.

End JS.

(** ** Login page: role router (public/login.js, lines 31-89) *)

Module Login.
Import JS.

Definition ROLE_ROUTES : list (string * string) :=
  [ ("car_company", "/car-company/");
    ("car-company", "/car-company/");
    ("car company", "/car-company/");
    ("insurance_company", "/insurance-company/");
    ("insurance-company", "/insurance-company/");
    ("insurance company", "/insurance-company/");
    ("admin", "/admin-signup/");
    ("administrator", "/admin-signup/") ].

Definition normalizeRole (role : string) : option string :=
  if negb (truthyStr role) then None
  else
    let normalized := replaceAll isSpaceOrHyphen "_" (toLowerCase (trim role)) in
    if includes normalized "car" && includes normalized "company"
    then Some "car_company"
    else if includes normalized "insurance" && includes normalized "company"
    then Some "insurance_company"
    else if includes normalized "admin"
    then Some "admin"
    else if truthy (getProperty ROLE_ROUTES normalized) then Some normalized
    else None.

End Login.

(** ** Portals: the role check of both review portals
       (public/login.js, lines 368-381, and
       public/insurance-company/app.js, lines 84-97: the same text) *)

Module PortalRole.
Import JS.

Definition ROLE_ROUTES : list (string * string) :=
  [ ("car_company", "/car-company/");
    ("car-company", "/car-company/");
    ("insurance_company", "/insurance-company/");
    ("insurance-company", "/insurance-company/") ].

Definition normalizeRole (role : string) : option string :=
  if negb (truthyStr role) then None
  else
    let value := replaceAll isSpaceOrHyphen "_" (trim (toLowerCase role)) in
    if includes value "car" && includes value "company"
    then Some "car_company"
    else if includes value "insurance" && includes value "company"
    then Some "insurance_company"
    else if truthy (getProperty ROLE_ROUTES value) then Some value
    else None.

End PortalRole.

(** ** Remote tables and what the client does to them *)

Module Data.
Import JS.

(** A row of [claims] (the columns the review workflow reads or writes). *)
Record ClaimRow := mkClaimRow {
  user_id : option string;
  claim_number : option string;
  status : option string;
  car_company_status : option string;
  is_approved_by_car_company : option bool;
  car_company_approval_date : option string;
  car_company_approval_notes : option string;
  is_approved_by_insurance_company : option bool;
  insurance_company_approval_date : option string;
  insurance_company_approval_notes : option string;
  approved_at : option string;
  rejected_at : option string }.

(** A row of [documents]. *)
Record DocRow := mkDocRow {
  claim_id : string;
  type : string;
  verified_by_car_company : option bool;
  car_company_verification_notes : option string;
  car_company_verification_date : option string;
  car_company_verified_by : option string;
  verified_by_insurance_company : option bool;
  insurance_verification_notes : option string;
  insurance_verification_date : option string;
  insurance_verified_by : option string }.

(** One [column: value] entry of the object passed to [.update(...)]. *)
Inductive ClaimAssign :=
| set_status (v : option string)
| set_car_company_status (v : option string)
| set_is_approved_by_car_company (v : option bool)
| set_car_company_approval_date (v : option string)
| set_car_company_approval_notes (v : option string)
| set_is_approved_by_insurance_company (v : option bool)
| set_insurance_company_approval_date (v : option string)
| set_insurance_company_approval_notes (v : option string)
| set_approved_at (v : option string)
| set_rejected_at (v : option string).

Inductive DocAssign :=
| set_verified_by_car_company (v : option bool)
| set_car_company_verification_notes (v : option string)
| set_car_company_verification_date (v : option string)
| set_car_company_verified_by (v : option string)
| set_verified_by_insurance_company (v : option bool)
| set_insurance_verification_notes (v : option string)
| set_insurance_verification_date (v : option string)
| set_insurance_verified_by (v : option string).

Definition assignClaim (a : ClaimAssign) (r : ClaimRow) : ClaimRow :=
  let '(mkClaimRow u n s cs ac ad an ai id_ in_ aa ra) := r in
  match a with
  | set_status v => mkClaimRow u n v cs ac ad an ai id_ in_ aa ra
  | set_car_company_status v => mkClaimRow u n s v ac ad an ai id_ in_ aa ra
  | set_is_approved_by_car_company v => mkClaimRow u n s cs v ad an ai id_ in_ aa ra
  | set_car_company_approval_date v => mkClaimRow u n s cs ac v an ai id_ in_ aa ra
  | set_car_company_approval_notes v => mkClaimRow u n s cs ac ad v ai id_ in_ aa ra
  | set_is_approved_by_insurance_company v => mkClaimRow u n s cs ac ad an v id_ in_ aa ra
  | set_insurance_company_approval_date v => mkClaimRow u n s cs ac ad an ai v in_ aa ra
  | set_insurance_company_approval_notes v => mkClaimRow u n s cs ac ad an ai id_ v aa ra
  | set_approved_at v => mkClaimRow u n s cs ac ad an ai id_ in_ v ra
  | set_rejected_at v => mkClaimRow u n s cs ac ad an ai id_ in_ aa v
  end.

Definition assignDoc (a : DocAssign) (r : DocRow) : DocRow :=
  let '(mkDocRow c t vc nc dc bc vi ni di bi) := r in
  match a with
  | set_verified_by_car_company v => mkDocRow c t v nc dc bc vi ni di bi
  | set_car_company_verification_notes v => mkDocRow c t vc v dc bc vi ni di bi
  | set_car_company_verification_date v => mkDocRow c t vc nc v bc vi ni di bi
  | set_car_company_verified_by v => mkDocRow c t vc nc dc v vi ni di bi
  | set_verified_by_insurance_company v => mkDocRow c t vc nc dc bc v ni di bi
  | set_insurance_verification_notes v => mkDocRow c t vc nc dc bc vi v di bi
  | set_insurance_verification_date v => mkDocRow c t vc nc dc bc vi ni v bi
  | set_insurance_verified_by v => mkDocRow c t vc nc dc bc vi ni di v
  end.

(** The row after [{...row, ...patch}]: the entries are written in order. *)
Definition patchClaim (patch : list ClaimAssign) (r : ClaimRow) : ClaimRow :=
  fold_left (fun r a => assignClaim a r) patch r.
Definition patchDoc (patch : list DocAssign) (r : DocRow) : DocRow :=
  fold_left (fun r a => assignDoc a r) patch r.

(** A document object and a claim object as the client holds them: the
    row, its id and, for a claim selected with [documents (...)], the
    joined documents ([None] stands for a missing [documents] property). *)
Record Document := mkDocument { doc_id : string; doc : DocRow }.
Record Claim := mkClaim {
  id : string;
  row : ClaimRow;
  documents : option (list Document) }.

Record DB := mkDB {
  claims_table : gmap string ClaimRow;
  documents_table : gmap string DocRow }.

(** [from('documents').select().eq('claim_id', cid)] *)
Definition documentsOf (db : DB) (cid : string) : list Document :=
  List.filter (fun d => String.eqb (claim_id (doc d)) cid)
    (map (fun kr => mkDocument (fst kr) (snd kr)) (map_to_list (documents_table db))).

Definition joinClaim (db : DB) (k : string) (r : ClaimRow) : Claim :=
  mkClaim k r (Some (documentsOf db k)).

(** [from('claims').select('*, documents (...)')]: every claim with its
    documents (the order of the rows plays no part in what follows). *)
Definition selectClaims (db : DB) : list Claim :=
  map (fun kr => joinClaim db (fst kr) (snd kr)) (map_to_list (claims_table db)).


(** [from('claims').update(patch).eq('id', k)] *)
Definition updateClaimEq (k : string) (patch : list ClaimAssign) (db : DB) : DB :=
  mkDB (alter (patchClaim patch) k (claims_table db)) (documents_table db).

(** [from('claims').update(patch).in('id', ks)] *)
Definition updateClaimsIn (ks : list string) (patch : list ClaimAssign) (db : DB) : DB :=
  mkDB (map_imap (fun k r => Some (if arrayIncludes ks k then patchClaim patch r else r))
          (claims_table db))
       (documents_table db).

(** [from('documents').update(patch).eq('id', k)] *)
Definition updateDocumentEq (k : string) (patch : list DocAssign) (db : DB) : DB :=
  mkDB (claims_table db) (alter (patchDoc patch) k (documents_table db)).

(** What a handler does that is visible outside the tables. *)
Inductive Effect :=
| Toast (kind title message : string)
| Redirect (path : string)
| ClaimsUpdate (ks : list string) (patch : list ClaimAssign)
| DocumentsUpdate (k : string) (patch : list DocAssign)
| SendNotification (userId title message statusTag : string)
| CloseRejectionModal
| ShowDocumentsPage
| LoadClaimDocuments (k : string).

Record World := mkWorld { db : DB; effects : list Effect }.

Definition emit (e : Effect) (w : World) : World :=
  mkWorld (db w) (effects w ++ [e])%list.

Definition remoteUpdateClaim (k : string) (patch : list ClaimAssign) (w : World) : World :=
  mkWorld (updateClaimEq k patch (db w)) (effects w ++ [ClaimsUpdate [k] patch])%list.

Definition remoteUpdateClaims (ks : list string) (patch : list ClaimAssign) (w : World) : World :=
  mkWorld (updateClaimsIn ks patch (db w)) (effects w ++ [ClaimsUpdate ks patch])%list.

Definition remoteUpdateDocument (k : string) (patch : list DocAssign) (w : World) : World :=
  mkWorld (updateDocumentEq k patch (db w)) (effects w ++ [DocumentsUpdate k patch])%list.

(** [showError(m)] and [showSuccess(m)] *)
Definition showError (m : string) : World -> World := emit (Toast "error" "Error" m).
Definition showSuccess (m : string) : World -> World := emit (Toast "success" "Success" m).

(** The globals and the DOM state a portal page keeps between events. *)
Record Session := mkSession {
  currentClaim : option string;
  currentDocuments : list Document;
  currentClaimApproved : bool;
  currentDocId : option string;
  isModalOpen : bool }.

(** [docs[docs.findIndex(d => d.id === k)] = {...old, ...patch}], nothing
    when no document has that id. *)
Fixpoint patchFirst (k : string) (patch : list DocAssign) (docs : list Document)
  : list Document :=
  match docs with
  | [] => []
  | d :: docs' =>
      if String.eqb (doc_id d) k
      then mkDocument (doc_id d) (patchDoc patch (doc d)) :: docs'
      else d :: patchFirst k patch docs'
  end.

(** The per-claim counters shown in the list. *)
Record Counters := mkCounters { total : Z; verified : Z; rejected : Z; pending : Z }.

End Data.

(** ** Car-company portal (the portal script in public/login.js, from
       line 305 on) *)

Module CarPortal.
Import JS Data.

Definition CAR_COMPANY_DOCUMENT_TYPES : list string :=
  [ "lto_or"; "lto_cr"; "drivers_license"; "owner_valid_id"; "stencil_strips";
    "damage_photos"; "job_estimate"; "insurance_policy"; "police_report";
    "additional_documents" ].

(** *** loadClaims: the check for unverified documents in approved claims *)

Definition isApproved (claim : Claim) : bool :=
  strictEq (car_company_status (row claim)) "approved"
  || isTrue (is_approved_by_car_company (row claim)).

Definition hasUnverifiedDocs (docs : list Document) : bool :=
  existsb (fun d => arrayIncludes CAR_COMPANY_DOCUMENT_TYPES (type (doc d))
                    && negb (truthyB (verified_by_car_company (doc d)))) docs.

(** The condition under which the loop pushes [claim.id]. *)
Definition shouldRevert (claim : Claim) : bool :=
  isApproved claim
  && match documents claim with
     | Some docs => hasUnverifiedDocs docs
     | None => false
     end.

(** The two assignments to the local claim object. *)
Definition markPending (claim : Claim) : Claim :=
  mkClaim (id claim)
    (patchClaim [ set_car_company_status (Some "pending");
                  set_is_approved_by_car_company (Some false) ] (row claim))
    (documents claim).

(** The object passed to the remote update. *)
Definition revertPatch : list ClaimAssign :=
  [ set_car_company_status (Some "pending");
    set_is_approved_by_car_company (Some false);
    set_car_company_approval_date None ].

(** [claims.forEach(...)]: the ids pushed so far are threaded through, the
    claim objects are changed in place. *)
Fixpoint sweepLoop (claims : list Claim) (claimsToRevert : list string)
  : list string * list Claim :=
  match claims with
  | [] => (claimsToRevert, [])
  | claim :: rest =>
      if shouldRevert claim
      then let r := sweepLoop rest (claimsToRevert ++ [id claim])%list in
           (fst r, markPending claim :: snd r)
      else let r := sweepLoop rest claimsToRevert in
           (fst r, claim :: snd r)
  end.

(** The sweep on the fetched [claims]: the local objects after it and the
    remote update it issues. *)
Definition sweep (claims : list Claim) (w : World) : list Claim * World :=
  if (0 <? length claims)%nat
  then let r := sweepLoop claims [] in
       (snd r,
        if (0 <? length (fst r))%nat then remoteUpdateClaims (fst r) revertPatch w else w)
  else (claims, w).

(** The sweep of one list load, on the remote tables. *)
Definition sweepDB (d : DB) : DB :=
  db (snd (sweep (selectClaims d) (mkWorld d []))).

(** *** loadClaims: the counters of one claim *)

Definition isCarCompanyDoc (d : Document) : bool :=
  arrayIncludes CAR_COMPANY_DOCUMENT_TYPES (type (doc d)).

Definition claimCounters (docs : list Document) : Counters :=
  let carCompanyDocs := List.filter isCarCompanyDoc docs in
  let verifiedCarDocs :=
    List.filter (fun d => truthyB (verified_by_car_company (doc d))) carCompanyDocs in
  let rejectedCarDocs :=
    List.filter (fun d => negb (truthyB (verified_by_car_company (doc d)))
                          && truthyS (car_company_verification_notes (doc d)))
      carCompanyDocs in
  mkCounters (Z.of_nat (length carCompanyDocs))
             (Z.of_nat (length verifiedCarDocs))
             (Z.of_nat (length rejectedCarDocs))
             (Z.of_nat (length carCompanyDocs) - Z.of_nat (length verifiedCarDocs)
              - Z.of_nat (length rejectedCarDocs)).

(** [claims.map(...)]; reading [.filter] of a missing [documents] throws,
    which is [None]. *)
Fixpoint processClaims (claims : list Claim) : option (list (Claim * Counters)) :=
  match claims with
  | [] => Some []
  | claim :: rest =>
      match documents claim, processClaims rest with
      | Some docs, Some out => Some ((claim, claimCounters docs) :: out)
      | _, _ => None
      end
  end.

(** *** The claim decision buttons *)

Record Buttons := mkButtons { approveDisabled : bool; rejectDisabled : bool }.

Definition allDocsVerified (docs : list Document) : bool :=
  (0 <? length docs)%nat
  && forallb (fun d => truthyB (verified_by_car_company (doc d))) docs.

(** [setDecisionButtonsState(claim)] on a page that has both buttons. *)
Definition setDecisionButtonsState (claim : option ClaimRow) (s : Session) : Buttons :=
  let claimApprovedFlag :=
    match claim with
    | Some r => truthyB (is_approved_by_car_company r)
    | None => false
    end in
  mkButtons (negb (allDocsVerified (currentDocuments s)) || claimApprovedFlag)
            claimApprovedFlag.

(** *** Document decisions *)

Definition setDocuments (docs : list Document) (s : Session) : Session :=
  mkSession (currentClaim s) docs (currentClaimApproved s) (currentDocId s) (isModalOpen s).

Definition setModalOpen (b : bool) (s : Session) : Session :=
  mkSession (currentClaim s) (currentDocuments s) (currentClaimApproved s) (currentDocId s) b.

(** [docs.findIndex(d => d.id === k)], [-1] when absent *)
Fixpoint findIndex (k : string) (docs : list Document) : Z :=
  match docs with
  | [] => -1
  | d :: docs' =>
      if String.eqb (doc_id d) k then 0
      else let i := findIndex k docs' in if (i <? 0)%Z then -1 else (i + 1)%Z
  end.

(** The viewer is closed after a decision on the last document. *)
Definition afterDecision (k : string) (s : Session) : Session :=
  if (findIndex k (currentDocuments s) <? Z.of_nat (length (currentDocuments s)) - 1)%Z
  then s else setModalOpen false s.

(** The guard that undoes an approval the platform set by itself once all
    documents are verified. *)
Definition safetyGuard (s : Session) (w : World) : World :=
  match currentClaim s with
  | Some c =>
      if truthyStr c && allDocsVerified (currentDocuments s)
      then match claims_table (db w) !! c with
           | Some claimRow =>
               let isAutoApproved :=
                 isTrue (is_approved_by_car_company claimRow)
                 || strictEq (car_company_status claimRow) "approved" in
               let globalStatus := toLowerCase (default "" (status claimRow)) in
               if isAutoApproved && negb (String.eqb globalStatus "submitted")
                  && negb (String.eqb globalStatus "approved")
               then remoteUpdateClaim c [ set_is_approved_by_car_company (Some false);
                                          set_car_company_status (Some "pending") ] w
               else w
           | None => w
           end
      else w
  | None => w
  end.

(** Run [f] on the open claim, when there is one ([if (currentClaim)]). *)
Definition whenClaimOpen (s : Session) (f : string -> World -> World) (w : World) : World :=
  match currentClaim s with
  | Some c => if truthyStr c then f c w else w
  | None => w
  end.

(** [handleDocumentDecision(decision)]; [user] is the signed-in user id,
    [updateError] tells that the documents update came back with an error,
    [now] is the current time. *)
Definition handleDocumentDecision (decision : string) (user : option string)
           (updateError : bool) (now : string) (s : Session) (w : World)
  : Session * World :=
  if currentClaimApproved s
  then (s, emit (Toast "error" "Error" "Claim is approved. Documents are view-only.") w)
  else if negb (truthyS (currentDocId s)) then (s, w)
  else
    let k := default "" (currentDocId s) in
    let isVerified := String.eqb decision "verify" in
    match user with
    | None =>
        (s, emit (Redirect "/")
              (emit (Toast "error" "Error" "User session expired. Please login again.") w))
    | Some uid =>
        let updateData :=
          ([ set_verified_by_car_company (Some isVerified);
             set_car_company_verified_by (Some uid) ]
           ++ (if isVerified
               then [ set_car_company_verification_date (Some now);
                      set_car_company_verification_notes None ]
               else [ set_car_company_verification_date None ]))%list in
        if updateError
        then (s, emit (Toast "error" "Error" "Failed to save verification status")
                   (emit (DocumentsUpdate k updateData) w))
        else
          let w1 := remoteUpdateDocument k updateData w in
          let s1 := setDocuments (patchFirst k updateData (currentDocuments s)) s in
          let w2 :=
            if negb isVerified
            then whenClaimOpen s1
                   (fun c => remoteUpdateClaim c
                               [ set_is_approved_by_car_company (Some false);
                                 set_car_company_approval_date None ]) w1
            else w1 in
          let w3 := safetyGuard s1 w2 in
          let w4 :=
            emit (Toast "success" "Success"
                    (if isVerified then "Document verified successfully!"
                     else "Document verification removed")) w3 in
          (afterDecision k s1, w4)
    end.

(** [confirmDocumentRejection()]; [reason] is the selected reason and
    [otherReasonText] the free text. *)
Definition confirmDocumentRejection (reason otherReasonText : string)
           (updateError : bool) (s : Session) (w : World) : Session * World :=
  if negb (truthyStr reason)
  then (s, showError "Please select a rejection reason" w)
  else
    let customReason := trim otherReasonText in
    if String.eqb reason "others" && negb (truthyStr customReason)
    then (s, showError "Please provide a specific reason" w)
    else
      let rejectionNotes :=
        if String.eqb reason "others" then "Other: " ++ customReason else reason in
      if negb (truthyS (currentDocId s)) then (s, w)
      else
        let k := default "" (currentDocId s) in
        let patch := [ set_verified_by_car_company (Some false);
                       set_car_company_verification_date None;
                       set_car_company_verification_notes (Some rejectionNotes) ] in
        if updateError
        then (s, showError "Failed to reject document" (emit (DocumentsUpdate k patch) w))
        else
          let w1 := remoteUpdateDocument k patch w in
          let s1 := setDocuments (patchFirst k patch (currentDocuments s)) s in
          let w2 :=
            whenClaimOpen s1
              (fun c => remoteUpdateClaim c
                          [ set_is_approved_by_car_company (Some false);
                            set_car_company_approval_date None ]) w1 in
          (s1, showSuccess "Document rejected successfully!" w2).

(** *** Claim decisions *)

Definition nl : string := String "010" "".

(** The notification a decision sends to the claim owner: the owner and
    the claim number are read back from the claim row; nothing is sent when
    the row has no owner. It is dispatched by a task of its own, whatever
    the outcome of the update; the log places it after the update request. *)
Definition notifyOwner (c title statusTag : string) (message : string -> string)
           (w : World) : World :=
  match claims_table (db w) !! c with
  | Some claimData =>
      if truthyS (user_id claimData)
      then let claimNumber :=
             if truthyS (claim_number claimData)
             then default "" (claim_number claimData) else c in
           emit (SendNotification (default "" (user_id claimData)) title
                   (message claimNumber) statusTag) w
      else w
  | None => w
  end.

Definition withNotes (notes : string) : list ClaimAssign :=
  if truthyStr notes then [ set_car_company_approval_notes (Some notes) ] else [].

(** [decideClaim(decision, notes)] *)
Definition decideClaim (decision notes : string) (updateError : bool) (now : string)
           (s : Session) (w : World) : World :=
  if negb (truthyS (currentClaim s)) then showError "No claim selected" w
  else
    let c := default "" (currentClaim s) in
    let updateData : list ClaimAssign :=
      if String.eqb decision "approved"
      then ([ set_car_company_status (Some "approved");
              set_is_approved_by_car_company (Some true);
              set_car_company_approval_date (Some now);
              set_approved_at (Some now) ] ++ withNotes notes)%list
      else if String.eqb decision "rejected"
      then ([ set_car_company_status (Some "rejected");
              set_is_approved_by_car_company (Some false);
              set_status (Some "rejected");
              set_car_company_approval_date None;
              set_rejected_at (Some now) ] ++ withNotes notes)%list
      else if String.eqb decision "under_review"
      then ([ set_status (Some "under_review") ] ++ withNotes notes)%list
      else [] in
    let notification : World -> World :=
      if String.eqb decision "approved"
      then notifyOwner c "Claim Approved" "approved"
             (fun n => "Your claim " ++ n ++ " has been approved by the Car Company.")
      else if String.eqb decision "rejected"
      then notifyOwner c "Claim Rejected" "rejected"
             (fun n => if truthyStr notes
                       then "Your claim " ++ n ++ " has been rejected by the Car Company. "
                            ++ nl ++ nl ++ "Reason: " ++ nl ++ notes
                       else "Your claim " ++ n
                            ++ " has been rejected by the Car Company. Please contact support for details.")
      else if String.eqb decision "under_review"
      then notifyOwner c "Claim Under Review" "review"
             (fun n => "Your claim " ++ n
                       ++ " is marked as Under Review by the Car Company. We will get back to you soon.")
      else (fun w => w) in
    if updateError
    then showError "Failed to update claim status"
           (notification (emit (ClaimsUpdate [c] updateData) w))
    else
      showSuccess (if String.eqb decision "approved" then "Claim approved"
                   else if String.eqb decision "rejected" then "Claim rejected"
                   else "Claim marked as Under Review")
        (notification (remoteUpdateClaim c updateData w)).

(** The click handler that [openRejectionModal] installs on the confirm
    button; [rejectionNotes] is the content of the text area. *)
Definition confirmReject (rejectionNotes : string) (updateError : bool) (now : string)
           (s : Session) (w : World) : World :=
  let notes := trim rejectionNotes in
  if negb (truthyStr notes)
  then showError "Please provide a reason for rejection" w
  else decideClaim "rejected" notes updateError now s (emit CloseRejectionModal w).

End CarPortal.

(** ** Insurance-company portal (public/insurance-company/app.js) *)

Module InsurancePortal.
Import JS Data.

Definition INSURANCE_DOCUMENT_TYPES : list string :=
  [ "lto_or"; "lto_cr"; "drivers_license"; "owner_valid_id"; "stencil_strips";
    "damage_photos"; "job_estimate"; "insurance_policy"; "police_report";
    "additional_documents" ].

Definition CAR_COMPANY_DOCUMENT_TYPES : list string :=
  [ "lto_or"; "lto_cr"; "drivers_license"; "owner_valid_id"; "stencil_strips";
    "damage_photos"; "job_estimate" ].

Definition isCarCompanyDoc (d : Document) : bool :=
  arrayIncludes CAR_COMPANY_DOCUMENT_TYPES (type (doc d)).
Definition isInsuranceDoc (d : Document) : bool :=
  arrayIncludes INSURANCE_DOCUMENT_TYPES (type (doc d)).

(** *** loadClaims: which claims are listed *)

(** The test both [loadClaims] and [viewClaimDocuments] make on the
    documents of a claim. *)
Definition allCarDocsVerified (docs : list Document) : bool :=
  let carCompanyDocs := List.filter isCarCompanyDoc docs in
  if (length carCompanyDocs =? 0)%nat then false
  else forallb (fun d => truthyB (verified_by_car_company (doc d))) carCompanyDocs.

(** [claims.filter(...)]; a missing [documents] throws, which is [None]. *)
Fixpoint eligibleClaims (claims : list Claim) : option (list Claim) :=
  match claims with
  | [] => Some []
  | claim :: rest =>
      match documents claim, eligibleClaims rest with
      | Some docs, Some out =>
          Some (if allCarDocsVerified docs then claim :: out else out)
      | _, _ => None
      end
  end.

(** *** loadClaims: the counters of one listed claim *)

Definition claimCounters (docs : list Document) : Counters :=
  let insuranceDocs := List.filter isInsuranceDoc docs in
  let verifiedInsuranceDocs :=
    List.filter (fun d => truthyB (verified_by_insurance_company (doc d))) insuranceDocs in
  let rejectedInsuranceDocs :=
    List.filter (fun d => truthyS (insurance_verification_notes (doc d))) insuranceDocs in
  mkCounters (Z.of_nat (length insuranceDocs))
             (Z.of_nat (length verifiedInsuranceDocs))
             (Z.of_nat (length rejectedInsuranceDocs))
             (Z.of_nat (length insuranceDocs) - Z.of_nat (length verifiedInsuranceDocs)
              - Z.of_nat (length rejectedInsuranceDocs)).

Definition allVerified (insuranceDocuments : list Document) : bool :=
  (0 <? length insuranceDocuments)%nat
  && forallb (fun d => truthyB (verified_by_insurance_company (doc d))) insuranceDocuments.

Record Listed := mkListed { claim : Claim; counters : Counters; readyForApproval : bool }.

Definition processClaim (c : Claim) : Listed :=
  let docs := default [] (documents c) in
  mkListed c (claimCounters docs) (allVerified (List.filter isInsuranceDoc docs)).

(** The rows [loadClaims] hands to [displayClaims]. *)
Definition listedClaims (claims : list Claim) : option (list Listed) :=
  match eligibleClaims claims with
  | Some eligible => Some (map processClaim eligible)
  | None => None
  end.

(** *** Opening a claim *)



(** *** The approval button *)

Record Buttons := mkButtons { approveDisabled : bool; actionsRowShown : bool }.

(** [updateApprovalButtonStatus(insuranceDocuments)] *)
Definition updateApprovalButtonStatus (insuranceDocuments : list Document) (s : Session)
  : Buttons :=
  mkButtons (negb (allVerified insuranceDocuments))
            (negb (currentClaimApproved s) && negb (isModalOpen s)).


(** *** Document decisions *)

Definition setDocuments (docs : list Document) (s : Session) : Session :=
  mkSession (currentClaim s) docs (currentClaimApproved s) (currentDocId s) (isModalOpen s).

Definition setModalOpen (b : bool) (s : Session) : Session :=
  mkSession (currentClaim s) (currentDocuments s) (currentClaimApproved s) (currentDocId s) b.

Definition afterDecision (k : string) (s : Session) : Session :=
  if (CarPortal.findIndex k (currentDocuments s)
      <? Z.of_nat (length (currentDocuments s)) - 1)%Z
  then s else setModalOpen false s.

Definition whenClaimOpen (s : Session) (f : string -> World -> World) (w : World) : World :=
  match currentClaim s with
  | Some c => if truthyStr c then f c w else w
  | None => w
  end.

(** [handleDocumentDecision(decision)] *)
Definition handleDocumentDecision (decision : string) (user : option string)
           (updateError : bool) (now : string) (s : Session) (w : World)
  : Session * World :=
  if currentClaimApproved s
  then (s, emit (Toast "error" "Error" "Claim is approved. Documents are view-only.") w)
  else if negb (truthyS (currentDocId s)) then (s, w)
  else
    let k := default "" (currentDocId s) in
    let isVerified := String.eqb decision "verify" in
    match user with
    | None =>
        (s, emit (Redirect "/")
              (emit (Toast "error" "Error" "User session expired. Please login again.") w))
    | Some uid =>
        let updateData :=
          ([ set_verified_by_insurance_company (Some isVerified);
             set_insurance_verified_by (Some uid) ]
           ++ (if isVerified
               then [ set_insurance_verification_date (Some now);
                      set_insurance_verification_notes None ]
               else [ set_insurance_verification_date None ]))%list in
        if updateError
        then (s, emit (Toast "error" "Error" "Failed to save verification status")
                   (emit (DocumentsUpdate k updateData) w))
        else
          let w1 := remoteUpdateDocument k updateData w in
          let w2 :=
            if negb isVerified
            then whenClaimOpen s
                   (fun c => remoteUpdateClaim c
                               [ set_is_approved_by_insurance_company (Some false);
                                 set_insurance_company_approval_date None ]) w1
            else w1 in
          let s1 := setDocuments (patchFirst k updateData (currentDocuments s)) s in
          let w3 :=
            emit (Toast "success" "Success"
                    (if isVerified then "Document verified successfully!"
                     else "Document verification removed")) w2 in
          (afterDecision k s1, w3)
    end.

(** [confirmDocumentRejection()] *)
Definition confirmDocumentRejection (reason otherReasonText : string)
           (updateError : bool) (s : Session) (w : World) : Session * World :=
  if negb (truthyStr reason)
  then (s, showError "Please select a rejection reason" w)
  else
    let customReason := trim otherReasonText in
    if String.eqb reason "others" && negb (truthyStr customReason)
    then (s, showError "Please provide a specific reason" w)
    else
      let rejectionNotes :=
        if String.eqb reason "others" then "Other: " ++ customReason else reason in
      if negb (truthyS (currentDocId s)) then (s, w)
      else
        let k := default "" (currentDocId s) in
        let patch := [ set_verified_by_insurance_company (Some false);
                       set_insurance_verification_date None;
                       set_insurance_verification_notes (Some rejectionNotes) ] in
        if updateError
        then (s, showError "Failed to reject document" (emit (DocumentsUpdate k patch) w))
        else
          let w1 := remoteUpdateDocument k patch w in
          let s1 := setDocuments (patchFirst k patch (currentDocuments s)) s in
          let w2 :=
            whenClaimOpen s1
              (fun c => remoteUpdateClaim c
                          [ set_is_approved_by_insurance_company (Some false);
                            set_insurance_company_approval_date None ]) w1 in
          (s1, showSuccess "Document rejected successfully!" w2).

(** *** Claim decisions *)

(** The notification of a decision: sent when the claim row has an owner;
    the claim number is printed as it is in the row. *)
Definition notifyOwner (c title statusTag : string) (message : string -> string)
           (w : World) : World :=
  match claims_table (db w) !! c with
  | Some claimData =>
      if truthyS (user_id claimData)
      then emit (SendNotification (default "" (user_id claimData)) title
                   (message (default "null" (claim_number claimData))) statusTag) w
      else w
  | None => w
  end.

Definition withNotes (notes : string) : list ClaimAssign :=
  if truthyStr notes then [ set_insurance_company_approval_notes (Some notes) ] else [].

(** [decideClaim(decision, notes)] *)
Definition decideClaim (decision notes : string) (updateError : bool) (now : string)
           (s : Session) (w : World) : World :=
  if negb (truthyS (currentClaim s)) then showError "No claim selected" w
  else
    let c := default "" (currentClaim s) in
    let updateData : list ClaimAssign :=
      if String.eqb decision "approved"
      then ([ set_status (Some "approved");
              set_is_approved_by_insurance_company (Some true);
              set_insurance_company_approval_date (Some now);
              set_approved_at (Some now) ] ++ withNotes notes)%list
      else if String.eqb decision "rejected"
      then ([ set_status (Some "rejected");
              set_is_approved_by_insurance_company (Some false);
              set_rejected_at (Some now) ] ++ withNotes notes)%list
      else if String.eqb decision "under_review"
      then ([ set_status (Some "under_review") ] ++ withNotes notes)%list
      else [] in
    let notification : World -> World :=
      if String.eqb decision "approved"
      then notifyOwner c "Claim Approved" "approved"
             (fun n => "Your claim " ++ n ++ " has been approved by the Insurance Company.")
      else if String.eqb decision "rejected"
      then notifyOwner c "Claim Rejected" "rejected"
             (fun n => if truthyStr notes
                       then "Your claim " ++ n
                            ++ " has been rejected by the Insurance Company. "
                            ++ CarPortal.nl ++ CarPortal.nl ++ "Reason: " ++ CarPortal.nl ++ notes
                       else "Your claim " ++ n ++ " has been rejected by the Insurance Company.")
      else if String.eqb decision "under_review"
      then notifyOwner c "Claim Under Review" "review"
             (fun n => "Your claim " ++ n
                       ++ " is marked as Under Review by the Insurance Company.")
      else (fun w => w) in
    if updateError
    then showError "Failed to update claim status"
           (notification (emit (ClaimsUpdate [c] updateData) w))
    else
      showSuccess (if String.eqb decision "approved" then "Claim approved"
                   else if String.eqb decision "rejected" then "Claim rejected"
                   else "Claim marked as Under Review")
        (notification (remoteUpdateClaim c updateData w)).

(** The click handler that [openRejectionModal] installs on the confirm
    button. *)
Definition confirmReject (rejectionNotes : string) (updateError : bool) (now : string)
           (s : Session) (w : World) : World :=
  let notes := trim rejectionNotes in
  if negb (truthyStr notes)
  then showError "Please provide a reason for rejection" w
  else decideClaim "rejected" notes updateError now s (emit CloseRejectionModal w).

End InsurancePortal.

(** ** Admin signup page (unnamed/part_000) *)

Module AdminSignup.
Import JS.

Definition ROLE_LABELS : list (string * string) :=
  [ ("admin", "Platform administrator");
    ("car-company", "Car company partner");
    ("insurance-company", "Insurance company partner") ].

(** [normalizeSelection(role)]: the pair [(dbRole, metadataRole)]; [role] is
    the value of the select box, [None] when the box is missing. *)
Definition normalizeSelection (role : option string) : string * string :=
  if negb (truthyS role) then ("user", "user")
  else
    let metadataRole :=
      replaceAll isHyphen "-"
        (replaceAll isUnderscoreOrSpace "-" (toLowerCase (trim (default "" role)))) in
    if includes metadataRole "car" && includes metadataRole "company"
    then ("car_company", "car-company")
    else if includes metadataRole "insurance" && includes metadataRole "company"
    then ("insurance_company", "insurance-company")
    else if includes metadataRole "admin"
    then ("admin", "admin")
    else ("user", if truthyStr metadataRole then metadataRole else "user").

Inductive Effect :=
| ShowMessage (message variant : string)
| SetLoading (isLoading : bool)
| SignUp (email password dbRole metadataRole : string)
| UpdateUser (dbRole metadataRole : string)
| AccountMessage (confirmed : bool) (roleName : PropertyValue) (email : string)
| SignOut
| ResetForm.

(** [validatePayload(email, password, confirmPassword, role)]: the result
    and the message it shows. *)
Definition validatePayload (email password confirmPassword : option string) (role : string)
  : bool * list Effect :=
  if negb (truthyS email)
  then (false, [ShowMessage "Enter an email address to continue." "error"])
  else if negb (truthyS password) || (String.length (default "" password) <? 8)%nat
  then (false, [ShowMessage "Choose a password with at least 8 characters." "error"])
  else if negb (bool_decide (password = confirmPassword))
  then (false, [ShowMessage "Passwords do not match. Please re-enter and try again." "error"])
  else if negb (truthyStr role)
  then (false, [ShowMessage "Select the portal role that should be assigned to this account." "error"])
  else (true, []).

(** The fields of the form; [None] is a missing input element. *)
Record Form := mkForm {
  adminEmail : option string;
  adminPassword : option string;
  confirmPassword : option string;
  portalRole : option string }.

(** What [auth.signUp] answers: an error with its code and message, or the
    created user, if any, with whether its email is confirmed. *)
Inductive SignUpResult :=
| SignUpError (code : option string) (message : string)
| SignUpDone (user : option bool).

(** [handleSignup(event)]; the client is initialised before the handler is
    wired, so [initSupabase()] answers from its cache. *)
Definition handleSignup (form : Form) (answer : SignUpResult) : list Effect :=
  let email := option_map trim (adminEmail form) in
  let password := adminPassword form in
  let '(dbRole, metadataRole) := normalizeSelection (portalRole form) in
  let v := validatePayload email password (confirmPassword form) dbRole in
  if negb (fst v) then snd v
  else
    ([ SetLoading true; ShowMessage "Creating account…" "info";
       SignUp (default "" email) (default "" password) dbRole metadataRole ]
     ++ match answer with
        | SignUpError code message =>
            [ ShowMessage
                (if bool_decide (code = Some "user_already_exists")
                 then "An account with this email already exists."
                 else if truthyStr message then message
                 else "Unable to create the account right now. Please try again later.")
                "error" ]
        | SignUpDone createdUser =>
            (match createdUser with
             | Some _ => [ UpdateUser dbRole metadataRole ]
             | None => []
             end)
            ++ [ AccountMessage (default false createdUser)
                   (let label := getProperty ROLE_LABELS metadataRole in
                    if truthy label then label else OwnString "new user")
                   (default "" email);
                 SignOut; ResetForm ]
        end
     ++ [ SetLoading false ])%list.

End AdminSignup.

(** ** Login page: resolving the role and leaving the page
       (public/login.js, lines 91-238) *)

Module LoginPage.
Import JS.

(** [app_metadata] or [user_metadata]: the role hints it may carry.
    [roles] is [None] when the property is not an array. *)
Record Metadata := mkMetadata {
  role : option string;
  portal_role : option string;
  portalRole : option string;
  roles : option (list string) }.

(** The default [{}] of the destructuring. *)
Definition noMetadata : Metadata := mkMetadata None None None None.

Record User := mkUser {
  id : string;
  app_metadata : Metadata;
  user_metadata : Metadata }.

(** [if (v) candidates.push(v)] *)
Definition pushIf (v : option string) : list string :=
  if truthyS v then [default "" v] else [].

(** [if (Array.isArray(rs) && rs.length > 0) candidates.push(rs[0])] *)
Definition pushFirst (rs : option (list string)) : list string :=
  match rs with
  | Some (r :: _) => [r]
  | _ => []
  end.

Definition candidatesOf (m : Metadata) : list string :=
  (pushIf (role m) ++ pushIf (portal_role m) ++ pushIf (portalRole m)
   ++ pushFirst (roles m))%list.

Definition candidates (user : User) : list string :=
  (candidatesOf (app_metadata user) ++ candidatesOf (user_metadata user))%list.

(** [for (const candidate of candidates) { ... if (normalized) return
    normalized; } return null] *)
Fixpoint firstRole (normalize : string -> option string) (cs : list string)
  : option string :=
  match cs with
  | [] => None
  | candidate :: rest =>
      if truthyS (normalize candidate) then normalize candidate
      else firstRole normalize rest
  end.

Definition extractRoleFromMetadata (user : option User) : option string :=
  match user with
  | None => None
  | Some u => firstRole Login.normalizeRole (candidates u)
  end.

(** What the profile tables answer for the user: the [role] column of the
    user's row in the table, [None] when the query fails, finds no row or
    the table does not exist. *)
Definition Profiles := string -> option string.

(** [attemptRoleLookup(user, table, column)] *)
Definition attemptRoleLookup (profiles : Profiles) (table : string) : option string :=
  match profiles table with
  | Some v => Login.normalizeRole v
  | None => None
  end.

Definition fallbackSources : list string :=
  [ "profiles"; "portal_profiles"; "user_profiles" ].

(** The loop over the fallback sources: the role and the tables queried. *)
Fixpoint lookupLoop (profiles : Profiles) (sources : list string)
  : option string * list string :=
  match sources with
  | [] => (None, [])
  | table :: rest =>
      let r := attemptRoleLookup profiles table in
      if truthyS r then (r, [table])
      else let out := lookupLoop profiles rest in (fst out, table :: snd out)
  end.

(** [resolveUserRole(user)]: the role and the tables queried for it. *)
Definition resolveUserRole (user : option User) (profiles : Profiles)
  : option string * list string :=
  match user with
  | None => (None, [])
  | Some u =>
      let metaRole := extractRoleFromMetadata (Some u) in
      if truthyS metaRole then (metaRole, [])
      else lookupLoop profiles fallbackSources
  end.

Inductive Effect :=
| ShowMessage (message variant : string)
| SetLoading (isLoading : bool)
| SignIn (email password : string)
| GetUser
| Replace (path : PropertyValue).

(** The page: the [isRedirecting] flag and what the page has done. *)
Record Page := mkPage { isRedirecting : bool; log : list Effect }.

Definition say (es : list Effect) (p : Page) : Page :=
  mkPage (isRedirecting p) (log p ++ es)%list.

(** [redirectTo(path)] *)
Definition redirectTo (path : PropertyValue) (p : Page) : Page :=
  if negb (truthy path) || isRedirecting p then p
  else mkPage true (log p ++ [Replace path])%list.

(** [redirectForUser(user, { silent })] *)
Definition redirectForUser (user : option User) (silent : bool) (profiles : Profiles)
           (p : Page) : Page :=
  let normalizedRole := fst (resolveUserRole user profiles) in
  if negb (truthyS normalizedRole)
  then (if silent then p
        else say [ ShowMessage "Your account does not have a portal role assigned. Please contact the InsureVis support team to request access." "error";
                   SetLoading false ] p)
  else
    let destination := getProperty Login.ROLE_ROUTES (default "" normalizedRole) in
    if negb (truthy destination)
    then (if silent then p
          else say [ ShowMessage "Unsupported role detected for this portal." "error";
                     SetLoading false ] p)
    else redirectTo destination p.

(** What [signInWithPassword] answers: an error with its message, or the
    user of the answer, if any, and the user [getUser] gives otherwise. *)
Inductive SignInResult :=
| SignInError (message : string)
| SignInDone (dataUser currentUser : option User).

(** [handleLogin(event)]; [email] and [password] are the values of the
    inputs, [None] for a missing input. *)
Definition handleLogin (email password : option string) (answer : SignInResult)
           (profiles : Profiles) (p : Page) : Page :=
  let email := option_map trim email in
  if negb (truthyS email) || negb (truthyS password)
  then say [ ShowMessage "Enter your email address and password to continue." "error" ] p
  else
    let p1 := say [ SetLoading true; ShowMessage "Signing you in…" "info";
                    SignIn (default "" email) (default "" password) ] p in
    let failed (message : string) (q : Page) : Page :=
      say [ ShowMessage
              (if String.eqb message "Invalid login credentials"
               then "The email or password you entered is incorrect."
               else if truthyStr message then message
               else "Unable to sign you in right now. Please try again.")
              "error";
            SetLoading false ] q in
    match answer with
    | SignInError message => failed message p1
    | SignInDone (Some u) _ => redirectForUser (Some u) false profiles p1
    | SignInDone None (Some u) =>
        redirectForUser (Some u) false profiles (say [GetUser] p1)
    | SignInDone None None =>
        failed "Authentication succeeded but no user data was returned."
               (say [GetUser] p1)
    end.

End LoginPage.

(** ** Portals: who may open a portal
       (public/login.js, lines 383-455, and
       public/insurance-company/app.js, lines 99-171: the same text but for
       the portal's own role) *)

Module PortalBoot.
Import JS.

Definition candidatesOf (m : LoginPage.Metadata) : list string :=
  (LoginPage.pushIf (LoginPage.role m) ++ LoginPage.pushFirst (LoginPage.roles m))%list.

Definition candidates (user : LoginPage.User) : list string :=
  (candidatesOf (LoginPage.app_metadata user)
   ++ candidatesOf (LoginPage.user_metadata user))%list.

Definition extractRoleFromMetadata (user : option LoginPage.User) : option string :=
  match user with
  | None => None
  | Some u => LoginPage.firstRole PortalRole.normalizeRole (candidates u)
  end.

Definition fallbackSources : list string := [ "profiles"; "portal_profiles" ].

(** The loop of [resolveUserRole]: a row with a truthy [role] is
    normalised, and the first role found is returned. *)
Fixpoint lookupLoop (profiles : LoginPage.Profiles) (sources : list string)
  : option string :=
  match sources with
  | [] => None
  | table :: rest =>
      let normalized :=
        if truthyS (profiles table)
        then PortalRole.normalizeRole (default "" (profiles table)) else None in
      if truthyS normalized then normalized else lookupLoop profiles rest
  end.

Definition resolveUserRole (user : LoginPage.User) (profiles : LoginPage.Profiles)
  : option string :=
  let metaRole := extractRoleFromMetadata (Some user) in
  if truthyS metaRole then metaRole else lookupLoop profiles fallbackSources.

Inductive Boot :=
| RedirectTo (path : PropertyValue)
| InitializeApp.

(** [bootstrapPortal()] of the portal whose role is [ownRole], once the
    client is initialised and the session is read; [session] is the
    signed-in user, if any. [ROLE_ROUTES[role]] is read with [role]
    printed as a property name, [null] for no role. *)
Definition bootstrapPortal (ownRole : string) (session : option LoginPage.User)
           (profiles : LoginPage.Profiles) : Boot :=
  match session with
  | None => RedirectTo (OwnString "/")
  | Some user =>
      let role := resolveUserRole user profiles in
      if negb (strictEq role ownRole)
      then let destination := getProperty PortalRole.ROLE_ROUTES (default "null" role) in
           RedirectTo (if truthy destination then destination else OwnString "/")
      else InitializeApp
  end.

End PortalBoot.

(** ** Car-company portal: the whole list load
       (public/login.js, lines 1160-1292) *)

Module CarLoad.
Import JS Data.

(** [.or('car_company_status.is.null,car_company_status.eq.pending')] *)
Definition needsMigration (r : ClaimRow) : bool :=
  match car_company_status r with
  | None => true
  | Some s => String.eqb s "pending"
  end.

(** [o === false] *)
Definition isFalse (o : option bool) : bool :=
  match o with Some false => true | _ => false end.

(** The [newStatus] of the migration. *)
Definition newStatus (r : ClaimRow) : string :=
  if isTrue (is_approved_by_car_company r) then "approved"
  else if isFalse (is_approved_by_car_company r)
          && truthyS (car_company_approval_notes r)
  then "rejected"
  else "pending".

Definition claimsToMigrate (d : DB) : list (string * ClaimRow) :=
  List.filter (fun kr => needsMigration (snd kr)) (map_to_list (claims_table d)).

(** The migration at the head of [loadClaims], when its query succeeds:
    one update of [car_company_status] per selected claim. *)
Definition migrate (w : World) : World :=
  fold_left (fun w kr =>
               remoteUpdateClaim (fst kr)
                 [ set_car_company_status (Some (newStatus (snd kr))) ] w)
            (claimsToMigrate (db w)) w.

(** [loadClaims()], when the claims are fetched: the migration, the fetch,
    the sweep and the rows handed to [displayClaims] ([None] when a claim
    comes without [documents]). *)
Definition loadClaims (w : World) : option (list (Claim * Counters)) * World :=
  let w1 := migrate w in
  let swept := CarPortal.sweep (selectClaims (db w1)) w1 in
  (CarPortal.processClaims (fst swept), snd swept).

(** The tables after one list load. *)
Definition loadClaimsDB (d : DB) : DB := db (snd (loadClaims (mkWorld d []))).

End CarLoad.

(** ** Insurance-company portal: the list load and the statistics of the
       documents view (public/insurance-company/app.js, lines 441-557 and
       995-1007) *)

Module InsuranceLoad.
Import JS Data.

(** [.eq('status', 'approved').or('is_approved_by_insurance_company.is.null,
    is_approved_by_insurance_company.eq.false')] *)
Definition needsMigration (r : ClaimRow) : bool :=
  strictEq (status r) "approved"
  && match is_approved_by_insurance_company r with
     | None | Some false => true
     | Some true => false
     end.

Definition claimsToMigrate (d : DB) : list (string * ClaimRow) :=
  List.filter (fun kr => needsMigration (snd kr)) (map_to_list (claims_table d)).

(** The migration at the head of [loadClaims], when its query succeeds. *)
Definition migrate (w : World) : World :=
  fold_left (fun w kr =>
               remoteUpdateClaim (fst kr)
                 [ set_is_approved_by_insurance_company (Some true) ] w)
            (claimsToMigrate (db w)) w.

(** [loadClaims()], when the claims are fetched. *)
Definition loadClaims (w : World) : option (list InsurancePortal.Listed) * World :=
  let w1 := migrate w in
  (InsurancePortal.listedClaims (selectClaims (db w1)), w1).

Record Stats := mkStats {
  carVerified : Z;
  insuranceVerified : Z;
  pendingInsurance : Z;
  rejectedInsurance : Z;
  totalDocs : Z }.

(** [updateDocumentStats(allDocuments, insuranceDocuments)] *)
Definition updateDocumentStats (allDocuments insuranceDocuments : list Document) : Stats :=
  mkStats
    (Z.of_nat (length (List.filter (fun d => truthyB (verified_by_car_company (doc d)))
                                   allDocuments)))
    (Z.of_nat (length (List.filter (fun d => truthyB (verified_by_insurance_company (doc d)))
                                   insuranceDocuments)))
    (Z.of_nat (length (List.filter
                         (fun d => negb (truthyB (verified_by_insurance_company (doc d)))
                                   && negb (truthyS (insurance_verification_notes (doc d))))
                         insuranceDocuments)))
    (Z.of_nat (length (List.filter (fun d => truthyS (insurance_verification_notes (doc d)))
                                   insuranceDocuments)))
    (Z.of_nat (length allDocuments)).

End InsuranceLoad.

(** ** Where a document is stored
       (public/login.js, lines 2242-2269, 2347-2354 and 2876-2888) *)

Module Storage.
Import JS.

(** [l.split(sep)] on the characters, for a separator of one character. *)
Fixpoint splitOn (sep : ascii) (l : list ascii) : list (list ascii) :=
  match l with
  | [] => [[]]
  | c :: l' =>
      if Ascii.eqb c sep then [] :: splitOn sep l'
      else match splitOn sep l' with
           | seg :: segs => (c :: seg) :: segs
           | [] => [[c]]
           end
  end.

(** [segs.join(sep)] *)
Fixpoint joinWith (sep : ascii) (segs : list (list ascii)) : list ascii :=
  match segs with
  | [] => []
  | [seg] => seg
  | seg :: rest => (seg ++ sep :: joinWith sep rest)%list
  end.

Definition split (sep : ascii) (s : string) : list string :=
  map str (splitOn sep (chars s)).
Definition join (sep : ascii) (parts : list string) : string :=
  str (joinWith sep (map chars parts)).

(** [parts.findIndex(p => p === x)], [None] for [-1] *)
Fixpoint findIndex (x : string) (parts : list string) : option nat :=
  match parts with
  | [] => None
  | p :: rest =>
      if String.eqb p x then Some 0
      else match findIndex x rest with
           | Some i => Some (S i)
           | None => None
           end
  end.

(** The body of [parseStorageUrl] on the path of the URL: the bucket and
    the path of the object. *)
Definition parseStoragePath (pathname : string) : option (string * string) :=
  let parts := List.filter truthyStr (split "/" pathname) in
  match findIndex "object" parts with
  | None => None
  | Some idx =>
      if (length parts <? idx + 3)%nat then None
      else
        let kind := default "" (nth_error parts (idx + 1)) in
        let bucket :=
          if String.eqb kind "public" || String.eqb kind "sign"
          then default "" (nth_error parts (idx + 2)) else kind in
        let objectPath :=
          if String.eqb kind "public" || String.eqb kind "sign"
          then join "/" (skipn (idx + 3) parts) else join "/" (skipn (idx + 2) parts) in
        if negb (truthyStr bucket) || negb (truthyStr objectPath) then None
        else Some (bucket, objectPath)
  end.

(** [parseStorageUrl(url)]; [pathnameOf] is [new URL(url).pathname], [None]
    when the constructor throws. *)
Definition parseStorageUrl (pathnameOf : string -> option string) (url : option string)
  : option (string * string) :=
  if negb (truthyS url) then None
  else match pathnameOf (default "" url) with
       | Some pathname => parseStoragePath pathname
       | None => None
       end.

(** The fields of a document row that say where its file is. *)
Record FileRef := mkFileRef {
  storage_path : option string;
  file_path : option string;
  path : option string;
  filePath : option string;
  bucket : option string;
  remote_url : option string;
  url : option string }.

(** [a || b] on nullable strings *)
Definition orElse (a b : option string) : option string :=
  if truthyS a then a else b.

(** A falsy value read through [|| null] *)
Definition orNull (a : option string) : option string :=
  if truthyS a then a else None.

(** [resolveStorageObject(doc)]: the bucket name and the object path. *)
Definition resolveStorageObject (pathnameOf : string -> option string) (d : FileRef)
  : string * option string :=
  let objectPath :=
    orNull (orElse (storage_path d) (orElse (file_path d) (orElse (path d) (filePath d)))) in
  let bucketName := if truthyS (bucket d) then default "" (bucket d) else "insurevis-documents" in
  let initialUrl := orNull (orElse (remote_url d) (url d)) in
  if negb (truthyS objectPath) && truthyS initialUrl
  then match parseStorageUrl pathnameOf initialUrl with
       | Some parsed =>
           (if truthyStr (fst parsed) then fst parsed else bucketName, Some (snd parsed))
       | None => (bucketName, objectPath)
       end
  else (bucketName, objectPath).

(** [getFileExtension(filename)] *)
Definition getFileExtension (filename : string) : string :=
  toLowerCase (List.last (split "." filename) "").

(** [isImageFile(extension)] *)
Definition isImageFile (extension : string) : bool :=
  arrayIncludes [ "jpg"; "jpeg"; "png"; "gif"; "bmp"; "webp"; "svg" ] extension.

End Storage.

(** ** The claim page of the car portal: its documents and the numbers
       above them (public/login.js, lines 1660-1680 and 1723-1749) *)

Module CarDetail.
Import JS Data.

(** [from('documents').select('*').eq('claim_id', claimId)
    .in('type', CAR_COMPANY_DOCUMENT_TYPES)] *)
Definition selectDocuments (d : DB) (claimId : string) : list Document :=
  List.filter CarPortal.isCarCompanyDoc (documentsOf d claimId).

(** [updateDocumentStats(documents)]: the four numbers, and whether the
    decision buttons are shown. *)
Definition updateDocumentStats (documents : list Document) (s : Session)
  : Counters * bool :=
  let total := Z.of_nat (length documents) in
  let verified :=
    Z.of_nat (length (List.filter (fun d => truthyB (verified_by_car_company (doc d)))
                                  documents)) in
  let rejected :=
    Z.of_nat (length (List.filter
                        (fun d => negb (truthyB (verified_by_car_company (doc d)))
                                  && truthyS (car_company_verification_notes (doc d)))
                        documents)) in
  let pending := (total - verified - rejected)%Z in
  (mkCounters total verified rejected pending,
   truthyS (currentClaim s) && negb (currentClaimApproved s) && negb (isModalOpen s)).

End CarDetail.

(** ** Audit log: the age shown beside an entry
       (public/login.js, lines 874-880) *)

Module AuditLog.

Inductive TimeAgo :=
| JustNow
| HoursAgo (h : Z)
| DaysAgo (d : Z)
| OnDate.

(** [Math.floor((now - timestamp) / (1000 * 60 * 60))], both times in
    milliseconds. *)
Definition diffHours (now timestamp : Z) : Z := ((now - timestamp) / (1000 * 60 * 60))%Z.

Definition timeAgo (now timestamp : Z) : TimeAgo :=
  let h := diffHours now timestamp in
  if (h <? 1)%Z then JustNow
  else if (h <? 24)%Z then HoursAgo h
  else if (h <? 168)%Z then DaysAgo (h / 24)%Z
  else OnDate.

End AuditLog.

(* ===================================================================== *)
(** * Part 2. Properties                                                 *)
(* ===================================================================== *)

(** ** Strings: what trimming, lower-casing and separator replacement keep *)

Section StringFacts.
Import JS.

Lemma chars_str (l : list ascii) : chars (str l) = l.
Proof. apply list_ascii_of_string_of_list_ascii. Qed.

Lemma isPrefix_spec (t s : list ascii) :
  isPrefix t s = true <-> exists post, s = (t ++ post)%list.
Proof.
  revert s. induction t as [|a t IH]; intros s; simpl.
  - split; [intros _; by exists s | done].
  - destruct s as [|b s].
    + split; [done | intros [post H]; discriminate H].
    + rewrite andb_true_iff, IH, Ascii.eqb_eq. split.
      * intros [-> [post ->]]. by exists post.
      * intros [post H]. injection H as -> ->. split; [done | by exists post].
Qed.

Lemma includesChars_spec (t s : list ascii) :
  includesChars t s = true <-> exists pre post, s = (pre ++ t ++ post)%list.
Proof.
  induction s as [|b s IH].
  - simpl. rewrite orb_false_r, isPrefix_spec. split.
    + intros [post H]. by exists [], post.
    + intros [pre [post H]]. destruct pre; [by exists post | discriminate H].
  - cbn [includesChars]. rewrite orb_true_iff, isPrefix_spec, IH. split.
    + intros [[post H] | [pre [post H]]].
      * by exists [], post.
      * exists (b :: pre), post. by rewrite H.
    + intros [pre [post H]]. destruct pre as [|c pre].
      * left. by exists post.
      * right. injection H as -> ->. by exists pre, post.
Qed.

Lemma dropWhile_keeps (f : ascii -> bool) (c : ascii) (t pre post : list ascii) :
  f c = false ->
  exists pre', dropWhile f (pre ++ (c :: t) ++ post) = (pre' ++ (c :: t) ++ post)%list.
Proof.
  intros Hc. induction pre as [|a pre [pre' IH]]; simpl.
  - exists []. by rewrite Hc.
  - destruct (f a).
    + by exists pre'.
    + by exists (a :: pre).
Qed.

(** A token without white space that occurs in a string still occurs in
    the trimmed string. *)
Lemma trimChars_keeps (t s : list ascii) :
  t <> [] -> forallb (fun c => negb (isWhiteSpace c)) t = true ->
  includesChars t s = true -> includesChars t (trimChars s) = true.
Proof.
  intros Hne Hws. rewrite !includesChars_spec. intros [pre [post ->]].
  assert (Hall : forall c, In c t -> isWhiteSpace c = false).
  { intros c Hin. rewrite forallb_forall in Hws. specialize (Hws c Hin).
    by destruct (isWhiteSpace c). }
  unfold trimChars.
  destruct t as [|c t]; [done|].
  destruct (dropWhile_keeps isWhiteSpace c t pre post) as [pre' ->].
  { apply Hall. by left. }
  rewrite !rev_app_distr.
  destruct (rev (c :: t)) as [|d u] eqn:Hrev.
  { apply (f_equal (@length _)) in Hrev. rewrite length_rev in Hrev. discriminate Hrev. }
  rewrite <- app_assoc.
  destruct (dropWhile_keeps isWhiteSpace d u (rev post) (rev pre')) as [post' ->].
  { apply Hall. apply in_rev. rewrite Hrev. by left. }
  rewrite <- Hrev, !rev_app_distr, !rev_involutive, <- app_assoc.
  by exists pre', (rev post').
Qed.

Lemma replaceRuns_prefix (cls : ascii -> bool) (r : ascii) (t : list ascii) :
  forallb (fun c => negb (cls c)) t = true ->
  forall b post, exists post',
    replaceRuns cls r b (t ++ post) = (t ++ post')%list.
Proof.
  induction t as [|c t IH]; intros Ht b post; simpl.
  - by exists (replaceRuns cls r b post).
  - simpl in Ht. apply andb_true_iff in Ht as [Hc Ht].
    destruct (cls c); [done|].
    destruct (IH Ht false post) as [post' ->]. by exists post'.
Qed.

(** A token without characters of the class still occurs after the runs
    of the class are replaced. *)
Lemma replaceRuns_keeps (cls : ascii -> bool) (r : ascii) (t s : list ascii) (b : bool) :
  forallb (fun c => negb (cls c)) t = true ->
  includesChars t s = true -> includesChars t (replaceRuns cls r b s) = true.
Proof.
  intros Ht. rewrite !includesChars_spec. intros [pre [post ->]].
  revert b. induction pre as [|a pre IH]; intros b.
  - destruct (replaceRuns_prefix cls r t Ht b post) as [post' H].
    exists [], post'. exact H.
  - simpl. destruct (cls a).
    + destruct b.
      * apply IH.
      * destruct (IH true) as [pre' [post' ->]]. by exists (r :: pre'), post'.
    + destruct (IH false) as [pre' [post' ->]]. by exists (a :: pre'), post'.
Qed.

Lemma isWhiteSpace_lowerChar (c : ascii) : isWhiteSpace (lowerChar c) = isWhiteSpace c.
Proof. destruct c as [[] [] [] [] [] [] [] []]; reflexivity. Qed.

Lemma lower_dropWhile (l : list ascii) :
  map lowerChar (dropWhile isWhiteSpace l) = dropWhile isWhiteSpace (map lowerChar l).
Proof.
  induction l as [|c l IH]; [done|]. simpl.
  rewrite isWhiteSpace_lowerChar. by destruct (isWhiteSpace c).
Qed.

Lemma lower_trimChars (l : list ascii) :
  map lowerChar (trimChars l) = trimChars (map lowerChar l).
Proof.
  unfold trimChars. by rewrite map_rev, lower_dropWhile, map_rev, lower_dropWhile.
Qed.

(** [t] has no white space, hyphen or underscore: the separators of the
    role strings. *)
Definition plainToken (t : string) : bool :=
  negb (String.eqb t "")
  && forallb (fun c => negb (isWhiteSpace c) && negb (isHyphen c)
                       && negb (Ascii.eqb c "_")) (chars t).

Lemma plainToken_parts (t : string) :
  plainToken t = true ->
  chars t <> []
  /\ forallb (fun c => negb (isWhiteSpace c)) (chars t) = true
  /\ forallb (fun c => negb (isSpaceOrHyphen c)) (chars t) = true
  /\ forallb (fun c => negb (isUnderscoreOrSpace c)) (chars t) = true
  /\ forallb (fun c => negb (isHyphen c)) (chars t) = true.
Proof.
  unfold plainToken. intros H. apply andb_true_iff in H as [Hne H].
  split.
  { destruct t; [discriminate Hne | discriminate]. }
  rewrite forallb_forall in H.
  repeat split; apply forallb_forall; intros c Hc; specialize (H c Hc);
    unfold isSpaceOrHyphen, isUnderscoreOrSpace, isHyphen in *;
    destruct (isWhiteSpace c), (Ascii.eqb c "-"), (Ascii.eqb c "_"); done.
Qed.

(** The login normaliser's string: trim, lower-case, separators to [_]. *)
Lemma includes_login_normalized (role t : string) :
  plainToken t = true ->
  includes (toLowerCase role) t = true ->
  includes (replaceAll isSpaceOrHyphen "_" (toLowerCase (trim role))) t = true.
Proof.
  intros Ht. destruct (plainToken_parts t Ht) as (Hne & Hws & Hsep & _ & _).
  unfold includes, replaceAll, toLowerCase, trim. rewrite !chars_str.
  intros H. apply replaceRuns_keeps; [done|].
  rewrite lower_trimChars. by apply trimChars_keeps.
Qed.

(** The portal normaliser's string: lower-case, trim, separators to [_]. *)
Lemma includes_portal_normalized (role t : string) :
  plainToken t = true ->
  includes (toLowerCase role) t = true ->
  includes (replaceAll isSpaceOrHyphen "_" (trim (toLowerCase role))) t = true.
Proof.
  intros Ht. destruct (plainToken_parts t Ht) as (Hne & Hws & Hsep & _ & _).
  unfold includes, replaceAll, toLowerCase, trim. rewrite !chars_str.
  intros H. apply replaceRuns_keeps; [done|]. by apply trimChars_keeps.
Qed.

(** The signup normaliser's string: trim, lower-case, [_] and white space
    to [-], runs of [-] to one. *)
Lemma includes_signup_normalized (role t : string) :
  plainToken t = true ->
  includes (toLowerCase role) t = true ->
  includes (replaceAll isHyphen "-"
              (replaceAll isUnderscoreOrSpace "-" (toLowerCase (trim role)))) t = true.
Proof.
  intros Ht. destruct (plainToken_parts t Ht) as (Hne & Hws & _ & Hus & Hhy).
  unfold includes, replaceAll, toLowerCase, trim. rewrite !chars_str.
  intros H. apply replaceRuns_keeps; [done|]. apply replaceRuns_keeps; [done|].
  rewrite lower_trimChars. by apply trimChars_keeps.
Qed.

Lemma includes_nonempty (s t : string) :
  t <> "" -> includes (toLowerCase s) t = true -> truthyStr s = true.
Proof.
  intros Ht H. destruct s; [|done].
  destruct t; [done|]. discriminate H.
Qed.

End StringFacts.

(** ** Role normalisers *)

Section Roles.
Import JS.

Lemma login_normalizeRole_car_company (role : string) :
  includes (toLowerCase role) "car" = true ->
  includes (toLowerCase role) "company" = true ->
  Login.normalizeRole role = Some "car_company".
Proof.
  intros Hcar Hcompany. unfold Login.normalizeRole.
  rewrite (includes_nonempty role "car"); [|done|done]. simpl negb. cbv iota.
  rewrite (includes_login_normalized role "car"); [|done|done].
  by rewrite (includes_login_normalized role "company").
Qed.

Lemma portal_normalizeRole_car_company (role : string) :
  includes (toLowerCase role) "car" = true ->
  includes (toLowerCase role) "company" = true ->
  PortalRole.normalizeRole role = Some "car_company".
Proof.
  intros Hcar Hcompany. unfold PortalRole.normalizeRole.
  rewrite (includes_nonempty role "car"); [|done|done]. simpl negb. cbv iota.
  rewrite (includes_portal_normalized role "car"); [|done|done].
  by rewrite (includes_portal_normalized role "company").
Qed.

(** The closed set of role labels: a canonical role, an own key of the
    route table, or no role. *)
Definition canonicalRoles : list string := [ "car_company"; "insurance_company"; "admin" ].

Definition inClosedSet (routes : list (string * string)) (r : option string) : bool :=
  match r with
  | None => true
  | Some x => arrayIncludes canonicalRoles x || bool_decide (is_Some (ownProperty routes x))
  end.

Lemma getProperty_truthy (routes : list (string * string)) (k : string) :
  truthy (getProperty routes k) = true ->
  is_Some (ownProperty routes k) \/ arrayIncludes objectPrototypeNames k = true.
Proof.
  unfold getProperty. destruct (ownProperty routes k); [by left; eexists|].
  destruct (arrayIncludes objectPrototypeNames k); [by right | done].
Qed.

(** Every result of the login normaliser is in the closed set or is a
    property name that the route table inherits. *)
Lemma login_normalizeRole_results (role : string) :
  inClosedSet Login.ROLE_ROUTES (Login.normalizeRole role) = true
  \/ exists x, Login.normalizeRole role = Some x
               /\ arrayIncludes objectPrototypeNames x = true.
Proof.
  unfold Login.normalizeRole.
  repeat (match goal with |- context [if ?b then _ else _] => destruct b eqn:? end);
    try (by left).
  apply getProperty_truthy in Heqb3 as [Hown | Hinh].
  - left. simpl. apply orb_true_iff. right. by apply bool_decide_eq_true.
  - right. by eexists.
Qed.

Lemma portal_normalizeRole_results (role : string) :
  inClosedSet PortalRole.ROLE_ROUTES (PortalRole.normalizeRole role) = true
  \/ exists x, PortalRole.normalizeRole role = Some x
               /\ arrayIncludes objectPrototypeNames x = true.
Proof.
  unfold PortalRole.normalizeRole.
  repeat (match goal with |- context [if ?b then _ else _] => destruct b eqn:? end);
    try (by left).
  apply getProperty_truthy in Heqb2 as [Hown | Hinh].
  - left. simpl. apply orb_true_iff. right. by apply bool_decide_eq_true.
  - right. by eexists.
Qed.

(** C8. The role normalisers are meant to answer with a label of the
    closed set (a canonical role, a key of the route table, or no role).
    On the role string [constructor] they answer [constructor]: the
    lookup in the route table finds the property every object inherits,
    and the label returned is neither canonical nor a key of the table. *)
Theorem normalizeRole_escapes_closed_set :
  Login.normalizeRole "constructor" = Some "constructor"
  /\ PortalRole.normalizeRole "constructor" = Some "constructor"
  /\ inClosedSet Login.ROLE_ROUTES (Login.normalizeRole "constructor") = false
  /\ inClosedSet PortalRole.ROLE_ROUTES (PortalRole.normalizeRole "constructor") = false.
Proof. vm_compute. auto. Qed.

End Roles.

(** ** Admin signup *)

Section Signup.
Import JS AdminSignup.

Lemma normalizeSelection_dbRole (selection : option string) :
  In (fst (normalizeSelection selection))
     [ "user"; "car_company"; "insurance_company"; "admin" ].
Proof.
  unfold normalizeSelection.
  repeat (match goal with |- context [if ?b then _ else _] => destruct b end);
    simpl; auto.
Qed.

(** The checks of the form, in the words of the specification: the
    trimmed email is not empty, the password has at least 8 characters and
    the confirmation repeats it. *)
Definition checksPass (form : Form) : Prop :=
  (exists e, adminEmail form = Some e /\ trim e <> "")
  /\ exists p, adminPassword form = Some p /\ 8 <= String.length p
               /\ confirmPassword form = Some p.

Definition isRemoteCall (e : Effect) : bool :=
  match e with
  | SignUp _ _ _ _ | UpdateUser _ _ | SignOut => true
  | _ => false
  end.

Lemma truthyStr_true (s : string) : truthyStr s = true <-> s <> "".
Proof.
  unfold truthyStr. destruct (String.eqb_spec s ""); simpl; split; congruence.
Qed.

Lemma truthyStr_false (s : string) : truthyStr s = false <-> s = "".
Proof.
  unfold truthyStr. destruct (String.eqb_spec s ""); simpl; split; congruence.
Qed.

Lemma validatePayload_true (email password confirm : option string) (role : string) :
  fst (validatePayload email password confirm role) = true ->
  (exists e, email = Some e /\ e <> "")
  /\ (exists p, password = Some p /\ 8 <= String.length p /\ confirm = Some p)
  /\ role <> "".
Proof.
  unfold validatePayload.
  destruct email as [e|]; simpl; [|done].
  destruct (truthyStr e) eqn:He; simpl; [|done].
  destruct password as [p|]; simpl; [|done].
  destruct (truthyStr p) eqn:Hp; simpl; [|done].
  destruct (Nat.ltb_spec (String.length p) 8); simpl; [done|].
  case_bool_decide as Hc; simpl; [|done].
  destruct (truthyStr role) eqn:Hr; simpl; [|done].
  intros _. repeat split.
  - exists e. split; [done|]. by apply truthyStr_true.
  - exists p. by rewrite <- Hc.
  - by apply truthyStr_true.
Qed.

Lemma validatePayload_false (email password confirm : option string) (role : string) :
  fst (validatePayload email password confirm role) = false ->
  exists message, snd (validatePayload email password confirm role)
                  = [ShowMessage message "error"].
Proof.
  unfold validatePayload.
  repeat (match goal with |- context [if ?b then _ else _] => destruct b end);
    simpl; intros H; try discriminate H; by eexists.
Qed.

(** C10. Signing up: an account-creation request is issued only when the
    checks of the form pass (non-empty email, password of 8 characters or
    more, equal confirmation, a role); when a check fails the handler shows
    one error message and makes no remote call; the role check never
    fails, because every selection, the empty one included, is mapped to a
    non-empty role, which is [user] for the empty selection. *)
Theorem signup_request_only_after_validation (form : Form) (answer : SignUpResult) :
  ((exists e, In e (handleSignup form answer) /\ isRemoteCall e = true) ->
   checksPass form /\ fst (normalizeSelection (portalRole form)) <> "")
  /\ (~ checksPass form ->
      (exists message, handleSignup form answer = [ShowMessage message "error"])
      /\ forall e, In e (handleSignup form answer) -> isRemoteCall e = false)
  /\ (forall selection, fst (normalizeSelection selection) <> "")
  /\ normalizeSelection None = ("user", "user")
  /\ normalizeSelection (Some "") = ("user", "user").
Proof.
  assert (Hrole : forall selection, fst (normalizeSelection selection) <> "").
  { intros selection Heq. pose proof (normalizeSelection_dbRole selection) as Hin.
    rewrite Heq in Hin. simpl in Hin. intuition discriminate. }
  assert (Hfail : fst (validatePayload (option_map trim (adminEmail form))
                         (adminPassword form) (confirmPassword form)
                         (fst (normalizeSelection (portalRole form)))) = false ->
                  exists message, handleSignup form answer = [ShowMessage message "error"]).
  { intros Hv. unfold handleSignup.
    destruct (normalizeSelection (portalRole form)) as [dbRole metadataRole].
    simpl in Hv. rewrite Hv. simpl. by apply validatePayload_false. }
  assert (Hpass : fst (validatePayload (option_map trim (adminEmail form))
                         (adminPassword form) (confirmPassword form)
                         (fst (normalizeSelection (portalRole form)))) = true ->
                  checksPass form).
  { intros Hv. apply validatePayload_true in Hv as ([e [He Hne]] & Hp & _).
    split; [|done]. destruct (adminEmail form) as [e0|]; [|done].
    injection He as <-. by exists e0. }
  split; [|split; [|split; [done | split; reflexivity]]].
  - intros [e [Hin Hcall]]. split; [|apply Hrole].
    destruct (fst (validatePayload (option_map trim (adminEmail form))
                     (adminPassword form) (confirmPassword form)
                     (fst (normalizeSelection (portalRole form))))) eqn:Hv.
    + by apply Hpass.
    + destruct (Hfail eq_refl) as [message Hm]. rewrite Hm in Hin.
      destruct Hin as [<- | []]. discriminate Hcall.
  - intros Hno.
    destruct (fst (validatePayload (option_map trim (adminEmail form))
                     (adminPassword form) (confirmPassword form)
                     (fst (normalizeSelection (portalRole form))))) eqn:Hv.
    + destruct Hno. by apply Hpass.
    + destruct (Hfail eq_refl) as [message Hm]. split; [by exists message|].
      intros e Hin. rewrite Hm in Hin. by destruct Hin as [<- | []].
Qed.

(** The request goes out when the checks pass. *)
Lemma signup_request_issued (form : Form) (answer : SignUpResult) :
  checksPass form ->
  exists email password, In (SignUp email password
                               (fst (normalizeSelection (portalRole form)))
                               (snd (normalizeSelection (portalRole form))))
                            (handleSignup form answer).
Proof.
  intros [[e [He Hne]] [p [Hp [Hlen Hc]]]].
  pose proof (normalizeSelection_dbRole (portalRole form)) as Hin.
  unfold handleSignup. destruct (normalizeSelection (portalRole form)) as [dbRole m].
  unfold validatePayload. rewrite He, Hp, Hc. simpl in *.
  apply truthyStr_true in Hne. rewrite Hne. simpl.
  assert (Hp' : truthyStr p = true).
  { apply truthyStr_true. intros ->. simpl in Hlen. lia. }
  rewrite Hp'. simpl.
  destruct (Nat.ltb_spec (String.length p) 8); [lia|]. simpl.
  rewrite bool_decide_eq_true_2; [|done]. simpl.
  assert (Hr : truthyStr dbRole = true).
  { destruct Hin as [<- | [<- | [<- | [<- | []]]]]; reflexivity. }
  rewrite Hr. simpl. eexists _, _. right. right. by left.
Qed.

Lemma signup_request_only_after_validation_witness :
  checksPass (mkForm (Some " a@b.c ") (Some "12345678") (Some "12345678") (Some "Admin"))
  /\ fst (normalizeSelection (Some "Admin")) <> "".
Proof.
  apply (proj1 (signup_request_only_after_validation
                  (mkForm (Some " a@b.c ") (Some "12345678") (Some "12345678") (Some "Admin"))
                  (SignUpDone (Some true)))).
  exists (SignUp "a@b.c" "12345678" "admin" "admin").
  split; [vm_compute; tauto | reflexivity].
Defined.

End Signup.

(** ** The approval gate *)

Section ApprovalGate.
Import JS Data.

Lemma truthyB_true (o : option bool) : truthyB o = true <-> o = Some true.
Proof. destruct o as [[]|]; simpl; split; congruence. Qed.





(** An insurance claim that is already approved, with its one document
    verified by both reviewers. *)
Definition approvedRow : ClaimRow :=
  mkClaimRow (Some "u1") (Some "CLM-1") (Some "approved") (Some "approved") (Some true)
             (Some "2025-01-01") None (Some true) (Some "2025-01-02") None
             (Some "2025-01-02") None.

Definition pendingRow : ClaimRow :=
  mkClaimRow (Some "u1") (Some "CLM-1") (Some "submitted") (Some "pending") (Some false)
             None None None None None None None.

Definition verifiedDoc : DocRow :=
  mkDocRow "c1" "lto_or" (Some true) None (Some "2025-01-01") (Some "r1")
           (Some true) None (Some "2025-01-02") (Some "r2").

Definition approvedDB : DB := mkDB {[ "c1" := approvedRow ]} {[ "d1" := verifiedDoc ]}.

Definition idleSession : Session := mkSession (Some "c1") [] false None false.





(** C9. With an empty list of relevant documents the all-verified test is
    false and the Approve button is disabled, in both portals. *)
Theorem approve_disabled_without_documents
        (claim : option ClaimRow) (s : Session) (docs : list Document) :
  currentDocuments s = [] ->
  List.filter InsurancePortal.isInsuranceDoc docs = [] ->
  CarPortal.allDocsVerified (currentDocuments s) = false
  /\ CarPortal.approveDisabled (CarPortal.setDecisionButtonsState claim s) = true
  /\ InsurancePortal.allVerified (List.filter InsurancePortal.isInsuranceDoc docs) = false
  /\ InsurancePortal.approveDisabled
       (InsurancePortal.updateApprovalButtonStatus
          (List.filter InsurancePortal.isInsuranceDoc docs) s) = true.
Proof.
  intros Hcar Hins. unfold CarPortal.setDecisionButtonsState. rewrite Hcar, Hins.
  repeat split; reflexivity.
Qed.

Lemma approve_disabled_without_documents_witness :
  CarPortal.approveDisabled
    (CarPortal.setDecisionButtonsState (Some approvedRow) idleSession) = true
  /\ InsurancePortal.approveDisabled
       (InsurancePortal.updateApprovalButtonStatus
          (List.filter InsurancePortal.isInsuranceDoc
             [mkDocument "d9" (mkDocRow "c1" "selfie" None None None None None None None None)])
          idleSession) = true.
Proof.
  destruct (approve_disabled_without_documents (Some approvedRow) idleSession
              [mkDocument "d9" (mkDocRow "c1" "selfie" None None None None None None None None)]
              eq_refl eq_refl) as (_ & Hcar & _ & Hins).
  split; [exact Hcar | exact Hins].
Defined.

End ApprovalGate.

(** ** Counters of the claim list *)

Section CountersFacts.
Import JS Data.

Lemma filter_disjoint_length {A : Type} (f g : A -> bool) (l : list A) :
  (forall x, f x = true -> g x = true -> False) ->
  length (List.filter f l) + length (List.filter g l) <= length l.
Proof.
  intros Hfg. induction l as [|x l IH]; simpl; [lia|].
  destruct (f x) eqn:Hf, (g x) eqn:Hg; simpl; try lia.
  destruct (Hfg x Hf Hg).
Qed.

Lemma filter_length_le' {A : Type} (f : A -> bool) (l : list A) :
  length (List.filter f l) <= length l.
Proof. induction l as [|x l IH]; simpl; [lia|]. destruct (f x); simpl; lia. Qed.

(** In the car portal the counters split the relevant documents. *)
Lemma car_counters_partition (docs : list Document) :
  let c := CarPortal.claimCounters docs in
  (total c = verified c + rejected c + pending c
   /\ 0 <= total c /\ 0 <= verified c /\ 0 <= rejected c /\ 0 <= pending c)%Z.
Proof.
  unfold CarPortal.claimCounters. cbn [total verified rejected pending].
  set (carDocs := List.filter CarPortal.isCarCompanyDoc docs).
  pose proof (filter_disjoint_length
                (fun d => truthyB (verified_by_car_company (doc d)))
                (fun d => negb (truthyB (verified_by_car_company (doc d)))
                          && truthyS (car_company_verification_notes (doc d)))
                carDocs) as H.
  lapply H.
  - lia.
  - intros d Hv Hr. rewrite Hv in Hr. discriminate Hr.
Qed.

(** In the insurance portal the four counters add up and the first three
    are counts; nothing bounds [pending] from below. *)
Lemma insurance_counters_sum (docs : list Document) :
  let c := InsurancePortal.claimCounters docs in
  (total c = verified c + rejected c + pending c
   /\ 0 <= total c /\ 0 <= verified c /\ 0 <= rejected c)%Z.
Proof. unfold InsurancePortal.claimCounters. cbn [total verified rejected pending]. lia. Qed.

(** A document that is verified by the insurance company and still
    carries a rejection note. *)
Definition verifiedWithNote : Document :=
  mkDocument "d1"
    (mkDocRow "c1" "lto_or" (Some true) None None None
              (Some true) (Some "document_expired") (Some "2025-01-02") (Some "r2")).

(** C4. The counters are meant to split the relevant documents into
    verified, rejected and pending ones. The insurance list counts a
    document that is verified and carries a note twice, as verified and
    as rejected, so that the pending counter of a claim with that one
    document is [-1]; the car list, which counts a document as rejected
    only when it is not verified, gives [0]. *)
Theorem insurance_pending_counter_negative :
  InsurancePortal.claimCounters [verifiedWithNote] = mkCounters 1 1 1 (-1)
  /\ CarPortal.claimCounters
       [mkDocument "d1"
          (mkDocRow "c1" "lto_or" (Some true) (Some "document_expired") None None
                    None None None None)]
     = mkCounters 1 1 0 0.
Proof. split; reflexivity. Qed.

End CountersFacts.

(** ** Which claims the insurance portal lists and opens *)

Section InsuranceListing.
Import JS Data InsurancePortal.









(** The car-company types of the two scripts differ: a police report
    counts in the car portal and not in the insurance portal, so a claim
    with an unverified police report is listed for insurance review while
    the car portal still sees an unverified document. *)
Example listed_with_unverified_police_report :
  let docs := [ mkDocument "d1" verifiedDoc;
                mkDocument "d2" (mkDocRow "c1" "police_report" (Some false) None None None
                                          None None None None) ] in
  allCarDocsVerified docs = true /\ CarPortal.hasUnverifiedDocs docs = true.
Proof. split; reflexivity. Qed.

End InsuranceListing.

(** ** Rejecting a claim needs a reason *)

Section RejectionReason.
Import JS Data.

Lemma dropWhile_all (f : ascii -> bool) (l : list ascii) :
  forallb f l = true -> dropWhile f l = [].
Proof.
  induction l as [|c l IH]; simpl; [done|].
  intros H. apply andb_true_iff in H as [-> H]. by apply IH.
Qed.

(** A reason made of white space only (the empty one included) is empty
    once trimmed. *)
Lemma trim_blank (s : string) : forallb isWhiteSpace (chars s) = true -> trim s = "".
Proof.
  intros H. unfold trim, trimChars. by rewrite (dropWhile_all _ _ H).
Qed.

(** The remote requests of a claim decision. *)
Definition isClaimRequest (e : Effect) : bool :=
  match e with
  | ClaimsUpdate _ _ | SendNotification _ _ _ _ => true
  | _ => false
  end.

(** C7. Confirming a claim rejection with an empty or blank reason shows
    an error and does nothing else: the tables are unchanged and neither a
    claim update nor a notification is issued. A claim update or a
    notification goes out only when the trimmed reason is not empty. In
    both portals. *)
Theorem rejection_needs_reason
        (rejectionNotes : string) (updateError : bool) (now : string)
        (s : Session) (d : DB) :
  (forallb isWhiteSpace (chars rejectionNotes) = true ->
   CarPortal.confirmReject rejectionNotes updateError now s (mkWorld d [])
   = mkWorld d [Toast "error" "Error" "Please provide a reason for rejection"]
   /\ InsurancePortal.confirmReject rejectionNotes updateError now s (mkWorld d [])
      = mkWorld d [Toast "error" "Error" "Please provide a reason for rejection"])
  /\ ((exists e, In e (effects (CarPortal.confirmReject rejectionNotes updateError now s
                                  (mkWorld d [])))
                 /\ isClaimRequest e = true) ->
      trim rejectionNotes <> "")
  /\ ((exists e, In e (effects (InsurancePortal.confirmReject rejectionNotes updateError now s
                                  (mkWorld d [])))
                 /\ isClaimRequest e = true) ->
      trim rejectionNotes <> "").
Proof.
  split; [|split].
  - intros H. unfold CarPortal.confirmReject, InsurancePortal.confirmReject.
    by rewrite (trim_blank _ H).
  - intros [e [Hin He]] Ht. unfold CarPortal.confirmReject in Hin. rewrite Ht in Hin.
    simpl in Hin. destruct Hin as [<- | []]. discriminate He.
  - intros [e [Hin He]] Ht. unfold InsurancePortal.confirmReject in Hin. rewrite Ht in Hin.
    simpl in Hin. destruct Hin as [<- | []]. discriminate He.
Qed.

Lemma rejection_needs_reason_witness :
  CarPortal.confirmReject "   " false "2025-02-01" idleSession (mkWorld approvedDB [])
  = mkWorld approvedDB [Toast "error" "Error" "Please provide a reason for rejection"]
  /\ InsurancePortal.confirmReject "   " false "2025-02-01" idleSession (mkWorld approvedDB [])
     = mkWorld approvedDB [Toast "error" "Error" "Please provide a reason for rejection"].
Proof.
  apply (proj1 (rejection_needs_reason "   " false "2025-02-01" idleSession approvedDB)).
  reflexivity.
Defined.

(** With a reason and an open claim the rejection is sent: the update
    carries the reason and the owner is notified. *)
Example rejection_with_reason :
  effects (CarPortal.confirmReject " damaged plate " false "2025-02-01" idleSession
             (mkWorld approvedDB []))
  = [ CloseRejectionModal;
      ClaimsUpdate ["c1"]
        [ set_car_company_status (Some "rejected");
          set_is_approved_by_car_company (Some false);
          set_status (Some "rejected");
          set_car_company_approval_date None;
          set_rejected_at (Some "2025-02-01");
          set_car_company_approval_notes (Some "damaged plate") ];
      SendNotification "u1" "Claim Rejected"
        ("Your claim CLM-1 has been rejected by the Car Company. "
         ++ CarPortal.nl ++ CarPortal.nl ++ "Reason: " ++ CarPortal.nl ++ "damaged plate")
        "rejected";
      Toast "success" "Success" "Claim rejected" ].
Proof. vm_compute. reflexivity. Qed.

End RejectionReason.

(** ** Unverifying a document clears the approval of its claim *)

Section ApprovalCleared.
Import JS Data.

Definition carApprovalCleared (d : DB) (c : string) : Prop :=
  exists r, claims_table d !! c = Some r
            /\ is_approved_by_car_company r = Some false
            /\ car_company_approval_date r = None.

Definition insuranceApprovalCleared (d : DB) (c : string) : Prop :=
  exists r, claims_table d !! c = Some r
            /\ is_approved_by_insurance_company r = Some false
            /\ insurance_company_approval_date r = None.

Definition carUnverified (d : DB) (k : string) : Prop :=
  exists r, documents_table d !! k = Some r /\ verified_by_car_company r = Some false.

Definition insuranceUnverified (d : DB) (k : string) : Prop :=
  exists r, documents_table d !! k = Some r /\ verified_by_insurance_company r = Some false.

Lemma db_emit (e : Effect) (w : World) : db (emit e w) = db w.
Proof. reflexivity. Qed.

Lemma claims_remoteUpdateClaim (c : string) (patch : list ClaimAssign) (w : World) :
  claims_table (db (remoteUpdateClaim c patch w)) !! c
  = patchClaim patch <$> claims_table (db w) !! c.
Proof. simpl. apply lookup_alter_eq. Qed.

Lemma documents_remoteUpdateClaim (c : string) (patch : list ClaimAssign) (w : World) :
  documents_table (db (remoteUpdateClaim c patch w)) = documents_table (db w).
Proof. reflexivity. Qed.

Lemma documents_remoteUpdateDocument (k : string) (patch : list DocAssign) (w : World) :
  documents_table (db (remoteUpdateDocument k patch w)) !! k
  = patchDoc patch <$> documents_table (db w) !! k.
Proof. simpl. apply lookup_alter_eq. Qed.

Lemma claims_remoteUpdateDocument (k : string) (patch : list DocAssign) (w : World) :
  claims_table (db (remoteUpdateDocument k patch w)) = claims_table (db w).
Proof. reflexivity. Qed.

(** The guard against automatic approval keeps a cleared approval cleared
    and does not touch the documents. *)
Lemma safetyGuard_keeps (s : Session) (w : World) (c : string) :
  carApprovalCleared (db w) c ->
  carApprovalCleared (db (CarPortal.safetyGuard s w)) c
  /\ documents_table (db (CarPortal.safetyGuard s w)) = documents_table (db w).
Proof.
  intros Hc. unfold CarPortal.safetyGuard.
  destruct (currentClaim s) as [c'|]; [|done].
  destruct (truthyStr c' && CarPortal.allDocsVerified (currentDocuments s)); [|done].
  destruct (claims_table (db w) !! c') as [claimRow|] eqn:Hrow; [|done].
  match goal with |- context [if ?b then _ else _] => destruct b end; [|done].
  split; [|done]. destruct Hc as (r & Hr & Hflag & Hdate).
  destruct (decide (c' = c)) as [->|Hne].
  - exists (patchClaim [ set_is_approved_by_car_company (Some false);
                         set_car_company_status (Some "pending") ] r).
    rewrite claims_remoteUpdateClaim, Hr. split; [done|].
    destruct r. simpl in *. done.
  - exists r. split; [|done]. simpl. by rewrite lookup_alter_ne.
Qed.

Lemma car_clear_patch (r : ClaimRow) :
  is_approved_by_car_company
    (patchClaim [ set_is_approved_by_car_company (Some false);
                  set_car_company_approval_date None ] r) = Some false
  /\ car_company_approval_date
       (patchClaim [ set_is_approved_by_car_company (Some false);
                     set_car_company_approval_date None ] r) = None.
Proof. by destruct r. Qed.

Lemma insurance_clear_patch (r : ClaimRow) :
  is_approved_by_insurance_company
    (patchClaim [ set_is_approved_by_insurance_company (Some false);
                  set_insurance_company_approval_date None ] r) = Some false
  /\ insurance_company_approval_date
       (patchClaim [ set_is_approved_by_insurance_company (Some false);
                     set_insurance_company_approval_date None ] r) = None.
Proof. by destruct r. Qed.

(** The document decision handler of the car portal, on a decision other
    than [verify]. *)
Lemma car_unverify_clears (decision uid now : string) (s : Session) (w : World)
      (k c : string) (dr : DocRow) (cr : ClaimRow) :
  currentDocId s = Some k -> k <> "" -> currentClaim s = Some c -> c <> "" ->
  currentClaimApproved s = false -> decision <> "verify" ->
  documents_table (db w) !! k = Some dr -> claims_table (db w) !! c = Some cr ->
  let w' := snd (CarPortal.handleDocumentDecision decision (Some uid) false now s w) in
  carUnverified (db w') k /\ carApprovalCleared (db w') c.
Proof.
  intros Hk Hkne Hc Hcne Happ Hdec Hdr Hcr.
  unfold CarPortal.handleDocumentDecision.
  rewrite Happ, Hk. simpl truthyS. rewrite (proj2 (truthyStr_true k) Hkne).
  simpl negb. cbv iota. simpl default.
  rewrite (proj2 (String.eqb_neq decision "verify") Hdec). simpl negb. cbv iota.
  cbn [snd]. rewrite db_emit.
  unfold CarPortal.whenClaimOpen. cbn [CarPortal.setDocuments currentClaim].
  rewrite Hc, (proj2 (truthyStr_true c) Hcne).
  match goal with |- context [CarPortal.safetyGuard ?s1 ?w2] =>
    destruct (safetyGuard_keeps s1 w2 c) as [Hclr Hdocs]
  end.
  - eexists. rewrite claims_remoteUpdateClaim, claims_remoteUpdateDocument, Hcr.
    split; [reflexivity|]. apply car_clear_patch.
  - split; [|exact Hclr]. unfold carUnverified. rewrite Hdocs.
    rewrite documents_remoteUpdateClaim, documents_remoteUpdateDocument, Hdr.
    eexists. split; [reflexivity|]. by destruct dr.
Qed.

(** The rejection of a document in the car portal. *)
Lemma car_reject_clears (reason other : string) (s : Session) (w : World)
      (k c : string) (dr : DocRow) (cr : ClaimRow) :
  currentDocId s = Some k -> k <> "" -> currentClaim s = Some c -> c <> "" ->
  reason <> "" -> (reason = "others" -> trim other <> "") ->
  documents_table (db w) !! k = Some dr -> claims_table (db w) !! c = Some cr ->
  let w' := snd (CarPortal.confirmDocumentRejection reason other false s w) in
  carUnverified (db w') k /\ carApprovalCleared (db w') c.
Proof.
  intros Hk Hkne Hc Hcne Hr Ho Hdr Hcr.
  unfold CarPortal.confirmDocumentRejection.
  rewrite (proj2 (truthyStr_true reason) Hr). simpl negb. cbv iota.
  assert (Hgo : String.eqb reason "others" && negb (truthyStr (trim other)) = false).
  { destruct (String.eqb_spec reason "others") as [He|]; [|done].
    by rewrite (proj2 (truthyStr_true _) (Ho He)). }
  rewrite Hgo, Hk. simpl truthyS. rewrite (proj2 (truthyStr_true k) Hkne).
  simpl negb. cbv iota. simpl default. cbn [snd].
  unfold showSuccess. rewrite db_emit.
  unfold CarPortal.whenClaimOpen. cbn [CarPortal.setDocuments currentClaim].
  rewrite Hc, (proj2 (truthyStr_true c) Hcne). split.
  - unfold carUnverified.
    rewrite documents_remoteUpdateClaim, documents_remoteUpdateDocument, Hdr.
    eexists. split; [reflexivity|]. by destruct dr.
  - eexists. rewrite claims_remoteUpdateClaim, claims_remoteUpdateDocument, Hcr.
    split; [reflexivity|]. apply car_clear_patch.
Qed.

(** The document decision handler of the insurance portal, on a decision
    other than [verify]. *)
Lemma insurance_unverify_clears (decision uid now : string) (s : Session) (w : World)
      (k c : string) (dr : DocRow) (cr : ClaimRow) :
  currentDocId s = Some k -> k <> "" -> currentClaim s = Some c -> c <> "" ->
  currentClaimApproved s = false -> decision <> "verify" ->
  documents_table (db w) !! k = Some dr -> claims_table (db w) !! c = Some cr ->
  let w' := snd (InsurancePortal.handleDocumentDecision decision (Some uid) false now s w) in
  insuranceUnverified (db w') k /\ insuranceApprovalCleared (db w') c.
Proof.
  intros Hk Hkne Hc Hcne Happ Hdec Hdr Hcr.
  unfold InsurancePortal.handleDocumentDecision.
  rewrite Happ, Hk. simpl truthyS. rewrite (proj2 (truthyStr_true k) Hkne).
  simpl negb. cbv iota. simpl default.
  rewrite (proj2 (String.eqb_neq decision "verify") Hdec). simpl negb. cbv iota.
  cbn [snd]. rewrite db_emit.
  unfold InsurancePortal.whenClaimOpen.
  rewrite Hc, (proj2 (truthyStr_true c) Hcne). split.
  - unfold insuranceUnverified.
    rewrite documents_remoteUpdateClaim, documents_remoteUpdateDocument, Hdr.
    eexists. split; [reflexivity|]. by destruct dr.
  - eexists. rewrite claims_remoteUpdateClaim, claims_remoteUpdateDocument, Hcr.
    split; [reflexivity|]. apply insurance_clear_patch.
Qed.

(** The rejection of a document in the insurance portal. *)
Lemma insurance_reject_clears (reason other : string) (s : Session) (w : World)
      (k c : string) (dr : DocRow) (cr : ClaimRow) :
  currentDocId s = Some k -> k <> "" -> currentClaim s = Some c -> c <> "" ->
  reason <> "" -> (reason = "others" -> trim other <> "") ->
  documents_table (db w) !! k = Some dr -> claims_table (db w) !! c = Some cr ->
  let w' := snd (InsurancePortal.confirmDocumentRejection reason other false s w) in
  insuranceUnverified (db w') k /\ insuranceApprovalCleared (db w') c.
Proof.
  intros Hk Hkne Hc Hcne Hr Ho Hdr Hcr.
  unfold InsurancePortal.confirmDocumentRejection.
  rewrite (proj2 (truthyStr_true reason) Hr). simpl negb. cbv iota.
  assert (Hgo : String.eqb reason "others" && negb (truthyStr (trim other)) = false).
  { destruct (String.eqb_spec reason "others") as [He|]; [|done].
    by rewrite (proj2 (truthyStr_true _) (Ho He)). }
  rewrite Hgo, Hk. simpl truthyS. rewrite (proj2 (truthyStr_true k) Hkne).
  simpl negb. cbv iota. simpl default. cbn [snd].
  unfold showSuccess. rewrite db_emit.
  unfold InsurancePortal.whenClaimOpen. cbn [InsurancePortal.setDocuments currentClaim].
  rewrite Hc, (proj2 (truthyStr_true c) Hcne). split.
  - unfold insuranceUnverified.
    rewrite documents_remoteUpdateClaim, documents_remoteUpdateDocument, Hdr.
    eexists. split; [reflexivity|]. by destruct dr.
  - eexists. rewrite claims_remoteUpdateClaim, claims_remoteUpdateDocument, Hcr.
    split; [reflexivity|]. apply insurance_clear_patch.
Qed.

End ApprovalCleared.

(** C3. Whenever a reviewer's handler sets a document of the open claim
    to unverified (the decision handler on a decision other than
    [verify], or the rejection of the document), it also sets that
    reviewer's approval flag of the claim to false and that reviewer's
    approval date to null. In both portals. *)
Theorem unverifying_clears_claim_approval
        (decision uid now reason other : string) (s : Data.Session) (w : Data.World)
        (k : string) (dr : Data.DocRow) (cr : Data.ClaimRow) :
  Data.currentDocId s = Some k -> k <> "" ->
  Data.documents_table (Data.db w) !! k = Some dr ->
  Data.currentClaim s = Some (Data.claim_id dr) -> Data.claim_id dr <> "" ->
  Data.claims_table (Data.db w) !! Data.claim_id dr = Some cr ->
  Data.currentClaimApproved s = false -> decision <> "verify" ->
  reason <> "" -> (reason = "others" -> JS.trim other <> "") ->
  let car1 := snd (CarPortal.handleDocumentDecision decision (Some uid) false now s w) in
  let car2 := snd (CarPortal.confirmDocumentRejection reason other false s w) in
  let ins1 := snd (InsurancePortal.handleDocumentDecision decision (Some uid) false now s w) in
  let ins2 := snd (InsurancePortal.confirmDocumentRejection reason other false s w) in
  (carUnverified (Data.db car1) k /\ carApprovalCleared (Data.db car1) (Data.claim_id dr))
  /\ (carUnverified (Data.db car2) k /\ carApprovalCleared (Data.db car2) (Data.claim_id dr))
  /\ (insuranceUnverified (Data.db ins1) k
      /\ insuranceApprovalCleared (Data.db ins1) (Data.claim_id dr))
  /\ (insuranceUnverified (Data.db ins2) k
      /\ insuranceApprovalCleared (Data.db ins2) (Data.claim_id dr)).
Proof.
  intros Hk Hkne Hdr Hc Hcne Hcr Happ Hdec Hr Ho. cbv zeta.
  split; [|split; [|split]].
  - by apply (car_unverify_clears decision uid now s w k _ dr cr).
  - by apply (car_reject_clears reason other s w k _ dr cr).
  - by apply (insurance_unverify_clears decision uid now s w k _ dr cr).
  - by apply (insurance_reject_clears reason other s w k _ dr cr).
Qed.

(** The approved claim [c1] is open and the viewer shows its document. *)
Definition reviewSession : Data.Session :=
  Data.mkSession (Some "c1") [Data.mkDocument "d1" verifiedDoc] false (Some "d1") true.

Lemma unverifying_clears_claim_approval_witness :
  carApprovalCleared
    (Data.db (snd (CarPortal.confirmDocumentRejection "document_expired" "" false
                     reviewSession (Data.mkWorld approvedDB [])))) "c1"
  /\ insuranceApprovalCleared
       (Data.db (snd (InsurancePortal.handleDocumentDecision "unverify" (Some "r2") false
                        "2025-02-01" reviewSession (Data.mkWorld approvedDB [])))) "c1".
Proof.
  destruct (unverifying_clears_claim_approval
              "unverify" "r2" "2025-02-01" "document_expired" ""
              reviewSession (Data.mkWorld approvedDB []) "d1" verifiedDoc approvedRow)
    as (_ & [_ Hcar] & [_ Hins] & _);
    try reflexivity; try discriminate.
  split; [exact Hcar | exact Hins].
Defined.

(** ** The consistency sweep of the car portal *)

Section Sweep.
Import JS Data CarPortal.

Lemma arrayIncludes_In (arr : list string) (x : string) :
  arrayIncludes arr x = true <-> In x arr.
Proof.
  unfold arrayIncludes. rewrite existsb_exists. split.
  - intros [y [Hy He]]. apply String.eqb_eq in He. by subst.
  - intros H. exists x. split; [done | apply String.eqb_refl].
Qed.

Lemma strictEq_true (o : option string) (x : string) : strictEq o x = true <-> o = Some x.
Proof.
  destruct o as [y|]; simpl; [|split; done].
  rewrite String.eqb_eq. split; congruence.
Qed.

Lemma isTrue_true (o : option bool) : isTrue o = true <-> o = Some true.
Proof. destruct o as [[]|]; simpl; split; congruence. Qed.

(** The loop pushes the ids of the claims that meet [shouldRevert], in
    order, and changes those claim objects only. *)
Lemma sweepLoop_spec (claims : list Claim) (acc : list string) :
  sweepLoop claims acc
  = ((acc ++ map id (List.filter shouldRevert claims))%list,
     map (fun c => if shouldRevert c then markPending c else c) claims).
Proof.
  revert acc. induction claims as [|c claims IH]; intros acc; simpl.
  - by rewrite app_nil_r.
  - destruct (shouldRevert c); rewrite IH; simpl; [|done].
    by rewrite <- app_assoc.
Qed.

(** What [shouldRevert] tests, in the words of the specification: the
    claim is flagged approved and one of its car-company documents is not
    verified by the car company. *)
Definition flaggedApproved (r : ClaimRow) : Prop :=
  car_company_status r = Some "approved" \/ is_approved_by_car_company r = Some true.

Definition hasUnverifiedCarDocument (docs : list Document) : Prop :=
  exists dc, In dc docs
             /\ In (type (doc dc)) CAR_COMPANY_DOCUMENT_TYPES
             /\ verified_by_car_company (doc dc) <> Some true.

Lemma hasUnverifiedDocs_spec (docs : list Document) :
  hasUnverifiedDocs docs = true <-> hasUnverifiedCarDocument docs.
Proof.
  unfold hasUnverifiedDocs, hasUnverifiedCarDocument. rewrite existsb_exists.
  split; intros [dc [Hin H]]; exists dc; (split; [done|]).
  - apply andb_true_iff in H as [Ht Hv]. split; [by apply arrayIncludes_In|].
    intros Hs. rewrite Hs in Hv. discriminate Hv.
  - destruct H as [Ht Hv]. apply andb_true_iff. split; [by apply arrayIncludes_In|].
    apply negb_true_iff. destruct (truthyB _) eqn:Hb; [|done].
    by apply truthyB_true in Hb.
Qed.

Lemma shouldRevert_joined (d : DB) (k : string) (r : ClaimRow) :
  shouldRevert (joinClaim d k r) = true
  <-> flaggedApproved r /\ hasUnverifiedCarDocument (documentsOf d k).
Proof.
  unfold shouldRevert, isApproved, flaggedApproved. simpl.
  by rewrite andb_true_iff, orb_true_iff, strictEq_true, isTrue_true, hasUnverifiedDocs_spec.
Qed.

Lemma in_selectClaims (d : DB) (c : Claim) :
  In c (selectClaims d)
  <-> exists k r, claims_table d !! k = Some r /\ c = joinClaim d k r.
Proof.
  unfold selectClaims. rewrite in_map_iff. split.
  - intros [[k r] [<- Hin]]. exists k, r. split; [|done].
    apply elem_of_map_to_list. by apply list_elem_of_In.
  - intros (k & r & Hk & ->). exists (k, r). split; [done|].
    apply list_elem_of_In. by apply elem_of_map_to_list.
Qed.

(** The ids the sweep of one list load sends to the remote update. *)
Definition revertedIds (d : DB) : list string :=
  map id (List.filter shouldRevert (selectClaims d)).

Lemma in_revertedIds (d : DB) (k : string) (r : ClaimRow) :
  claims_table d !! k = Some r ->
  (In k (revertedIds d) <-> shouldRevert (joinClaim d k r) = true).
Proof.
  intros Hk. unfold revertedIds. rewrite in_map_iff. split.
  - intros [c [Hid Hc]]. apply filter_In in Hc as [Hc Hs].
    apply in_selectClaims in Hc as (k' & r' & Hk' & ->). simpl in Hid. subst k'.
    rewrite Hk in Hk'. by injection Hk' as <-.
  - intros Hs. exists (joinClaim d k r). split; [done|]. apply filter_In.
    split; [|done]. apply in_selectClaims. by exists k, r.
Qed.

Lemma sweepDB_documents (d : DB) : documents_table (sweepDB d) = documents_table d.
Proof.
  unfold sweepDB, sweep.
  destruct (0 <? length (selectClaims d))%nat; [|done]. simpl.
  by destruct (0 <? length (fst (sweepLoop (selectClaims d) [])))%nat.
Qed.

(** Every row after the sweep, from the row before it. *)
Lemma sweepDB_lookup (d : DB) (k : string) :
  claims_table (sweepDB d) !! k
  = (fun r => if shouldRevert (joinClaim d k r) then patchClaim revertPatch r else r)
      <$> claims_table d !! k.
Proof.
  unfold sweepDB, sweep.
  destruct (0 <? length (selectClaims d))%nat eqn:Hlen.
  - cbn [snd]. rewrite sweepLoop_spec. cbn [fst app].
    fold (revertedIds d).
    destruct (0 <? length (revertedIds d))%nat eqn:Hids.
    + simpl. rewrite map_lookup_imap.
      destruct (claims_table d !! k) as [r|] eqn:Hk; [|done]. simpl. f_equal.
      pose proof (in_revertedIds d k r Hk) as Hin.
      rewrite <- arrayIncludes_In in Hin.
      destruct (arrayIncludes (revertedIds d) k), (shouldRevert (joinClaim d k r));
        try done; [by discriminate (proj1 Hin eq_refl) | by discriminate (proj2 Hin eq_refl)].
    + simpl. destruct (claims_table d !! k) as [r|] eqn:Hk; [|done]. simpl. f_equal.
      destruct (shouldRevert (joinClaim d k r)) eqn:Hs; [|done].
      apply (in_revertedIds d k r Hk) in Hs.
      destruct (revertedIds d); [destruct Hs | discriminate Hids].
  - simpl. destruct (claims_table d !! k) as [r|] eqn:Hk; [|done].
    assert (Hin : In (joinClaim d k r) (selectClaims d)).
    { apply in_selectClaims. by exists k, r. }
    destruct (selectClaims d); [destruct Hin | discriminate Hlen].
Qed.

Lemma revertPatch_fields (r : ClaimRow) :
  car_company_status (patchClaim revertPatch r) = Some "pending"
  /\ is_approved_by_car_company (patchClaim revertPatch r) = Some false
  /\ car_company_approval_date (patchClaim revertPatch r) = None.
Proof. by destruct r. Qed.

(** C2. The sweep of a list load reverts exactly the claims that are
    flagged approved ([car_company_status] is [approved] or
    [is_approved_by_car_company] is true) and have a car-company document
    that is not verified by the car company: the row of such a claim gets
    [car_company_status = pending], [is_approved_by_car_company = false]
    and [car_company_approval_date = null], and every other row is left as
    it was. The claim objects of the list get the same status and flag. *)
Theorem sweep_reverts_exactly (d : DB) (k : string) (r : ClaimRow) (w : World) :
  claims_table d !! k = Some r ->
  (flaggedApproved r /\ hasUnverifiedCarDocument (documentsOf d k) ->
   claims_table (sweepDB d) !! k = Some (patchClaim revertPatch r)
   /\ car_company_status (patchClaim revertPatch r) = Some "pending"
   /\ is_approved_by_car_company (patchClaim revertPatch r) = Some false
   /\ car_company_approval_date (patchClaim revertPatch r) = None
   /\ In (markPending (joinClaim d k r)) (fst (sweep (selectClaims d) w)))
  /\ (~ (flaggedApproved r /\ hasUnverifiedCarDocument (documentsOf d k)) ->
      claims_table (sweepDB d) !! k = Some r
      /\ In (joinClaim d k r) (fst (sweep (selectClaims d) w))).
Proof.
  intros Hk.
  assert (Hin : In (joinClaim d k r) (selectClaims d)).
  { apply in_selectClaims. by exists k, r. }
  assert (Hlocal : fst (sweep (selectClaims d) w)
                   = map (fun c => if shouldRevert c then markPending c else c)
                         (selectClaims d)).
  { unfold sweep. destruct (selectClaims d) as [|c0 l] eqn:Hsel; [done|].
    cbn [length Nat.ltb Nat.leb fst]. by rewrite sweepLoop_spec. }
  rewrite sweepDB_lookup, Hk, Hlocal. simpl. split.
  - intros Hs. apply shouldRevert_joined in Hs. rewrite Hs.
    split; [done|]. destruct (revertPatch_fields r) as (H1 & H2 & H3).
    repeat split; try done.
    apply in_map_iff. exists (joinClaim d k r). by rewrite Hs.
  - intros Hno.
    destruct (shouldRevert (joinClaim d k r)) eqn:Hs.
    { destruct Hno. by apply shouldRevert_joined. }
    split; [done|]. apply in_map_iff. exists (joinClaim d k r). by rewrite Hs.
Qed.

(** An approved claim whose receipt is no longer verified. *)
Definition staleDB : DB :=
  mkDB {[ "c1" := approvedRow ]}
       {[ "d1" := mkDocRow "c1" "lto_or" (Some false) (Some "document_expired") None None
                           None None None None ]}.

Lemma sweep_reverts_exactly_witness :
  claims_table (sweepDB staleDB) !! "c1" = Some (patchClaim revertPatch approvedRow)
  /\ car_company_status (patchClaim revertPatch approvedRow) = Some "pending".
Proof.
  destruct (proj1 (sweep_reverts_exactly staleDB "c1" approvedRow (mkWorld staleDB [])
                     eq_refl)) as (Hrow & Hstatus & _).
  - split.
    + left. reflexivity.
    + eexists. split; [left; reflexivity|]. split; [left; reflexivity | discriminate].
  - split; [exact Hrow | exact Hstatus].
Defined.

Lemma db_eq (d1 d2 : DB) :
  claims_table d1 = claims_table d2 -> documents_table d1 = documents_table d2 -> d1 = d2.
Proof. destruct d1, d2. simpl. by intros -> ->. Qed.

Lemma documentsOf_ext (d1 d2 : DB) (k : string) :
  documents_table d1 = documents_table d2 -> documentsOf d1 k = documentsOf d2 k.
Proof. unfold documentsOf. by intros ->. Qed.

Lemma shouldRevert_markPending (c : Claim) : shouldRevert (markPending c) = false.
Proof. unfold shouldRevert, isApproved, markPending. simpl. by destruct (row c). Qed.

Lemma shouldRevert_reverted (d : DB) (k : string) (r : ClaimRow) :
  shouldRevert (joinClaim d k (patchClaim revertPatch r)) = false.
Proof. unfold shouldRevert, isApproved, joinClaim. simpl. by destruct r. Qed.

(** After a sweep no row meets the condition any more. *)
Lemma swept_nothing_left (d : DB) (k : string) (r : ClaimRow) :
  claims_table (sweepDB d) !! k = Some r -> shouldRevert (joinClaim (sweepDB d) k r) = false.
Proof.
  rewrite sweepDB_lookup. destruct (claims_table d !! k) as [r0|]; [|done]. simpl.
  intros [= <-].
  assert (Hdocs : forall x, joinClaim (sweepDB d) k x = joinClaim d k x).
  { intros x. unfold joinClaim. by rewrite (documentsOf_ext _ d k (sweepDB_documents d)). }
  rewrite Hdocs. destruct (shouldRevert (joinClaim d k r0)) eqn:Hs; [|done].
  apply shouldRevert_reverted.
Qed.

(** C6. The sweep is idempotent: sweeping the tables twice gives the
    tables of one sweep, sweeping the claim objects twice gives the objects
    of one sweep and the second sweep issues no update; and the ids to
    revert are a function of the fetched claims alone: on the same claims
    they are the same ids, whatever the rest of the state. *)
Theorem sweep_idempotent (d : DB) (claims : list Claim) (w1 w2 : World) :
  sweepDB (sweepDB d) = sweepDB d
  /\ fst (sweep (fst (sweep claims w1)) w2) = fst (sweep claims w1)
  /\ snd (sweep (fst (sweep claims w1)) w2) = w2
  /\ revertedIds (sweepDB d) = []
  /\ fst (sweepLoop claims []) = map id (List.filter shouldRevert claims)
  /\ fst (sweep claims w1) = fst (sweep claims w2).
Proof.
  assert (Hlocal : forall w, fst (sweep claims w)
                             = map (fun c => if shouldRevert c then markPending c else c) claims).
  { intros w. unfold sweep. destruct claims as [|c0 l]; [done|].
    cbn [length Nat.ltb Nat.leb fst]. by rewrite sweepLoop_spec. }
  assert (Hclean : List.filter shouldRevert
                     (map (fun c => if shouldRevert c then markPending c else c) claims) = []).
  { induction claims as [|c l IH]; [done|]. simpl.
    assert (Hc : shouldRevert (if shouldRevert c then markPending c else c) = false).
    { destruct (shouldRevert c) eqn:Hs; [apply shouldRevert_markPending | done]. }
    rewrite Hc. apply IH. intros w. unfold sweep. destruct l; [done|].
    cbn [length Nat.ltb Nat.leb fst]. by rewrite sweepLoop_spec. }
  assert (Hids : revertedIds (sweepDB d) = []).
  { unfold revertedIds.
    destruct (List.filter shouldRevert (selectClaims (sweepDB d))) as [|c l] eqn:Hf; [done|].
    assert (Hc : In c (List.filter shouldRevert (selectClaims (sweepDB d))))
      by (rewrite Hf; by left).
    apply filter_In in Hc as [Hc Hs].
    apply in_selectClaims in Hc as (k & r & Hk & ->).
    rewrite (swept_nothing_left d k r Hk) in Hs. discriminate Hs. }
  split; [|split; [|split; [|split; [done | split]]]].
  - apply db_eq; [|by rewrite !sweepDB_documents].
    apply map_eq. intros k. rewrite (sweepDB_lookup (sweepDB d)).
    destruct (claims_table (sweepDB d) !! k) as [r|] eqn:Hk; [|done]. simpl.
    by rewrite (swept_nothing_left d k r Hk).
  - rewrite (Hlocal w1). unfold sweep.
    destruct (0 <? length _)%nat; [|done]. cbn [fst]. rewrite sweepLoop_spec. cbn [snd].
    rewrite map_map. apply map_ext. intros c.
    destruct (shouldRevert c) eqn:Hs; [by rewrite shouldRevert_markPending | by rewrite Hs].
  - rewrite (Hlocal w1). unfold sweep.
    destruct (0 <? length _)%nat; [|done]. cbn [snd]. rewrite sweepLoop_spec. cbn [fst].
    by rewrite Hclean.
  - by rewrite sweepLoop_spec.
  - by rewrite !Hlocal.
Qed.

(** The second scenario of the specification: the approved claim [c1] has
    its verified document rejected as expired; the rejection clears the
    approval flag and date, and the sweep of the next list load sets the
    status back to pending. *)
Example reject_then_reload :
  let afterReject :=
    db (snd (CarPortal.confirmDocumentRejection "document_expired" "" false
               reviewSession (mkWorld approvedDB []))) in
  (car_company_status <$> claims_table afterReject !! "c1") = Some (Some "approved")
  /\ (is_approved_by_car_company <$> claims_table afterReject !! "c1") = Some (Some false)
  /\ (car_company_approval_date <$> claims_table afterReject !! "c1") = Some None
  /\ (car_company_status <$> claims_table (sweepDB afterReject) !! "c1")
     = Some (Some "pending").
Proof. vm_compute. auto. Qed.

End Sweep.

(** ** The first scenario of the specification *)

Section Scenario.
Import JS Data.

Definition carDoc (c t : string) (v : bool) : DocRow :=
  mkDocRow c t (Some v) None None None None None None None.

Definition fourDocs : list Document :=
  [ mkDocument "d1" (carDoc "c1" "lto_or" true);
    mkDocument "d2" (carDoc "c1" "lto_cr" true);
    mkDocument "d3" (carDoc "c1" "drivers_license" true);
    mkDocument "d4" (carDoc "c1" "job_estimate" false) ].

Definition fourDocsDB : DB :=
  mkDB {[ "c1" := pendingRow ]}
       (list_to_map (map (fun d => (doc_id d, doc d)) fourDocs)).

Definition fourDocsSession : Session :=
  mkSession (Some "c1") fourDocs false (Some "d4") true.

Definition isNotification (e : Effect) : bool :=
  match e with SendNotification _ _ _ _ => true | _ => false end.

(** Three of four documents verified: Approve is disabled. Verifying the
    fourth enables it. Approving sets [car_company_status] to [approved]
    and sends one notification, to the owner of the claim. *)
Example approve_after_fourth_document :
  let before := CarPortal.setDecisionButtonsState (Some pendingRow) fourDocsSession in
  let verified :=
    CarPortal.handleDocumentDecision "verify" (Some "r1") false "2025-03-01"
      fourDocsSession (mkWorld fourDocsDB []) in
  let after :=
    CarPortal.setDecisionButtonsState (claims_table (db (snd verified)) !! "c1")
      (fst verified) in
  let approved :=
    CarPortal.decideClaim "approved" "" false "2025-03-01" (fst verified)
      (mkWorld (db (snd verified)) []) in
  CarPortal.approveDisabled before = true
  /\ CarPortal.approveDisabled after = false
  /\ (car_company_status <$> claims_table (db approved) !! "c1") = Some (Some "approved")
  /\ List.filter isNotification (effects approved)
     = [ SendNotification "u1" "Claim Approved"
           "Your claim CLM-1 has been approved by the Car Company." "approved" ].
Proof. vm_compute. auto. Qed.

End Scenario.

(** ** Role strings: the normalised string has the tokens of the input *)

Section RoleTokens.
Import JS.

Lemma dropWhile_suffix (f : ascii -> bool) (l : list ascii) :
  exists pre, l = (pre ++ dropWhile f l)%list.
Proof.
  induction l as [|c l [pre IH]]; simpl.
  - by exists [].
  - destruct (f c).
    + exists (c :: pre). simpl. by rewrite <- IH.
    + by exists [].
Qed.

(** The trimmed string is a piece of the string. *)
Lemma trimChars_infix (l : list ascii) :
  exists pre post, l = (pre ++ trimChars l ++ post)%list.
Proof.
  unfold trimChars.
  destruct (dropWhile_suffix isWhiteSpace l) as [pre Hpre].
  destruct (dropWhile_suffix isWhiteSpace (rev (dropWhile isWhiteSpace l))) as [q Hq].
  exists pre, (rev q). rewrite Hpre at 1. f_equal.
  rewrite <- (rev_involutive (dropWhile isWhiteSpace l)) at 1.
  rewrite Hq at 1. by rewrite rev_app_distr.
Qed.

Lemma includesChars_infix (t m pre post : list ascii) :
  includesChars t m = true -> includesChars t (pre ++ m ++ post) = true.
Proof.
  rewrite !includesChars_spec. intros [a [b ->]].
  exists (pre ++ a)%list, (b ++ post)%list. by rewrite <- !app_assoc.
Qed.

Lemma isPrefix_replaceRuns_back (cls : ascii -> bool) (r : ascii) (t s : list ascii) :
  forallb (fun c => negb (Ascii.eqb c r)) t = true ->
  isPrefix t (replaceRuns cls r false s) = true -> isPrefix t s = true.
Proof.
  revert s. induction t as [|a t IH]; intros s Hr; [done|].
  simpl in Hr. apply andb_true_iff in Hr as [Ha Ht].
  destruct s as [|x s]; [done|]. simpl. destruct (cls x); simpl.
  - intros H. apply andb_true_iff in H as [H _]. rewrite H in Ha. discriminate Ha.
  - intros H. apply andb_true_iff in H as [Hax H]. rewrite Hax. simpl. by apply IH.
Qed.

(** A token without the replacement character that occurs after the
    replacement occurred before it. *)
Lemma replaceRuns_back (cls : ascii -> bool) (r : ascii) (t s : list ascii) (b : bool) :
  t <> [] -> forallb (fun c => negb (Ascii.eqb c r)) t = true ->
  includesChars t (replaceRuns cls r b s) = true -> includesChars t s = true.
Proof.
  intros Hne Hr. revert b. induction s as [|x s IH]; intros b.
  - simpl. destruct t; [done | by rewrite orb_false_r].
  - cbn [replaceRuns includesChars]. destruct (cls x).
    + destruct b.
      * intros H. rewrite (IH true H). apply orb_true_r.
      * cbn [includesChars]. intros H. apply orb_true_iff in H as [H | H].
        -- destruct t as [|a t]; [done|]. simpl in H, Hr.
           apply andb_true_iff in H as [H _]. apply andb_true_iff in Hr as [Ha _].
           rewrite H in Ha. discriminate Ha.
        -- rewrite (IH true H). apply orb_true_r.
    + cbn [includesChars]. intros H. apply orb_true_iff in H as [H | H].
      * destruct t as [|a t]; [done|]. simpl in H, Hr.
        apply andb_true_iff in H as [Hax H]. apply andb_true_iff in Hr as [_ Ht].
        simpl. by rewrite Hax, (isPrefix_replaceRuns_back cls r t s Ht H).
      * rewrite (IH false H). apply orb_true_r.
Qed.

Lemma plainToken_no (t : string) (r : ascii) :
  plainToken t = true -> r = "_"%char \/ r = "-"%char ->
  forallb (fun c => negb (Ascii.eqb c r)) (chars t) = true.
Proof.
  unfold plainToken. intros H Hr. apply andb_true_iff in H as [_ H].
  rewrite forallb_forall in H. apply forallb_forall. intros c Hc. specialize (H c Hc).
  unfold isHyphen in H. destruct Hr as [-> | ->];
    destruct (isWhiteSpace c), (Ascii.eqb c "-"), (Ascii.eqb c "_"); done.
Qed.

Lemma bool_iff_eq (a b : bool) : (a = true -> b = true) -> (b = true -> a = true) -> a = b.
Proof. destruct a, b; intros H1 H2; try done; [symmetry; by apply H1 | by apply H2]. Qed.

(** The login normaliser's string has a plain token exactly when the
    lower-cased input has it. *)
Lemma includes_login_normalized_eq (role t : string) :
  plainToken t = true ->
  includes (replaceAll isSpaceOrHyphen "_" (toLowerCase (trim role))) t
  = includes (toLowerCase role) t.
Proof.
  intros Ht. apply bool_iff_eq; [|by apply includes_login_normalized].
  destruct (plainToken_parts t Ht) as (Hne & _).
  unfold includes, replaceAll, toLowerCase, trim. rewrite !chars_str. intros H.
  apply replaceRuns_back in H; [|done | by apply plainToken_no; auto].
  rewrite lower_trimChars in H.
  destruct (trimChars_infix (map lowerChar (chars role))) as [pre [post ->]].
  by apply includesChars_infix.
Qed.

Lemma includes_portal_normalized_eq (role t : string) :
  plainToken t = true ->
  includes (replaceAll isSpaceOrHyphen "_" (trim (toLowerCase role))) t
  = includes (toLowerCase role) t.
Proof.
  intros Ht. apply bool_iff_eq; [|by apply includes_portal_normalized].
  destruct (plainToken_parts t Ht) as (Hne & _).
  unfold includes, replaceAll, toLowerCase, trim. rewrite !chars_str. intros H.
  apply replaceRuns_back in H; [|done | by apply plainToken_no; auto].
  destruct (trimChars_infix (map lowerChar (chars role))) as [pre [post ->]].
  by apply includesChars_infix.
Qed.

Lemma includes_signup_normalized_eq (role t : string) :
  plainToken t = true ->
  includes (replaceAll isHyphen "-"
              (replaceAll isUnderscoreOrSpace "-" (toLowerCase (trim role)))) t
  = includes (toLowerCase role) t.
Proof.
  intros Ht. apply bool_iff_eq; [|by apply includes_signup_normalized].
  destruct (plainToken_parts t Ht) as (Hne & _).
  unfold includes, replaceAll, toLowerCase, trim. rewrite !chars_str. intros H.
  apply replaceRuns_back in H; [|done | by apply plainToken_no; auto].
  apply replaceRuns_back in H; [|done | by apply plainToken_no; auto].
  rewrite lower_trimChars in H.
  destruct (trimChars_infix (map lowerChar (chars role))) as [pre [post ->]].
  by apply includesChars_infix.
Qed.

(** No key of the login route table passes the three token tests
    unnoticed: where the tests fail, the table has no own property. *)
Lemma login_routes_unreached (n : string) :
  includes n "car" && includes n "company" = false ->
  includes n "insurance" && includes n "company" = false ->
  includes n "admin" = false ->
  ownProperty Login.ROLE_ROUTES n = None.
Proof.
  intros H1 H2 H3. unfold Login.ROLE_ROUTES. cbn [ownProperty].
  repeat (match goal with
          | |- context [String.eqb ?k n] =>
              destruct (String.eqb_spec k n) as [<- | _];
              [vm_compute in H1; vm_compute in H2; vm_compute in H3; congruence|]
          end).
  reflexivity.
Qed.

Lemma portal_routes_unreached (n : string) :
  includes n "car" && includes n "company" = false ->
  includes n "insurance" && includes n "company" = false ->
  ownProperty PortalRole.ROLE_ROUTES n = None.
Proof.
  intros H1 H2. unfold PortalRole.ROLE_ROUTES. cbn [ownProperty].
  repeat (match goal with
          | |- context [String.eqb ?k n] =>
              destruct (String.eqb_spec k n) as [<- | _];
              [vm_compute in H1; vm_compute in H2; congruence|]
          end).
  reflexivity.
Qed.

(** The token test on the lower-cased input. *)
Definition has (role t : string) : bool := includes (toLowerCase role) t.

(** X1. The login normaliser classifies a role string by the tokens of
    its lower-cased text, in this order: [car] and [company] give
    [car_company]; otherwise [insurance] and [company] give
    [insurance_company]; otherwise [admin] gives [admin]; otherwise the
    answer is null, unless the normalised string is a property name that
    the route table inherits. The own keys of the route table are never
    what decides. *)
Theorem login_normalizeRole_by_tokens (role : string) :
  Login.normalizeRole role
  = if has role "car" && has role "company" then Some "car_company"
    else if has role "insurance" && has role "company" then Some "insurance_company"
    else if has role "admin" then Some "admin"
    else let normalized := replaceAll isSpaceOrHyphen "_" (toLowerCase (trim role)) in
         if arrayIncludes objectPrototypeNames normalized then Some normalized else None.
Proof.
  unfold Login.normalizeRole, has.
  destruct (truthyStr role) eqn:Hrole; simpl negb; cbv iota.
  - rewrite !includes_login_normalized_eq by reflexivity.
    destruct (includes (toLowerCase role) "car" && includes (toLowerCase role) "company")
      eqn:H1; [done|].
    destruct (includes (toLowerCase role) "insurance" && includes (toLowerCase role) "company")
      eqn:H2; [done|].
    destruct (includes (toLowerCase role) "admin") eqn:H3; [done|].
    cbv zeta. unfold getProperty.
    rewrite login_routes_unreached;
      [| by rewrite !includes_login_normalized_eq
       | by rewrite !includes_login_normalized_eq
       | by rewrite !includes_login_normalized_eq ].
    by destruct (arrayIncludes objectPrototypeNames _).
  - apply truthyStr_false in Hrole. subst role. reflexivity.
Qed.

(** X2. The normaliser of the two portals classifies the same way, without
    the [admin] case: [car] and [company] give [car_company]; otherwise
    [insurance] and [company] give [insurance_company]; otherwise null,
    unless the normalised string is an inherited property name. *)
Theorem portal_normalizeRole_by_tokens (role : string) :
  PortalRole.normalizeRole role
  = if has role "car" && has role "company" then Some "car_company"
    else if has role "insurance" && has role "company" then Some "insurance_company"
    else let value := replaceAll isSpaceOrHyphen "_" (trim (toLowerCase role)) in
         if arrayIncludes objectPrototypeNames value then Some value else None.
Proof.
  unfold PortalRole.normalizeRole, has.
  destruct (truthyStr role) eqn:Hrole; simpl negb; cbv iota.
  - rewrite !includes_portal_normalized_eq by reflexivity.
    destruct (includes (toLowerCase role) "car" && includes (toLowerCase role) "company")
      eqn:H1; [done|].
    destruct (includes (toLowerCase role) "insurance" && includes (toLowerCase role) "company")
      eqn:H2; [done|].
    cbv zeta. unfold getProperty.
    rewrite portal_routes_unreached;
      [| by rewrite !includes_portal_normalized_eq
       | by rewrite !includes_portal_normalized_eq ].
    by destruct (arrayIncludes objectPrototypeNames _).
  - apply truthyStr_false in Hrole. subst role. reflexivity.
Qed.

End RoleTokens.

(** ** Login page: which role is resolved and where the page goes *)

Section LoginFacts.
Import JS LoginPage.

(** A role the login normaliser returns is not empty and has a route. *)
Lemma login_role_has_route (c x : string) :
  Login.normalizeRole c = Some x ->
  truthyStr x = true /\ truthy (getProperty Login.ROLE_ROUTES x) = true.
Proof.
  unfold Login.normalizeRole.
  repeat (match goal with |- context [if ?b then _ else _] => destruct b eqn:? end);
    intros [= <-]; try (split; reflexivity).
  split; [|done].
  destruct (replaceAll isSpaceOrHyphen "_" (toLowerCase (trim c))); [discriminate | done].
Qed.

Lemma firstRole_app (n : string -> option string) (l1 l2 : list string) :
  firstRole n (l1 ++ l2)
  = if truthyS (firstRole n l1) then firstRole n l1 else firstRole n l2.
Proof.
  induction l1 as [|c l1 IH]; simpl; [done|].
  destruct (truthyS (n c)) eqn:Hc; [by rewrite Hc | done].
Qed.

Lemma firstRole_Some (n : string -> option string) (cs : list string) (r : string) :
  firstRole n cs = Some r -> exists c, In c cs /\ n c = Some r.
Proof.
  induction cs as [|c cs IH]; simpl; [done|].
  destruct (truthyS (n c)).
  - intros H. exists c. auto.
  - intros H. destruct (IH H) as [c' [Hin Hc']]. exists c'. auto.
Qed.

Lemma lookupLoop_Some (profiles : Profiles) (sources : list string) (r : string) :
  fst (lookupLoop profiles sources) = Some r ->
  exists t v, In t sources /\ profiles t = Some v /\ Login.normalizeRole v = Some r.
Proof.
  induction sources as [|t sources IH]; simpl; [done|].
  destruct (truthyS (attemptRoleLookup profiles t)) eqn:Ht; simpl.
  - unfold attemptRoleLookup. destruct (profiles t) as [v|] eqn:Hv; [|done].
    intros H. exists t, v. auto.
  - intros H. destruct (IH H) as (t' & v & Hin & Hv & Hn). exists t', v. auto.
Qed.

(** Every role the resolver returns comes out of the normaliser. *)
Lemma resolveUserRole_normalized (user : option User) (profiles : Profiles) (r : string) :
  fst (resolveUserRole user profiles) = Some r ->
  exists c, Login.normalizeRole c = Some r.
Proof.
  unfold resolveUserRole, extractRoleFromMetadata. destruct user as [u|]; [|done].
  destruct (truthyS (firstRole Login.normalizeRole (candidates u))) eqn:Hm; cbn [fst].
  - intros H. destruct (firstRole_Some _ _ _ H) as [c [_ Hc]]. by exists c.
  - intros H. destruct (lookupLoop_Some _ _ _ H) as (t & v & _ & _ & Hn). by exists v.
Qed.

(** X3. A role found in [app_metadata] decides: the resolver returns it,
    asks no profile table, and nothing in [user_metadata] or in the tables
    changes the answer. *)
Theorem app_metadata_role_wins (u : User) (profiles : Profiles) (r : string) :
  firstRole Login.normalizeRole (candidatesOf (app_metadata u)) = Some r ->
  resolveUserRole (Some u) profiles = (Some r, []).
Proof.
  intros H. unfold resolveUserRole, extractRoleFromMetadata, candidates.
  rewrite firstRole_app, H.
  destruct (firstRole_Some _ _ _ H) as [c [_ Hc]].
  destruct (login_role_has_route c r Hc) as [Hr _].
  cbn [truthyS]. rewrite Hr. cbn [truthyS]. by rewrite Hr.
Qed.

(** An insurer according to [app_metadata] who calls himself an
    administrator in [user_metadata] and in the profile tables. *)
Definition insurerUser : User :=
  mkUser "u7" (mkMetadata None (Some "Insurance-Company") None None)
              (mkMetadata (Some "admin") None None (Some ["admin"])).

Lemma app_metadata_role_wins_witness :
  resolveUserRole (Some insurerUser) (fun _ => Some "admin")
  = (Some "insurance_company", []).
Proof. apply (app_metadata_role_wins insurerUser (fun _ => Some "admin")). reflexivity. Defined.

Definition isReplace (e : Effect) : bool :=
  match e with Replace _ => true | _ => false end.

Definition replaces (p : Page) : nat := length (List.filter isReplace (log p)).

(** What happens on the login page: the form is submitted, or the session
    is found or changes and the page follows it silently. *)
Inductive Event :=
| Submit (email password : option string) (answer : SignInResult) (profiles : Profiles)
| SessionUser (user : User) (profiles : Profiles).

Definition step (p : Page) (e : Event) : Page :=
  match e with
  | Submit email password answer profiles => handleLogin email password answer profiles p
  | SessionUser user profiles => redirectForUser (Some user) true profiles p
  end.

(** The page has left once exactly when the flag is set. *)
Definition leftOnce (p : Page) : Prop :=
  replaces p = if isRedirecting p then 1 else 0.

Lemma leftOnce_say (es : list Effect) (p : Page) :
  forallb (fun e => negb (isReplace e)) es = true -> leftOnce p -> leftOnce (say es p).
Proof.
  unfold leftOnce, replaces, say. simpl. intros Hes H.
  rewrite List.filter_app, length_app, H.
  assert (Hnone : List.filter isReplace es = []).
  { induction es as [|e es IH]; [done|]. simpl in *.
    apply andb_true_iff in Hes as [He Hes]. apply negb_true_iff in He. rewrite He. auto. }
  rewrite Hnone. simpl. lia.
Qed.

Lemma leftOnce_redirectTo (path : PropertyValue) (p : Page) :
  leftOnce p -> leftOnce (redirectTo path p).
Proof.
  unfold leftOnce, replaces, redirectTo. intros H.
  destruct (truthy path); simpl; [|done].
  destruct (isRedirecting p) eqn:Hr; simpl; [by rewrite Hr|].
  rewrite List.filter_app, length_app, H. reflexivity.
Qed.

Lemma leftOnce_redirectForUser (user : option User) (silent : bool) (profiles : Profiles)
      (p : Page) :
  leftOnce p -> leftOnce (redirectForUser user silent profiles p).
Proof.
  intros H. unfold redirectForUser.
  repeat (match goal with |- context [if ?b then _ else _] => destruct b end);
    try done; try (by apply leftOnce_say); by apply leftOnce_redirectTo.
Qed.

Lemma leftOnce_handleLogin (email password : option string) (answer : SignInResult)
      (profiles : Profiles) (p : Page) :
  leftOnce p -> leftOnce (handleLogin email password answer profiles p).
Proof.
  intros H. unfold handleLogin.
  destruct (negb (truthyS (option_map trim email)) || negb (truthyS password));
    [by apply leftOnce_say|].
  destruct answer as [message | [u|] [u'|]];
    repeat first [ apply leftOnce_redirectForUser | apply leftOnce_say; [reflexivity|] ];
    done.
Qed.

(** X4. Whatever happens on the login page, in whatever order, the page
    is replaced at most once: after the first redirect [isRedirecting]
    stays set and no later redirect is issued. *)
Theorem login_redirects_once (events : list Event) :
  let p := fold_left step events (mkPage false []) in
  replaces p = (if isRedirecting p then 1 else 0) /\ replaces p <= 1.
Proof.
  cbv zeta.
  assert (H : leftOnce (fold_left step events (mkPage false []))).
  { assert (H0 : leftOnce (mkPage false [])) by reflexivity.
    revert H0. generalize (mkPage false []).
    induction events as [|e events IH]; intros p Hp; [done|]. simpl. apply IH.
    destruct e; cbn [step]; [by apply leftOnce_handleLogin | by apply leftOnce_redirectForUser]. }
  split; [exact H|]. unfold leftOnce in H. rewrite H. destruct (isRedirecting _); lia.
Qed.

(** The three things [redirectForUser] can do. *)
Lemma redirectForUser_cases
        (user : option User) (silent : bool) (profiles : Profiles) (p : Page) :
  ((silent = true \/ isRedirecting p = true)
   /\ redirectForUser user silent profiles p = p)
  \/ redirectForUser user silent profiles p
     = say [ ShowMessage "Your account does not have a portal role assigned. Please contact the InsureVis support team to request access." "error";
             SetLoading false ] p
  \/ exists r, fst (resolveUserRole user profiles) = Some r
               /\ truthy (getProperty Login.ROLE_ROUTES r) = true
               /\ redirectForUser user silent profiles p
                  = mkPage true (log p ++ [Replace (getProperty Login.ROLE_ROUTES r)])%list.
Proof.
  unfold redirectForUser.
  destruct (fst (resolveUserRole user profiles)) as [r|] eqn:Hr.
  - destruct (resolveUserRole_normalized _ _ _ Hr) as [c Hc].
    destruct (login_role_has_route c r Hc) as [Hne Hroute].
    simpl. rewrite Hne, Hroute. simpl. unfold redirectTo. rewrite Hroute. simpl.
    destruct (isRedirecting p); [left; auto|]. right. right. by exists r.
  - simpl. destruct silent; auto.
Qed.

(** X5. Every role the resolver returns has a route, so
    [redirectForUser] never reports an unsupported role: it adds the
    no-role message (and resets the loading state), or one redirect to a
    destination read from the route table, or nothing. *)
Theorem login_never_unsupported_role
        (user : option User) (silent : bool) (profiles : Profiles) (p : Page) :
  redirectForUser user silent profiles p = p
  \/ redirectForUser user silent profiles p
     = say [ ShowMessage "Your account does not have a portal role assigned. Please contact the InsureVis support team to request access." "error";
             SetLoading false ] p
  \/ exists r, fst (resolveUserRole user profiles) = Some r
               /\ truthy (getProperty Login.ROLE_ROUTES r) = true
               /\ redirectForUser user silent profiles p
                  = mkPage true (log p ++ [Replace (getProperty Login.ROLE_ROUTES r)])%list.
Proof.
  destruct (redirectForUser_cases user silent profiles p) as [[_ H] | [H | H]]; auto.
Qed.

(** The form is filled in: the trimmed email and the password are not
    empty. *)
Definition credentialsGiven (email password : option string) : Prop :=
  (exists e, email = Some e /\ trim e <> "")
  /\ exists pw, password = Some pw /\ pw <> "".

Definition isSignIn (e : Effect) : bool :=
  match e with SignIn _ _ => true | _ => false end.

Lemma last_app_one {A : Type} (l : list A) (x d : A) : List.last (l ++ [x]) d = x.
Proof. induction l as [|a l IH]; [done|]. simpl. destruct (l ++ [x])%list eqn:E; [by destruct l|]. done. Qed.

Lemma last_app_two {A : Type} (l : list A) (x y d : A) : List.last (l ++ [x; y]) d = y.
Proof. change [x; y] with ([x] ++ [y])%list. rewrite app_assoc. apply last_app_one. Qed.

(** X6. Signing in: without an email (after trimming) or without a
    password the handler shows one error and sends nothing. With both, it
    sends one sign-in request with the trimmed email; after the request the
    last thing the page does is to reset the loading state or to leave for
    a portal, unless the page was leaving already. *)
Theorem login_requires_credentials
        (email password : option string) (answer : SignInResult) (profiles : Profiles)
        (b : bool) :
  let p := handleLogin email password answer profiles (mkPage b []) in
  (~ credentialsGiven email password ->
   p = mkPage b [ ShowMessage "Enter your email address and password to continue." "error" ])
  /\ (credentialsGiven email password ->
      List.filter isSignIn (log p)
      = [ SignIn (trim (default "" email)) (default "" password) ]
      /\ (b = true
          \/ List.last (log p) GetUser = SetLoading false
          \/ exists path, List.last (log p) GetUser = Replace path)).
Proof.
  cbv zeta. unfold handleLogin. split.
  - intros Hno.
    destruct (negb (truthyS (option_map trim email)) || negb (truthyS password)) eqn:Hc;
      [done|].
    destruct Hno. apply orb_false_iff in Hc as [He Hp].
    apply negb_false_iff in He. apply negb_false_iff in Hp.
    destruct email as [e|]; [|done]. destruct password as [pw|]; [|done].
    split; [exists e | exists pw]; (split; [done|]); by apply truthyStr_true.
  - intros [[e [-> He]] [pw [-> Hp]]]. simpl option_map. cbn [truthyS].
    rewrite (proj2 (truthyStr_true _) He), (proj2 (truthyStr_true _) Hp).
    cbn [negb orb default].
    set (p1 := say _ (mkPage b [])).
    assert (H1 : List.filter isSignIn (log p1) = [SignIn (trim e) pw]) by reflexivity.
    assert (Hredirect : forall u q,
               List.filter isSignIn (log q) = [SignIn (trim e) pw] ->
               isRedirecting q = b ->
               List.filter isSignIn (log (redirectForUser (Some u) false profiles q))
               = [SignIn (trim e) pw]
               /\ (b = true
                   \/ List.last (log (redirectForUser (Some u) false profiles q)) GetUser
                      = SetLoading false
                   \/ exists path,
                       List.last (log (redirectForUser (Some u) false profiles q)) GetUser
                       = Replace path)).
    { intros u q Hq Hb.
      destruct (redirectForUser_cases (Some u) false profiles q)
        as [[[Hs | Hrd] Hsame] | [Hmsg | (r & Hr & Hroute & Hgo)]].
      - discriminate Hs.
      - rewrite Hsame. split; [done|]. left. by rewrite <- Hb.
      - rewrite Hmsg. unfold say. cbn [log]. rewrite List.filter_app, Hq. split; [done|].
        right. left. apply last_app_two.
      - rewrite Hgo. cbn [log]. rewrite List.filter_app, Hq. split; [done|].
        right. right. eexists. apply last_app_one. }
    destruct answer as [message | [u|] [u'|]].
    + split; [by unfold say; cbn [log]; rewrite List.filter_app, H1|].
      right. left. unfold say. cbn [log]. apply last_app_two.
    + by apply Hredirect.
    + by apply Hredirect.
    + apply Hredirect; [|done]. unfold say. cbn [log]. by rewrite List.filter_app, H1.
    + split; [unfold say; cbn [log]; by rewrite !List.filter_app, H1|].
      right. left. unfold say. cbn [log]. apply last_app_two.
Qed.

Lemma login_requires_credentials_witness :
  handleLogin (Some "   ") (Some "secret") (SignInError "") (fun _ => None) (mkPage false [])
  = mkPage false [ ShowMessage "Enter your email address and password to continue." "error" ].
Proof.
  apply (proj1 (login_requires_credentials (Some "   ") (Some "secret") (SignInError "")
                  (fun _ => None) false)).
  intros [[e [He Hne]] _]. injection He as <-. by apply Hne.
Defined.

End LoginFacts.

(** ** Portals: who gets in *)

Section PortalBootFacts.
Import JS.

(** The normaliser of the portals answers [car_company] only for a string
    with the tokens [car] and [company], and [insurance_company] only for
    a string with [insurance] and [company] that lacks one of [car] and
    [company]. *)
Lemma portal_car_company_tokens (c : string) :
  PortalRole.normalizeRole c = Some "car_company" ->
  has c "car" = true /\ has c "company" = true.
Proof.
  unfold PortalRole.normalizeRole, has.
  destruct (truthyStr c); simpl negb; cbv iota; [|done].
  rewrite !includes_portal_normalized_eq by reflexivity.
  destruct (includes (toLowerCase c) "car") eqn:H1,
           (includes (toLowerCase c) "company") eqn:H2; simpl; try done;
    destruct (includes (toLowerCase c) "insurance"); simpl; try done;
    destruct (truthy _) eqn:Ht; try done; intros [= Hv];
    pose proof (includes_portal_normalized_eq c "car" eq_refl) as E1;
    pose proof (includes_portal_normalized_eq c "company" eq_refl) as E2;
    rewrite Hv in E1, E2; rewrite H1 in E1; rewrite H2 in E2;
    first [discriminate E1 | discriminate E2].
Qed.

Lemma portal_insurance_company_tokens (c : string) :
  PortalRole.normalizeRole c = Some "insurance_company" ->
  has c "insurance" = true /\ has c "company" = true /\ has c "car" = false.
Proof.
  unfold PortalRole.normalizeRole, has.
  destruct (truthyStr c); simpl negb; cbv iota; [|done].
  rewrite !includes_portal_normalized_eq by reflexivity.
  destruct (includes (toLowerCase c) "car") eqn:H1,
           (includes (toLowerCase c) "company") eqn:H2; simpl; try done;
    destruct (includes (toLowerCase c) "insurance") eqn:H3; simpl; try done;
    destruct (truthy _) eqn:Ht; try done; intros [= Hv];
    pose proof (includes_portal_normalized_eq c "insurance" eq_refl) as E1;
    pose proof (includes_portal_normalized_eq c "company" eq_refl) as E2;
    rewrite Hv in E1, E2; rewrite H3 in E1; rewrite H2 in E2;
    first [discriminate E1 | discriminate E2].
Qed.

(** A role source of a user: a candidate of the metadata or the role of a
    row in one of the profile tables. *)
Definition roleSource (u : LoginPage.User) (profiles : LoginPage.Profiles) (c : string)
  : Prop :=
  In c (PortalBoot.candidates u)
  \/ exists t, In t PortalBoot.fallbackSources /\ profiles t = Some c.

Lemma portal_lookupLoop_Some (profiles : LoginPage.Profiles) (sources : list string)
      (r : string) :
  PortalBoot.lookupLoop profiles sources = Some r ->
  exists t c, In t sources /\ profiles t = Some c /\ PortalRole.normalizeRole c = Some r.
Proof.
  induction sources as [|t sources IH]; cbn [PortalBoot.lookupLoop]; [done|].
  assert (Htail : PortalBoot.lookupLoop profiles sources = Some r ->
                  exists t0 c, In t0 (t :: sources) /\ profiles t0 = Some c
                               /\ PortalRole.normalizeRole c = Some r).
  { intros H. destruct (IH H) as (t' & c & Hin & Hc & Hr).
    exists t', c. split; [by right | done]. }
  destruct (profiles t) as [v|] eqn:Hv; cbn [truthyS default from_option id]; [|done].
  destruct (truthyStr v); cbn [truthyS]; [|done].
  destruct (truthyS (PortalRole.normalizeRole v)) eqn:Hx; [|done].
  intros H. exists t, v. split; [by left | done].
Qed.

Lemma portal_resolve_source (u : LoginPage.User) (profiles : LoginPage.Profiles) (r : string) :
  PortalBoot.resolveUserRole u profiles = Some r ->
  exists c, roleSource u profiles c /\ PortalRole.normalizeRole c = Some r.
Proof.
  unfold PortalBoot.resolveUserRole, PortalBoot.extractRoleFromMetadata.
  destruct (truthyS (LoginPage.firstRole PortalRole.normalizeRole (PortalBoot.candidates u))).
  - intros H. destruct (firstRole_Some _ _ _ H) as [c [Hin Hc]].
    exists c. split; [by left | done].
  - intros H. destruct (portal_lookupLoop_Some _ _ _ H) as (t & c & Hin & Hc & Hr).
    exists c. split; [right; by exists t | done].
Qed.

(** X7. A portal starts only for its own role, and the role has to be
    written in one of the user's role sources: the car portal starts only
    if a source has the tokens [car] and [company], the insurance portal
    only if a source has [insurance] and [company] and not [car]. Without
    a session, or with a user for whom no role is found, the portal sends
    the browser to the login page; a user of the other portal is sent
    there. *)
Theorem portal_starts_only_for_own_role
        (u : LoginPage.User) (profiles : LoginPage.Profiles) (ownRole : string) :
  (PortalBoot.bootstrapPortal "car_company" (Some u) profiles = PortalBoot.InitializeApp ->
   exists c, roleSource u profiles c /\ has c "car" = true /\ has c "company" = true)
  /\ (PortalBoot.bootstrapPortal "insurance_company" (Some u) profiles
      = PortalBoot.InitializeApp ->
      exists c, roleSource u profiles c
                /\ has c "insurance" = true /\ has c "company" = true /\ has c "car" = false)
  /\ PortalBoot.bootstrapPortal ownRole None profiles = PortalBoot.RedirectTo (OwnString "/")
  /\ (PortalBoot.resolveUserRole u profiles = None ->
      PortalBoot.bootstrapPortal ownRole (Some u) profiles
      = PortalBoot.RedirectTo (OwnString "/"))
  /\ (PortalBoot.resolveUserRole u profiles = Some "insurance_company" ->
      PortalBoot.bootstrapPortal "car_company" (Some u) profiles
      = PortalBoot.RedirectTo (OwnString "/insurance-company/"))
  /\ (PortalBoot.resolveUserRole u profiles = Some "car_company" ->
      PortalBoot.bootstrapPortal "insurance_company" (Some u) profiles
      = PortalBoot.RedirectTo (OwnString "/car-company/")).
Proof.
  assert (Hstart : forall own,
             PortalBoot.bootstrapPortal own (Some u) profiles = PortalBoot.InitializeApp ->
             PortalBoot.resolveUserRole u profiles = Some own).
  { intros own. unfold PortalBoot.bootstrapPortal.
    destruct (strictEq (PortalBoot.resolveUserRole u profiles) own) eqn:He; [|done].
    intros _. by apply strictEq_true. }
  split; [|split; [|split; [done | split; [|split]]]].
  - intros H. apply Hstart in H. destruct (portal_resolve_source _ _ _ H) as [c [Hs Hn]].
    exists c. split; [done|]. by apply portal_car_company_tokens.
  - intros H. apply Hstart in H. destruct (portal_resolve_source _ _ _ H) as [c [Hs Hn]].
    exists c. split; [done|]. by apply portal_insurance_company_tokens.
  - intros H. unfold PortalBoot.bootstrapPortal. by rewrite H.
  - intros H. unfold PortalBoot.bootstrapPortal. by rewrite H.
  - intros H. unfold PortalBoot.bootstrapPortal. by rewrite H.
Qed.

End PortalBootFacts.

(** ** The list load of the car portal: migration, then sweep *)

Section CarLoadFacts.
Import JS Data.

Lemma NoDup_filter_keys {A : Type} (f : string * A -> bool) (l : list (string * A)) :
  NoDup (map fst l) -> NoDup (map fst (List.filter f l)).
Proof.
  induction l as [|x l IH]; simpl; [done|].
  rewrite !NoDup_cons. intros [Hx Hl]. destruct (f x); simpl; [|by apply IH].
  apply NoDup_cons. split; [|by apply IH].
  intros Hin. apply Hx. apply list_elem_of_In in Hin. apply list_elem_of_In.
  apply in_map_iff in Hin as [y [Hy Hin]]. apply filter_In in Hin as [Hin _].
  apply in_map_iff. by exists y.
Qed.

(** A run of updates, one per selected row, each computed from the row as
    it was selected: a selected row gets its update, the others stay. *)
Lemma updates_lookup (P : ClaimRow -> list ClaimAssign) (l : list (string * ClaimRow))
      (w : World) (k : string) :
  NoDup (map fst l) ->
  let w' := fold_left (fun w kr => remoteUpdateClaim (fst kr) (P (snd kr)) w) l w in
  (forall r0, In (k, r0) l ->
              claims_table (db w') !! k = patchClaim (P r0) <$> claims_table (db w) !! k)
  /\ ((forall r0, ~ In (k, r0) l) -> claims_table (db w') !! k = claims_table (db w) !! k)
  /\ documents_table (db w') = documents_table (db w).
Proof.
  revert w. induction l as [|[k1 r1] l IH]; intros w Hnd; cbn [fold_left]; cbv zeta.
  - split; [intros r0 []|]. done.
  - simpl in Hnd. apply NoDup_cons in Hnd as [Hk1 Hnd].
    destruct (IH (remoteUpdateClaim k1 (P r1) w) Hnd) as (Hin & Hout & Hdocs).
    cbn [fst snd]. split; [|split].
    + intros r0 [[= -> ->] | Hr0].
      * rewrite Hout; [apply claims_remoteUpdateClaim|].
        intros r' Hr'. apply Hk1. apply list_elem_of_In. apply in_map_iff.
        by exists (k, r').
      * rewrite (Hin r0 Hr0). simpl. rewrite lookup_alter_ne; [done|].
        intros ->. apply Hk1. apply list_elem_of_In. apply in_map_iff. by exists (k, r0).
    + intros Hno. rewrite Hout.
      * simpl. rewrite lookup_alter_ne; [done|]. intros ->. apply (Hno r1). by left.
      * intros r0 Hr0. apply (Hno r0). by right.
    + by rewrite Hdocs.
Qed.

Lemma in_selected (f : ClaimRow -> bool) (m : gmap string ClaimRow) (k : string) (r : ClaimRow) :
  In (k, r) (List.filter (fun kr => f (snd kr)) (map_to_list m))
  <-> m !! k = Some r /\ f r = true.
Proof.
  rewrite filter_In. simpl. rewrite <- list_elem_of_In, elem_of_map_to_list. tauto.
Qed.

(** A row after the migration of the car portal. *)
Definition carMigrated (r : ClaimRow) : ClaimRow :=
  if CarLoad.needsMigration r
  then patchClaim [ set_car_company_status (Some (CarLoad.newStatus r)) ] r
  else r.

Definition carMigrateDB (d : DB) : DB := db (CarLoad.migrate (mkWorld d [])).

Lemma selected_lookup (f : ClaimRow -> bool) (P : ClaimRow -> list ClaimAssign)
      (w : World) (k : string) :
  let l := List.filter (fun kr => f (snd kr)) (map_to_list (claims_table (db w))) in
  let w' := fold_left (fun w kr => remoteUpdateClaim (fst kr) (P (snd kr)) w) l w in
  claims_table (db w') !! k
  = (fun r => if f r then patchClaim (P r) r else r) <$> claims_table (db w) !! k
  /\ documents_table (db w') = documents_table (db w).
Proof.
  cbv zeta.
  destruct (updates_lookup P
              (List.filter (fun kr => f (snd kr)) (map_to_list (claims_table (db w)))) w k)
    as (Hin & Hout & Hdocs).
  { apply NoDup_filter_keys. apply NoDup_fst_map_to_list. }
  split; [|exact Hdocs].
  destruct (claims_table (db w) !! k) as [r|] eqn:Hk.
  - destruct (f r) eqn:Hf.
    + rewrite (Hin r); [simpl; by rewrite Hf | by apply in_selected].
    + rewrite Hout; [simpl; by rewrite Hf|]. intros r0 Hr0.
      apply in_selected in Hr0 as [Hr0 Hf0].
      rewrite Hk in Hr0. injection Hr0 as <-. congruence.
  - rewrite Hout; [done|]. intros r0 Hr0. apply in_selected in Hr0 as [Hr0 _].
    rewrite Hk in Hr0. discriminate Hr0.
Qed.

Lemma carMigrateDB_lookup (d : DB) (k : string) :
  claims_table (carMigrateDB d) !! k = carMigrated <$> claims_table d !! k.
Proof.
  exact (proj1 (selected_lookup CarLoad.needsMigration
                  (fun r => [ set_car_company_status (Some (CarLoad.newStatus r)) ])
                  (mkWorld d []) k)).
Qed.

Lemma carMigrateDB_documents (d : DB) :
  documents_table (carMigrateDB d) = documents_table d.
Proof.
  exact (proj2 (selected_lookup CarLoad.needsMigration
                  (fun r => [ set_car_company_status (Some (CarLoad.newStatus r)) ])
                  (mkWorld d []) "")).
Qed.

Lemma carMigrated_fields (r : ClaimRow) :
  is_approved_by_car_company (carMigrated r) = is_approved_by_car_company r
  /\ car_company_approval_notes (carMigrated r) = car_company_approval_notes r
  /\ car_company_status (carMigrated r)
     = if CarLoad.needsMigration r then Some (CarLoad.newStatus r) else car_company_status r.
Proof. unfold carMigrated. destruct (CarLoad.needsMigration r); by destruct r. Qed.

Lemma carMigrated_twice (r : ClaimRow) : carMigrated (carMigrated r) = carMigrated r.
Proof.
  unfold carMigrated at 2 3. destruct (CarLoad.needsMigration r) eqn:Hn.
  - destruct r as [u n s cs ac ad an ai id_ in_ aa ra].
    by destruct ac as [[]|], an as [[|c an]|].
  - unfold carMigrated. by rewrite Hn.
Qed.

(** X8. The migration at the head of the list load rewrites
    [car_company_status], and nothing else, of exactly the claims whose
    status is null or [pending]: [approved] when the approval flag is
    true, [rejected] when the flag is false and there are approval notes,
    [pending] otherwise. It leaves the documents alone, and running it a
    second time changes nothing. *)
Theorem car_migration_idempotent (d : DB) :
  (forall k, claims_table (carMigrateDB d) !! k = carMigrated <$> claims_table d !! k)
  /\ documents_table (carMigrateDB d) = documents_table d
  /\ carMigrateDB (carMigrateDB d) = carMigrateDB d.
Proof.
  split; [apply carMigrateDB_lookup | split; [apply carMigrateDB_documents|]].
  apply db_eq; [|by rewrite !carMigrateDB_documents].
  apply map_eq. intros k. rewrite !carMigrateDB_lookup.
  destruct (claims_table d !! k) as [r|]; [|done]. simpl. by rewrite carMigrated_twice.
Qed.

Lemma sweep_db (claims : list Claim) (w : World) :
  db (snd (CarPortal.sweep claims w)) = db (snd (CarPortal.sweep claims (mkWorld (db w) []))).
Proof.
  unfold CarPortal.sweep. destruct (0 <? length claims)%nat; [|done]. cbn [snd].
  by destruct (0 <? length (fst (CarPortal.sweepLoop claims [])))%nat.
Qed.

Lemma loadClaimsDB_sweep (d : DB) :
  CarLoad.loadClaimsDB d = CarPortal.sweepDB (carMigrateDB d).
Proof.
  unfold CarLoad.loadClaimsDB, CarLoad.loadClaims. cbn [snd]. by rewrite sweep_db.
Qed.

Lemma loadClaimsDB_documents (d : DB) :
  documents_table (CarLoad.loadClaimsDB d) = documents_table d.
Proof. by rewrite loadClaimsDB_sweep, sweepDB_documents, carMigrateDB_documents. Qed.

(** X9. After a list load of the car portal no claim is left flagged
    approved ([car_company_status] is [approved] or the approval flag is
    true) while one of its car-company documents is not verified: every
    car-company document of a claim that is still flagged approved is
    verified by the car company. The load changes no document. *)
Theorem car_load_restores_invariant (d : DB) (k : string) (r : ClaimRow) (dc : Document) :
  claims_table (CarLoad.loadClaimsDB d) !! k = Some r ->
  flaggedApproved r ->
  In dc (documentsOf d k) ->
  In (type (doc dc)) CarPortal.CAR_COMPANY_DOCUMENT_TYPES ->
  verified_by_car_company (doc dc) = Some true
  /\ documents_table (CarLoad.loadClaimsDB d) = documents_table d.
Proof.
  intros Hk Hflag Hdc Htype. split; [|apply loadClaimsDB_documents].
  rewrite loadClaimsDB_sweep in Hk.
  pose proof (swept_nothing_left _ _ _ Hk) as Hs.
  destruct (verified_by_car_company (doc dc)) as [[]|] eqn:Hv; [done| |];
    (assert (Hyes : CarPortal.shouldRevert
                      (joinClaim (CarPortal.sweepDB (carMigrateDB d)) k r) = true);
     [|rewrite Hyes in Hs; discriminate Hs]);
    apply shouldRevert_joined; (split; [done|]);
    exists dc;
    rewrite (documentsOf_ext _ d k
               (eq_trans (sweepDB_documents _) (carMigrateDB_documents d)));
    (split; [done|]); (split; [done|]); rewrite Hv; discriminate.
Qed.

Lemma car_load_restores_invariant_witness :
  verified_by_car_company (doc (mkDocument "d1" verifiedDoc)) = Some true
  /\ documents_table (CarLoad.loadClaimsDB approvedDB) = documents_table approvedDB.
Proof.
  apply (car_load_restores_invariant approvedDB "c1" approvedRow (mkDocument "d1" verifiedDoc)).
  - reflexivity.
  - left. reflexivity.
  - left. reflexivity.
  - left. reflexivity.
Defined.

(** A row after one list load: migrated, then reverted by the sweep when
    the migrated row is flagged approved over an unverified document. *)
Definition carLoaded (d : DB) (k : string) (r : ClaimRow) : ClaimRow :=
  let r1 := carMigrated r in
  if CarPortal.shouldRevert (joinClaim d k r1) then patchClaim CarPortal.revertPatch r1 else r1.

Lemma loadClaimsDB_lookup (d : DB) (k : string) :
  claims_table (CarLoad.loadClaimsDB d) !! k = carLoaded d k <$> claims_table d !! k.
Proof.
  rewrite loadClaimsDB_sweep, sweepDB_lookup, carMigrateDB_lookup.
  destruct (claims_table d !! k) as [r|]; [|done]. simpl. unfold carLoaded, joinClaim.
  by rewrite (documentsOf_ext _ d k (carMigrateDB_documents d)).
Qed.

Lemma carMigrated_flagged (r : ClaimRow) :
  flaggedApproved r -> flaggedApproved (carMigrated r).
Proof.
  intros [H|H].
  - left. unfold carMigrated, CarLoad.needsMigration. by rewrite H.
  - right. by rewrite (proj1 (carMigrated_fields r)).
Qed.

Lemma revertPatch_notes (r : ClaimRow) :
  car_company_approval_notes (patchClaim CarPortal.revertPatch r)
  = car_company_approval_notes r.
Proof. by destruct r. Qed.

Lemma carLoaded_pending (d : DB) (k : string) (r : ClaimRow) :
  car_company_status r = Some "pending" ->
  is_approved_by_car_company r = Some false ->
  car_company_status (carLoaded d k r)
  = Some (if truthyS (car_company_approval_notes r) then "rejected" else "pending").
Proof.
  destruct r as [u n s cs ac ad an ai id_ in_ aa ra]. simpl. intros -> ->.
  unfold carLoaded, carMigrated, CarLoad.newStatus, CarPortal.shouldRevert,
    CarPortal.isApproved.
  simpl. by destruct (truthyS an).
Qed.

(** X10. A claim that is flagged approved while one of its car-company
    documents is not verified is [pending] after the next list load, with
    the approval flag false. The list load after that one finds it
    [pending] with the flag false, and its migration makes it [rejected]
    when the claim has approval notes; without notes it stays [pending]. *)
Theorem car_reverted_claim_after_two_loads (d : DB) (k : string) (r : ClaimRow) :
  claims_table d !! k = Some r ->
  flaggedApproved r ->
  hasUnverifiedCarDocument (documentsOf d k) ->
  let d1 := CarLoad.loadClaimsDB d in
  let d2 := CarLoad.loadClaimsDB d1 in
  (exists r1, claims_table d1 !! k = Some r1
              /\ car_company_status r1 = Some "pending"
              /\ is_approved_by_car_company r1 = Some false)
  /\ car_company_status <$> claims_table d2 !! k
     = Some (Some (if truthyS (car_company_approval_notes r)
                   then "rejected" else "pending")).
Proof.
  intros Hk Hflag Hdocs. cbv zeta.
  assert (H1 : claims_table (CarLoad.loadClaimsDB d) !! k
               = Some (patchClaim CarPortal.revertPatch (carMigrated r))).
  { rewrite loadClaimsDB_lookup, Hk. simpl. unfold carLoaded.
    by rewrite (proj2 (shouldRevert_joined d k (carMigrated r))
                  (conj (carMigrated_flagged r Hflag) Hdocs)). }
  destruct (revertPatch_fields (carMigrated r)) as (Hs & Hf & _).
  split; [by eexists|].
  rewrite loadClaimsDB_lookup, H1. simpl.
  rewrite (carLoaded_pending _ _ _ Hs Hf), revertPatch_notes.
  by rewrite (proj1 (proj2 (carMigrated_fields r))).
Qed.

Definition notedRow : ClaimRow :=
  mkClaimRow (Some "u1") (Some "CLM-1") (Some "submitted") (Some "approved") (Some true)
             (Some "2024-01-01") (Some "looks fine") None None None None None.

Definition notedDB : DB :=
  mkDB {[ "c1" := notedRow ]}
       {[ "d1" := mkDocRow "c1" "lto_or" (Some false) None None None None None None None ]}.

Lemma car_reverted_claim_after_two_loads_witness :
  (exists r1, claims_table (CarLoad.loadClaimsDB notedDB) !! "c1" = Some r1
              /\ car_company_status r1 = Some "pending"
              /\ is_approved_by_car_company r1 = Some false)
  /\ car_company_status
       <$> claims_table (CarLoad.loadClaimsDB (CarLoad.loadClaimsDB notedDB)) !! "c1"
     = Some (Some "rejected").
Proof.
  apply (car_reverted_claim_after_two_loads notedDB "c1" notedRow).
  - reflexivity.
  - left. reflexivity.
  - exists (mkDocument "d1"
              (mkDocRow "c1" "lto_or" (Some false) None None None None None None None)).
    split; [left; reflexivity|]. split; [|discriminate].
    left. reflexivity.
Defined.

End CarLoadFacts.

(** ** Claim decisions and document decisions: what they leave alone *)

Section Decisions.
Import JS Data.

Definition notifications (w : World) : list Effect :=
  List.filter isNotification (effects w).

Lemma patchClaim_owner (patch : list ClaimAssign) (r : ClaimRow) :
  user_id (patchClaim patch r) = user_id r
  /\ claim_number (patchClaim patch r) = claim_number r.
Proof.
  unfold patchClaim. revert r. induction patch as [|a patch IH]; intros r; [done|].
  simpl. destruct (IH (assignClaim a r)) as [-> ->]. by destruct a, r.
Qed.

(** The two columns a notification reads. *)
Definition ownerOf (d : DB) (c : string) : option (option string * option string) :=
  (fun r => (user_id r, claim_number r)) <$> claims_table d !! c.

Lemma ownerOf_update (k : string) (patch : list ClaimAssign) (d : DB) (c : string) :
  ownerOf (updateClaimEq k patch d) c = ownerOf d c.
Proof.
  unfold ownerOf. simpl. destruct (decide (k = c)) as [->|Hne].
  - rewrite lookup_alter_eq. destruct (claims_table d !! c) as [r|]; [|done]. simpl.
    by destruct (patchClaim_owner patch r) as [-> ->].
  - by rewrite lookup_alter_ne.
Qed.

Lemma notifications_emit_toast (kind title message : string) (w : World) :
  notifications (emit (Toast kind title message) w) = notifications w.
Proof. unfold notifications. simpl. by rewrite List.filter_app, app_nil_r. Qed.

Lemma car_notifyOwner_same (c title tag : string) (message : string -> string)
      (w1 w2 : World) :
  ownerOf (db w1) c = ownerOf (db w2) c ->
  notifications w1 = notifications w2 ->
  notifications (CarPortal.notifyOwner c title tag message w1)
  = notifications (CarPortal.notifyOwner c title tag message w2).
Proof.
  unfold ownerOf, CarPortal.notifyOwner, notifications. intros Ho Hn.
  destruct (claims_table (db w1) !! c) as [r1|], (claims_table (db w2) !! c) as [r2|];
    try done.
  simpl in Ho. injection Ho as -> ->.
  destruct (truthyS (user_id r2)); [|done].
  simpl. rewrite !List.filter_app. by rewrite Hn.
Qed.

Lemma insurance_notifyOwner_same (c title tag : string) (message : string -> string)
      (w1 w2 : World) :
  ownerOf (db w1) c = ownerOf (db w2) c ->
  notifications w1 = notifications w2 ->
  notifications (InsurancePortal.notifyOwner c title tag message w1)
  = notifications (InsurancePortal.notifyOwner c title tag message w2).
Proof.
  unfold ownerOf, InsurancePortal.notifyOwner, notifications. intros Ho Hn.
  destruct (claims_table (db w1) !! c) as [r1|], (claims_table (db w2) !! c) as [r2|];
    try done.
  simpl in Ho. injection Ho as -> ->.
  destruct (truthyS (user_id r2)); [|done].
  simpl. rewrite !List.filter_app. by rewrite Hn.
Qed.

Lemma car_notifyOwner_db (c title tag : string) (message : string -> string) (w : World) :
  db (CarPortal.notifyOwner c title tag message w) = db w.
Proof.
  unfold CarPortal.notifyOwner. destruct (claims_table (db w) !! c) as [r|]; [|done].
  by destruct (truthyS (user_id r)).
Qed.

Lemma insurance_notifyOwner_db (c title tag : string) (message : string -> string)
      (w : World) :
  db (InsurancePortal.notifyOwner c title tag message w) = db w.
Proof.
  unfold InsurancePortal.notifyOwner. destruct (claims_table (db w) !! c) as [r|]; [|done].
  by destruct (truthyS (user_id r)).
Qed.

(** X11. A claim decision dispatches its notification to the owner
    whatever the outcome of the update: when the update of the claim
    comes back with an error the tables are as they were, and the
    notifications sent are the same as when the update succeeds. This
    holds for [decideClaim] in the car portal and in the insurance
    portal. *)
Theorem decision_notifies_whatever_the_update
        (decision notes now : string) (s : Session) (w : World) :
  (db (CarPortal.decideClaim decision notes true now s w) = db w
   /\ notifications (CarPortal.decideClaim decision notes true now s w)
      = notifications (CarPortal.decideClaim decision notes false now s w))
  /\ (db (InsurancePortal.decideClaim decision notes true now s w) = db w
      /\ notifications (InsurancePortal.decideClaim decision notes true now s w)
         = notifications (InsurancePortal.decideClaim decision notes false now s w)).
Proof.
  split.
  - unfold CarPortal.decideClaim.
    destruct (negb (truthyS (currentClaim s))); [done|].
    unfold showError, showSuccess. rewrite !notifications_emit_toast. cbn [db emit].
    destruct (decision =? "approved"); [|destruct (decision =? "rejected");
      [|destruct (decision =? "under_review")]];
      rewrite ?car_notifyOwner_db; (split; [done|]);
      try (apply car_notifyOwner_same; [symmetry; apply ownerOf_update | done]);
      done.
  - unfold InsurancePortal.decideClaim.
    destruct (negb (truthyS (currentClaim s))); [done|].
    unfold showError, showSuccess. rewrite !notifications_emit_toast. cbn [db emit].
    destruct (decision =? "approved"); [|destruct (decision =? "rejected");
      [|destruct (decision =? "under_review")]];
      rewrite ?insurance_notifyOwner_db; (split; [done|]);
      try (apply insurance_notifyOwner_same; [symmetry; apply ownerOf_update | done]);
      done.
Qed.

(** The rows of [w'] are those of [w], but for the claim [c] and the
    document [k]. *)
Definition untouched (c k : option string) (w w' : World) : Prop :=
  (forall c', Some c' <> c ->
              claims_table (db w') !! c' = claims_table (db w) !! c')
  /\ (forall k', Some k' <> k ->
                 documents_table (db w') !! k' = documents_table (db w) !! k').

Lemma untouched_refl (c k : option string) (w : World) : untouched c k w w.
Proof. by split. Qed.

Lemma untouched_trans (c k : option string) (w w1 w2 : World) :
  untouched c k w w1 -> untouched c k w1 w2 -> untouched c k w w2.
Proof.
  intros [Hc1 Hk1] [Hc2 Hk2]. split.
  - intros c' Hne. by rewrite Hc2, Hc1.
  - intros k' Hne. by rewrite Hk2, Hk1.
Qed.

Lemma untouched_emit (c k : option string) (e : Effect) (w : World) :
  untouched c k w (emit e w).
Proof. by split. Qed.

Lemma untouched_claim (c : string) (k : option string) (patch : list ClaimAssign)
      (w : World) :
  untouched (Some c) k w (remoteUpdateClaim c patch w).
Proof.
  split; [|done]. intros c' Hne. simpl. rewrite lookup_alter_ne; [done|]. congruence.
Qed.

Lemma untouched_document (c : option string) (k : string) (patch : list DocAssign)
      (w : World) :
  untouched c (Some k) w (remoteUpdateDocument k patch w).
Proof.
  split; [done|]. intros k' Hne. simpl. rewrite lookup_alter_ne; [done|]. congruence.
Qed.

Lemma untouched_car_whenClaimOpen (s : Session) (k : option string)
      (patch : list ClaimAssign) (w : World) :
  untouched (currentClaim s) k w
    (CarPortal.whenClaimOpen s (fun c => remoteUpdateClaim c patch) w).
Proof.
  unfold CarPortal.whenClaimOpen. destruct (currentClaim s) as [c|]; [|apply untouched_refl].
  destruct (truthyStr c); [apply untouched_claim | apply untouched_refl].
Qed.

Lemma untouched_insurance_whenClaimOpen (s : Session) (k : option string)
      (patch : list ClaimAssign) (w : World) :
  untouched (currentClaim s) k w
    (InsurancePortal.whenClaimOpen s (fun c => remoteUpdateClaim c patch) w).
Proof.
  unfold InsurancePortal.whenClaimOpen.
  destruct (currentClaim s) as [c|]; [|apply untouched_refl].
  destruct (truthyStr c); [apply untouched_claim | apply untouched_refl].
Qed.

Lemma untouched_safetyGuard (s : Session) (k : option string) (w : World) :
  untouched (currentClaim s) k w (CarPortal.safetyGuard s w).
Proof.
  unfold CarPortal.safetyGuard. destruct (currentClaim s) as [c|]; [|apply untouched_refl].
  destruct (truthyStr c && _); [|apply untouched_refl].
  destruct (claims_table (db w) !! c) as [r|]; [|apply untouched_refl].
  match goal with |- context [if ?b then _ else _] => destruct b end;
    [apply untouched_claim | apply untouched_refl].
Qed.

Lemma untouched_db (c k : option string) (w w1 w2 : World) :
  db w1 = db w2 -> untouched c k w w1 -> untouched c k w w2.
Proof. unfold untouched. by intros ->. Qed.

Lemma currentDocId_default (s : Session) :
  negb (truthyS (currentDocId s)) = false ->
  currentDocId s = Some (default "" (currentDocId s)).
Proof. by destruct (currentDocId s). Qed.

Lemma currentClaim_default (s : Session) :
  negb (truthyS (currentClaim s)) = false ->
  currentClaim s = Some (default "" (currentClaim s)).
Proof. by destruct (currentClaim s). Qed.

Ltac untouched_steps :=
  repeat first
    [ apply untouched_refl
    | apply untouched_emit
    | apply untouched_claim
    | apply untouched_document
    | apply untouched_safetyGuard
    | apply untouched_car_whenClaimOpen
    | apply untouched_insurance_whenClaimOpen
    | eapply untouched_trans; [|apply untouched_emit]
    | eapply untouched_trans; [|apply untouched_safetyGuard]
    | eapply untouched_trans; [|apply untouched_car_whenClaimOpen]
    | eapply untouched_trans; [|apply untouched_insurance_whenClaimOpen] ].

(** X12. A review action writes to no row but the open ones: in both
    portals a document decision and a document rejection leave every
    claim other than the open claim and every document other than the
    displayed one as they were, and a claim decision leaves every other
    claim and all documents as they were. *)
Theorem review_touches_only_open_rows (s : Session) (w : World) :
  (forall decision user updateError now,
      untouched (currentClaim s) (currentDocId s) w
        (snd (CarPortal.handleDocumentDecision decision user updateError now s w))
      /\ untouched (currentClaim s) (currentDocId s) w
           (snd (InsurancePortal.handleDocumentDecision decision user updateError now s w)))
  /\ (forall reason other updateError,
         untouched (currentClaim s) (currentDocId s) w
           (snd (CarPortal.confirmDocumentRejection reason other updateError s w))
         /\ untouched (currentClaim s) (currentDocId s) w
              (snd (InsurancePortal.confirmDocumentRejection reason other updateError s w)))
  /\ (forall decision notes updateError now,
         untouched (currentClaim s) None w
           (CarPortal.decideClaim decision notes updateError now s w)
         /\ untouched (currentClaim s) None w
              (InsurancePortal.decideClaim decision notes updateError now s w)).
Proof.
  split; [|split].
  - intros decision user updateError now. split.
    + unfold CarPortal.handleDocumentDecision.
      destruct (currentClaimApproved s); [apply untouched_emit|].
      destruct (negb (truthyS (currentDocId s))) eqn:Hk; [apply untouched_refl|].
      rewrite (currentDocId_default s Hk) at 1.
      destruct user as [uid|]; [|cbn [snd]; untouched_steps].
      destruct updateError; cbn [snd]; [untouched_steps|].
      eapply untouched_trans; [|apply untouched_emit].
      eapply untouched_trans;
        [|apply (untouched_safetyGuard (CarPortal.setDocuments _ s))].
      destruct (negb (decision =? "verify")).
      * eapply untouched_trans; [apply untouched_document|].
        apply (untouched_car_whenClaimOpen (CarPortal.setDocuments _ s)).
      * apply untouched_document.
    + unfold InsurancePortal.handleDocumentDecision.
      destruct (currentClaimApproved s); [apply untouched_emit|].
      destruct (negb (truthyS (currentDocId s))) eqn:Hk; [apply untouched_refl|].
      rewrite (currentDocId_default s Hk) at 1.
      destruct user as [uid|]; [|cbn [snd]; untouched_steps].
      destruct updateError; cbn [snd]; [untouched_steps|].
      eapply untouched_trans; [|apply untouched_emit].
      destruct (negb (decision =? "verify")).
      * eapply untouched_trans; [apply untouched_document|].
        apply untouched_insurance_whenClaimOpen.
      * apply untouched_document.
  - intros reason other updateError. split.
    + unfold CarPortal.confirmDocumentRejection.
      destruct (negb (truthyStr reason)); [apply untouched_emit|].
      destruct ((reason =? "others") && _); [apply untouched_emit|].
      destruct (negb (truthyS (currentDocId s))) eqn:Hk; [apply untouched_refl|].
      rewrite (currentDocId_default s Hk) at 1.
      destruct updateError; cbn [snd]; unfold showError, showSuccess; [untouched_steps|].
      eapply untouched_trans; [|apply untouched_emit].
      eapply untouched_trans; [apply untouched_document|].
      apply (untouched_car_whenClaimOpen (CarPortal.setDocuments _ s)).
    + unfold InsurancePortal.confirmDocumentRejection.
      destruct (negb (truthyStr reason)); [apply untouched_emit|].
      destruct ((reason =? "others") && _); [apply untouched_emit|].
      destruct (negb (truthyS (currentDocId s))) eqn:Hk; [apply untouched_refl|].
      rewrite (currentDocId_default s Hk) at 1.
      destruct updateError; cbn [snd]; unfold showError, showSuccess; [untouched_steps|].
      eapply untouched_trans; [|apply untouched_emit].
      eapply untouched_trans; [apply untouched_document|].
      apply (untouched_insurance_whenClaimOpen (InsurancePortal.setDocuments _ s)).
  - intros decision notes updateError now. split.
    + unfold CarPortal.decideClaim.
      destruct (negb (truthyS (currentClaim s))) eqn:Hc; [apply untouched_emit|].
      rewrite (currentClaim_default s Hc) at 1.
      unfold showError, showSuccess.
      destruct updateError; (eapply untouched_trans; [|apply untouched_emit]);
        destruct (decision =? "approved"); [| destruct (decision =? "rejected");
          [| destruct (decision =? "under_review")] | | destruct (decision =? "rejected");
          [| destruct (decision =? "under_review")]];
        first [ apply untouched_emit | apply untouched_claim
              | eapply untouched_db; [symmetry; apply car_notifyOwner_db|];
                first [apply untouched_emit | apply untouched_claim] ].
    + unfold InsurancePortal.decideClaim.
      destruct (negb (truthyS (currentClaim s))) eqn:Hc; [apply untouched_emit|].
      rewrite (currentClaim_default s Hc) at 1.
      unfold showError, showSuccess.
      destruct updateError; (eapply untouched_trans; [|apply untouched_emit]);
        destruct (decision =? "approved"); [| destruct (decision =? "rejected");
          [| destruct (decision =? "under_review")] | | destruct (decision =? "rejected");
          [| destruct (decision =? "under_review")]];
        first [ apply untouched_emit | apply untouched_claim
              | eapply untouched_db; [symmetry; apply insurance_notifyOwner_db|];
                first [apply untouched_emit | apply untouched_claim] ].
Qed.

(** The test of the guard: the claim shows as approved by the car company. *)
Definition autoApproved (r : ClaimRow) : bool :=
  isTrue (is_approved_by_car_company r) || strictEq (car_company_status r) "approved".

(** The main status, as the guard reads it. *)
Definition globalStatus (r : ClaimRow) : string := toLowerCase (default "" (status r)).

Lemma safetyGuard_result (s : Session) (w : World) (c : string) (r0 : ClaimRow) :
  currentClaim s = Some c -> c <> "" ->
  CarPortal.allDocsVerified (currentDocuments s) = true ->
  claims_table (db w) !! c = Some r0 ->
  globalStatus r0 <> "submitted" -> globalStatus r0 <> "approved" ->
  exists r, claims_table (db (CarPortal.safetyGuard s w)) !! c = Some r
            /\ autoApproved r = false
            /\ status r = status r0.
Proof.
  intros Hc Hne Hall Hr0 Hsub Happ. unfold CarPortal.safetyGuard.
  rewrite Hc, (proj2 (truthyStr_true c) Hne), Hall, Hr0. cbn [andb].
  fold (autoApproved r0). fold (globalStatus r0).
  rewrite (proj2 (String.eqb_neq _ _) Hsub), (proj2 (String.eqb_neq _ _) Happ).
  cbn [negb]. rewrite !andb_true_r.
  destruct (autoApproved r0) eqn:Hauto.
  - eexists. rewrite claims_remoteUpdateClaim, Hr0. split; [reflexivity|].
    by destruct r0.
  - by exists r0.
Qed.

Lemma afterDecision_documents (k : string) (s : Session) :
  currentDocuments (CarPortal.afterDecision k s) = currentDocuments s.
Proof. unfold CarPortal.afterDecision. by destruct (_ <? _)%Z. Qed.

(** X13. In the car portal, after a document decision that is saved and
    leaves every document of the open claim verified, the claim does not
    show as approved by the car company (approval flag true or
    [car_company_status] [approved]), unless its main status is
    [submitted] or [approved]: the guard at the end of the handler takes
    an approval nobody clicked back to [pending]. The main status is not
    changed. *)
Theorem car_guard_reverts_unclicked_approval
        (decision uid now : string) (s : Session) (w : World) (c : string) (r0 : ClaimRow) :
  currentClaimApproved s = false ->
  truthyS (currentDocId s) = true ->
  currentClaim s = Some c -> c <> "" ->
  claims_table (db w) !! c = Some r0 ->
  globalStatus r0 <> "submitted" -> globalStatus r0 <> "approved" ->
  let result := CarPortal.handleDocumentDecision decision (Some uid) false now s w in
  CarPortal.allDocsVerified (currentDocuments (fst result)) = true ->
  exists r, claims_table (db (snd result)) !! c = Some r
            /\ autoApproved r = false
            /\ status r = status r0.
Proof.
  intros Happ Hk Hc Hne Hr0 Hsub Hap. unfold CarPortal.handleDocumentDecision.
  rewrite Happ, Hk. cbn [negb fst snd]. rewrite afterDecision_documents, db_emit.
  intros Hall.
  match goal with |- context [CarPortal.safetyGuard ?s1 ?w2] =>
    assert (Hw2 : exists r2, claims_table (db w2) !! c = Some r2 /\ status r2 = status r0)
  end.
  { destruct (negb (decision =? "verify")).
    - unfold CarPortal.whenClaimOpen. cbn [CarPortal.setDocuments currentClaim].
      rewrite Hc, (proj2 (truthyStr_true c) Hne).
      eexists. rewrite claims_remoteUpdateClaim, claims_remoteUpdateDocument, Hr0.
      split; [reflexivity|]. by destruct r0.
    - exists r0. by rewrite claims_remoteUpdateDocument. }
  destruct Hw2 as (r2 & Hr2 & Hs2).
  match goal with |- context [CarPortal.safetyGuard ?s1 ?w2] =>
    destruct (safetyGuard_result s1 w2 c r2) as (r & Hr & Hauto & Hs); try done
  end.
  - unfold globalStatus. by rewrite Hs2.
  - unfold globalStatus. by rewrite Hs2.
  - exists r. by rewrite Hs, Hs2.
Qed.

Definition autoApprovedRow : ClaimRow :=
  mkClaimRow (Some "u1") (Some "CLM-1") (Some "under_review") (Some "approved") (Some true)
             (Some "2025-02-01") None None None None None None.

Definition autoApprovedWorld : World :=
  mkWorld (mkDB {[ "c1" := autoApprovedRow ]} (documents_table fourDocsDB)) [].

Lemma car_guard_reverts_unclicked_approval_witness :
  exists r,
    claims_table
      (db (snd (CarPortal.handleDocumentDecision "verify" (Some "r1") false "2025-03-01"
                  fourDocsSession autoApprovedWorld))) !! "c1" = Some r
    /\ autoApproved r = false
    /\ status r = status autoApprovedRow.
Proof.
  apply (car_guard_reverts_unclicked_approval "verify" "r1" "2025-03-01"
           fourDocsSession autoApprovedWorld "c1" autoApprovedRow).
  - reflexivity.
  - reflexivity.
  - reflexivity.
  - discriminate.
  - reflexivity.
  - vm_compute. discriminate.
  - vm_compute. discriminate.
  - reflexivity.
Defined.

End Decisions.

(** ** The numbers shown for a claim, in the list and on its page *)

Section Numbers.
Import JS Data.

(** How many documents of [l] pass [f]. *)
Definition count {A : Type} (f : A -> bool) (l : list A) : Z :=
  Z.of_nat (length (List.filter f l)).

Lemma count_four_way {A : Type} (v n : A -> bool) (l : list A) :
  (count v l + count n l + count (fun x => negb (v x) && negb (n x)) l
   = Z.of_nat (length l) + count (fun x => v x && n x) l)%Z.
Proof.
  unfold count. induction l as [|x l IH]; simpl; [done|].
  destruct (v x), (n x); simpl; lia.
Qed.

(** X14. In the car portal the page of a claim shows the same four
    numbers as the list does for that claim: both count the car-company
    documents of the claim, the verified ones, the ones that are not
    verified and carry a note as rejected, and the rest as pending. The
    four numbers are never negative and the last three add up to the
    first. *)
Theorem car_page_numbers_match_list (d : DB) (claimId : string) (s : Session) :
  let page := fst (CarDetail.updateDocumentStats (CarDetail.selectDocuments d claimId) s) in
  let listed := CarPortal.claimCounters (documentsOf d claimId) in
  page = listed
  /\ (total page = verified page + rejected page + pending page
      /\ 0 <= total page /\ 0 <= verified page /\ 0 <= rejected page /\ 0 <= pending page)%Z.
Proof.
  cbv zeta.
  assert (Heq : fst (CarDetail.updateDocumentStats (CarDetail.selectDocuments d claimId) s)
                = CarPortal.claimCounters (documentsOf d claimId)) by reflexivity.
  rewrite Heq. split; [done|]. apply car_counters_partition.
Qed.

(** X15. In the insurance portal the page of a claim and the list count
    the same documents as verified and as rejected, but not as pending:
    the page counts the documents that are neither verified nor noted,
    which is the list's number plus the number of documents that are
    verified and still carry a rejection note. The page's numbers are
    never negative, and verified, rejected and pending add up to the
    number of insurance documents plus the doubly counted ones. *)
Theorem insurance_page_numbers_against_list (docs : list Document) :
  let insuranceDocuments := List.filter InsurancePortal.isInsuranceDoc docs in
  let page := InsuranceLoad.updateDocumentStats docs insuranceDocuments in
  let listed := InsurancePortal.claimCounters docs in
  let both :=
    count (fun d => truthyB (verified_by_insurance_company (doc d))
                    && truthyS (insurance_verification_notes (doc d))) insuranceDocuments in
  (InsuranceLoad.insuranceVerified page = verified listed
   /\ InsuranceLoad.rejectedInsurance page = rejected listed
   /\ InsuranceLoad.pendingInsurance page = pending listed + both
   /\ 0 <= InsuranceLoad.pendingInsurance page
   /\ InsuranceLoad.insuranceVerified page + InsuranceLoad.rejectedInsurance page
      + InsuranceLoad.pendingInsurance page = total listed + both
   /\ 0 <= InsuranceLoad.carVerified page <= InsuranceLoad.totalDocs page)%Z.
Proof.
  cbv zeta.
  pose proof (count_four_way
                (fun d => truthyB (verified_by_insurance_company (doc d)))
                (fun d => truthyS (insurance_verification_notes (doc d)))
                (List.filter InsurancePortal.isInsuranceDoc docs)) as H4.
  pose proof (filter_length_le' (fun d => truthyB (verified_by_car_company (doc d))) docs)
    as Hle.
  unfold InsuranceLoad.updateDocumentStats, InsurancePortal.claimCounters, count in *.
  cbn [InsuranceLoad.insuranceVerified InsuranceLoad.rejectedInsurance
       InsuranceLoad.pendingInsurance InsuranceLoad.carVerified InsuranceLoad.totalDocs
       total verified rejected pending].
  lia.
Qed.

End Numbers.

(** ** The insurance portal: the list load and the page of a decided claim *)

Section InsuranceLoadFacts.
Import JS Data.

(** A row after the migration of the insurance portal. *)
Definition insuranceMigrated (r : ClaimRow) : ClaimRow :=
  if InsuranceLoad.needsMigration r
  then patchClaim [ set_is_approved_by_insurance_company (Some true) ] r
  else r.

Definition insuranceLoadDB (d : DB) : DB :=
  db (snd (InsuranceLoad.loadClaims (mkWorld d []))).

Lemma insuranceLoadDB_lookup (d : DB) (k : string) :
  claims_table (insuranceLoadDB d) !! k = insuranceMigrated <$> claims_table d !! k.
Proof.
  exact (proj1 (selected_lookup InsuranceLoad.needsMigration
                  (fun _ => [ set_is_approved_by_insurance_company (Some true) ])
                  (mkWorld d []) k)).
Qed.

Lemma insuranceLoadDB_documents (d : DB) :
  documents_table (insuranceLoadDB d) = documents_table d.
Proof.
  exact (proj2 (selected_lookup InsuranceLoad.needsMigration
                  (fun _ => [ set_is_approved_by_insurance_company (Some true) ])
                  (mkWorld d []) "")).
Qed.

Lemma insuranceMigrated_fields (r : ClaimRow) :
  status (insuranceMigrated r) = status r
  /\ insurance_company_approval_date (insuranceMigrated r)
     = insurance_company_approval_date r
  /\ (status r = Some "approved" ->
      is_approved_by_insurance_company (insuranceMigrated r) = Some true)
  /\ (status r <> Some "approved" -> insuranceMigrated r = r).
Proof.
  unfold insuranceMigrated, InsuranceLoad.needsMigration.
  destruct r as [u n s cs ac ad an ai id_ in_ aa ra]. cbn [status is_approved_by_insurance_company].
  destruct (strictEq s "approved") eqn:Hs.
  - apply strictEq_true in Hs as ->. by destruct ai as [[]|].
  - cbn [andb]. repeat split; try done.
    intros ->. by rewrite (proj2 (strictEq_true _ _) eq_refl) in Hs.
Qed.

(** X16. The list load of the insurance portal sets the insurance
    approval flag of every claim whose main status is [approved], and
    writes nothing else: after it every claim with status [approved] has
    the flag true, whatever the flag was and whether or not an approval
    date is recorded; the status and the approval date of every claim
    are as before, claims with another status are untouched, and so are
    the documents. *)
Theorem insurance_load_flags_approved (d : DB) :
  (forall k r, claims_table d !! k = Some r ->
               exists r', claims_table (insuranceLoadDB d) !! k = Some r'
                          /\ status r' = status r
                          /\ insurance_company_approval_date r'
                             = insurance_company_approval_date r
                          /\ (status r = Some "approved" ->
                              is_approved_by_insurance_company r' = Some true)
                          /\ (status r <> Some "approved" -> r' = r))
  /\ (forall k, claims_table d !! k = None -> claims_table (insuranceLoadDB d) !! k = None)
  /\ documents_table (insuranceLoadDB d) = documents_table d.
Proof.
  split; [|split].
  - intros k r Hk. exists (insuranceMigrated r).
    rewrite insuranceLoadDB_lookup, Hk. split; [done|]. apply insuranceMigrated_fields.
  - intros k Hk. by rewrite insuranceLoadDB_lookup, Hk.
  - apply insuranceLoadDB_documents.
Qed.



End InsuranceLoadFacts.

(** ** Storage paths and file names *)

Section StorageFacts.
Import JS Storage.

Lemma str_chars (s : string) : str (chars s) = s.
Proof. apply string_of_list_ascii_of_string. Qed.

Lemma chars_append (s t : string) : chars (s ++ t) = (chars s ++ chars t)%list.
Proof. unfold chars. induction s as [|c s IH]; simpl; [done|]. by rewrite IH. Qed.

Lemma splitOn_cons (sep : ascii) (l : list ascii) :
  exists seg segs, splitOn sep l = seg :: segs.
Proof.
  induction l as [|c l (seg & segs & IH)]; simpl; [by eexists _, _|].
  destruct (Ascii.eqb c sep); [by eexists _, _|]. rewrite IH. by eexists _, _.
Qed.

(** Splitting what comes before a separator and what comes after. *)
Lemma splitOn_app (sep : ascii) (l1 l2 : list ascii) :
  splitOn sep (l1 ++ sep :: l2)
  = (removelast (splitOn sep l1)
     ++ List.last (splitOn sep l1) [] :: splitOn sep l2)%list.
Proof.
  induction l1 as [|c l1 IH]; simpl.
  - by rewrite Ascii.eqb_refl.
  - destruct (Ascii.eqb c sep) eqn:Hc.
    + rewrite IH. destruct (splitOn_cons sep l1) as (seg & segs & ->). reflexivity.
    + rewrite IH. destruct (splitOn_cons sep l1) as (seg & segs & ->).
      destruct segs; reflexivity.
Qed.

Lemma splitOn_none (sep : ascii) (l : list ascii) :
  ~ In sep l -> splitOn sep l = [l].
Proof.
  induction l as [|c l IH]; simpl; [done|]. intros Hno.
  destruct (Ascii.eqb_spec c sep) as [->|Hne]; [destruct Hno; by left|].
  rewrite IH; [done|]. intros Hin. apply Hno. by right.
Qed.

Lemma splitOn_first (sep : ascii) (l1 l2 : list ascii) :
  ~ In sep l1 -> splitOn sep (l1 ++ sep :: l2) = l1 :: splitOn sep l2.
Proof. intros Hno. by rewrite splitOn_app, (splitOn_none sep l1 Hno). Qed.

Lemma last_cons_nonempty {A : Type} (x : A) (l : list A) (d : A) :
  l <> [] -> List.last (x :: l) d = List.last l d.
Proof. by destruct l. Qed.

Lemma last_app_nonempty {A : Type} (l1 l2 : list A) (d : A) :
  l2 <> [] -> List.last (l1 ++ l2) d = List.last l2 d.
Proof.
  intros Hne. induction l1 as [|x l1 IH]; [done|].
  simpl app. rewrite last_cons_nonempty; [done|]. by destruct l1, l2.
Qed.

Lemma last_splitOn (sep : ascii) (l1 l2 : list ascii) :
  ~ In sep l2 -> List.last (splitOn sep (l1 ++ sep :: l2)) [] = l2.
Proof.
  intros Hno. rewrite splitOn_app, (splitOn_none sep l2 Hno).
  by rewrite last_app_nonempty.
Qed.

Lemma last_map_str (segs : list (list ascii)) :
  List.last (map str segs) "" = str (List.last segs []).
Proof.
  induction segs as [|seg segs IH]; [done|].
  destruct segs as [|seg2 segs]; [done|].
  change (List.last (map str (seg :: seg2 :: segs)) "")
    with (List.last (map str (seg2 :: segs)) "").
  by rewrite IH.
Qed.

(** X18. [getFileExtension] gives the text after the last dot of the file
    name, lower-cased, whatever comes before that dot; a name without a
    dot is its own extension. *)
Theorem getFileExtension_after_last_dot (base ext : string) :
  ~ In "."%char (chars ext) ->
  getFileExtension (base ++ "." ++ ext) = toLowerCase ext
  /\ getFileExtension ext = toLowerCase ext.
Proof.
  intros Hno. unfold getFileExtension, split. rewrite !last_map_str. split.
  - rewrite chars_append. change (chars ("." ++ ext)) with ("."%char :: chars ext).
    by rewrite last_splitOn, str_chars.
  - rewrite (splitOn_none _ _ Hno). cbn [List.last]. by rewrite str_chars.
Qed.

Lemma getFileExtension_after_last_dot_witness :
  getFileExtension ("Damage.Photo" ++ "." ++ "JPG") = toLowerCase "JPG"
  /\ getFileExtension "JPG" = toLowerCase "JPG".
Proof.
  apply (getFileExtension_after_last_dot "Damage.Photo" "JPG").
  vm_compute. intros H. repeat (destruct H as [H|H]; [discriminate H|]). exact H.
Defined.

(** A segment of a path: not empty, without a slash. *)
Definition segment (s : string) : Prop := s <> "" /\ ~ In "/"%char (chars s).

Lemma splitOn_joinWith (sep : ascii) (segs : list (list ascii)) :
  segs <> [] -> Forall (fun seg => ~ In sep seg) segs ->
  splitOn sep (joinWith sep segs) = segs.
Proof.
  induction segs as [|seg segs IH]; [done|]. intros _ Hall.
  apply Forall_cons in Hall as [Hseg Hall].
  destruct segs as [|seg2 segs]; [by apply splitOn_none|].
  change (joinWith sep (seg :: seg2 :: segs))
    with (seg ++ sep :: joinWith sep (seg2 :: segs))%list.
  rewrite splitOn_first by done. by rewrite IH.
Qed.

Lemma split_join (parts : list string) :
  parts <> [] -> Forall (fun p => ~ In "/"%char (chars p)) parts ->
  split "/" (join "/" parts) = parts.
Proof.
  intros Hne Hall. unfold split, join. rewrite chars_str, splitOn_joinWith.
  - rewrite map_map. rewrite <- (map_id parts) at 2. apply map_ext. apply str_chars.
  - by destruct parts.
  - apply Forall_forall. intros seg Hin. apply list_elem_of_In in Hin.
    apply in_map_iff in Hin as (p & <- & Hp).
    rewrite Forall_forall in Hall. apply Hall. by apply list_elem_of_In.
Qed.

Lemma filter_segments (parts : list string) :
  Forall segment parts -> List.filter truthyStr parts = parts.
Proof.
  induction parts as [|p parts IH]; [done|]. intros Hall.
  apply Forall_cons in Hall as [[Hp _] Hall]. simpl.
  by rewrite (proj2 (truthyStr_true p) Hp), IH.
Qed.

Lemma findIndex_after (x : string) (pre rest : list string) :
  ~ In x pre -> findIndex x (pre ++ x :: rest) = Some (length pre).
Proof.
  induction pre as [|p pre IH]; simpl; intros Hno.
  - by rewrite String.eqb_refl.
  - destruct (String.eqb_spec p x) as [->|Hne]; [destruct Hno; by left|].
    rewrite IH; [done|]. intros Hin. apply Hno. by right.
Qed.

Lemma nth_error_after {A : Type} (pre l : list A) (i : nat) :
  nth_error (pre ++ l) (length pre + i) = nth_error l i.
Proof. induction pre; simpl; [done|]. done. Qed.

Lemma skipn_after {A : Type} (pre l : list A) (i : nat) :
  skipn (length pre + i) (pre ++ l) = skipn i l.
Proof. induction pre; simpl; [done|]. done. Qed.

Lemma join_nonempty (p : string) (parts : list string) :
  p <> "" -> join "/" (p :: parts) <> "".
Proof.
  intros Hp. unfold join. destruct p as [|c p]; [done|].
  destruct parts; simpl; discriminate.
Qed.

(** X19. The path of a storage URL is read back exactly: for the path
    [/<prefix>/object/<kind>/<bucket>/<object path>], where [kind] is
    [public] or [sign], the prefix has no segment [object] and the object
    path has at least one segment, the parser gives the bucket and the
    object path, with its slashes. *)
Theorem parseStoragePath_reads_bucket_and_path
        (pre : list string) (kind bucket : string) (segs : list string) :
  kind = "public" \/ kind = "sign" ->
  Forall segment (pre ++ bucket :: segs) ->
  ~ In "object" pre ->
  segs <> [] ->
  parseStoragePath (join "/" ("" :: pre ++ [ "object"; kind; bucket ] ++ segs))
  = Some (bucket, join "/" segs).
Proof.
  intros Hkind Hall Hobj Hsegs. unfold parseStoragePath.
  assert (Hparts : Forall segment (pre ++ "object" :: kind :: bucket :: segs)).
  { apply Forall_app in Hall as [Hpre Hrest]. apply Forall_app. split; [done|].
    apply Forall_cons. split; [split; [done|]; vm_compute; intuition discriminate|].
    apply Forall_cons. split; [|done].
    destruct Hkind as [-> | ->]; (split; [done|]); vm_compute; intuition discriminate. }
  rewrite split_join; [|done|].
  2:{ apply Forall_cons. split; [by intros []|].
      eapply Forall_impl; [exact Hparts|]. by intros p [_ Hp]. }
  change (List.filter truthyStr ("" :: ?l)) with (List.filter truthyStr l).
  cbn [List.filter truthyStr String.eqb negb]. cbn [app].
  rewrite (filter_segments _ Hparts), (findIndex_after _ _ _ Hobj).
  rewrite length_app. cbn [length].
  destruct (Nat.ltb_spec (length pre + S (S (S (length segs)))) (length pre + 3)) as [Hlt|_].
  { destruct segs; [done|]. simpl in Hlt. lia. }
  rewrite !nth_error_after, !skipn_after. cbn [nth_error skipn default from_option id].
  assert (Hk : (kind =? "public") || (kind =? "sign") = true).
  { by destruct Hkind as [-> | ->]. }
  rewrite Hk.
  apply Forall_app in Hall as [_ Hrest]. apply Forall_cons in Hrest as [[Hb _] Hrest].
  rewrite (proj2 (truthyStr_true bucket) Hb).
  destruct segs as [|p segs]; [done|]. apply Forall_cons in Hrest as [[Hp _] _].
  cbn [skipn]. by rewrite (proj2 (truthyStr_true _) (join_nonempty p segs Hp)).
Qed.

Lemma parseStoragePath_reads_bucket_and_path_witness :
  parseStoragePath
    (join "/" ("" :: [ "storage"; "v1" ]
                  ++ [ "object"; "public"; "insurevis-documents" ]
                  ++ [ "claims"; "42"; "photo.jpg" ]))
  = Some ("insurevis-documents", join "/" [ "claims"; "42"; "photo.jpg" ]).
Proof.
  apply (parseStoragePath_reads_bucket_and_path
           [ "storage"; "v1" ] "public" "insurevis-documents"
           [ "claims"; "42"; "photo.jpg" ]).
  - left. reflexivity.
  - repeat (apply Forall_cons; split;
            [split; [discriminate | vm_compute; intuition discriminate]|]).
    apply Forall_nil. exact I.
  - vm_compute. intuition discriminate.
  - discriminate.
Defined.

Lemma parseStoragePath_nonempty (pathname b o : string) :
  parseStoragePath pathname = Some (b, o) -> b <> "" /\ o <> "".
Proof.
  unfold parseStoragePath. destruct (findIndex _ _) as [idx|]; [|done].
  destruct (_ <? _)%nat; [done|].
  match goal with |- context [if negb (truthyStr ?x) || negb (truthyStr ?y) then _ else _] =>
    destruct (truthyStr x) eqn:Hx, (truthyStr y) eqn:Hy; try done
  end.
  intros [= <- <-]. by split; apply truthyStr_true.
Qed.

(** X20. [resolveStorageObject] never names an empty bucket and never
    gives an empty object path: the bucket is the document's own, the one
    read from its URL or [insurevis-documents], and the path is null or
    not empty. A path stored in the document wins: the URL is parsed only
    when the document has none. *)
Theorem resolveStorageObject_never_empty
        (pathnameOf : string -> option string) (d : FileRef) :
  let result := resolveStorageObject pathnameOf d in
  fst result <> ""
  /\ snd result <> Some ""
  /\ (forall p, storage_path d = Some p -> p <> "" ->
                result = (if truthyS (bucket d) then default "" (bucket d)
                          else "insurevis-documents", Some p)).
Proof.
  cbv zeta.
  assert (Hbucket : (if truthyS (bucket d) then default "" (bucket d)
                     else "insurevis-documents") <> "").
  { destruct (bucket d) as [b|]; simpl; [|done].
    destruct (truthyStr b) eqn:Hb; [by apply truthyStr_true | done]. }
  assert (HorNull : forall a, orNull a <> Some "").
  { intros [a|]; unfold orNull; simpl; [|done].
    destruct (truthyStr a) eqn:Ha; [|done]. apply truthyStr_true in Ha. congruence. }
  split; [|split].
  - unfold resolveStorageObject.
    destruct (negb (truthyS (orNull _)) && truthyS (orNull _)); [|done].
    destruct (parseStorageUrl _ _) as [[b o]|] eqn:Hparse; [|done]. cbn [fst snd].
    by destruct (truthyStr b) eqn:Hb; [apply truthyStr_true|].
  - unfold resolveStorageObject.
    destruct (negb (truthyS (orNull _)) && truthyS (orNull _)); [|apply HorNull].
    destruct (parseStorageUrl _ _) as [[b o]|] eqn:Hparse; [|apply HorNull]. cbn [fst snd].
    unfold parseStorageUrl in Hparse. destruct (negb (truthyS _)); [done|].
    destruct (pathnameOf _) as [pathname|]; [|done].
    apply parseStoragePath_nonempty in Hparse as [_ Ho]. congruence.
  - intros p Hp Hne. unfold resolveStorageObject, orElse, orNull. rewrite Hp.
    repeat progress (cbn [truthyS negb andb]; rewrite ?(proj2 (truthyStr_true p) Hne)).
    done.
Qed.

End StorageFacts.

(** ** The age of an audit entry *)

Section AuditLogFacts.
Import AuditLog.

(** X21. The age shown beside an audit entry, for two times in
    milliseconds: [Just now] under one hour, a time in the future
    included; a number of whole hours from 1 to 23 under one day; a
    number of whole days from 1 to 6 under one week; the date from one
    week on. *)
Theorem timeAgo_ranges (now timestamp : Z) :
  let age := (now - timestamp)%Z in
  match timeAgo now timestamp with
  | JustNow => (age < 3600000)%Z
  | HoursAgo h => (1 <= h <= 23 /\ h * 3600000 <= age < (h + 1) * 3600000)%Z
  | DaysAgo d => (1 <= d <= 6 /\ d * 86400000 <= age < (d + 1) * 86400000)%Z
  | OnDate => (604800000 <= age)%Z
  end.
Proof.
  cbv zeta. unfold timeAgo, diffHours.
  change (1000 * 60 * 60)%Z with 3600000%Z.
  pose proof (Z.mul_div_le (now - timestamp) 3600000 ltac:(lia)) as Hlo.
  pose proof (Z.mul_succ_div_gt (now - timestamp) 3600000 ltac:(lia)) as Hhi.
  set (h := ((now - timestamp) / 3600000)%Z) in *.
  destruct (Z.ltb_spec h 1); [lia|].
  destruct (Z.ltb_spec h 24); [lia|].
  destruct (Z.ltb_spec h 168); [|lia].
  pose proof (Z.mul_div_le h 24 ltac:(lia)) as Hdlo.
  pose proof (Z.mul_succ_div_gt h 24 ltac:(lia)) as Hdhi.
  set (d := (h / 24)%Z) in *. lia.
Qed.

End AuditLogFacts.

(** ** The signup page: the role pair and the shape of a run *)

Section SignupFacts.
Import JS AdminSignup.

(** X22. The signup page classifies the selected role by the tokens of
    its lower-cased text, in this order: [car] and [company], then
    [insurance] and [company], then [admin]; trimming and the unification
    of the separators play no part in that. Any other selection is stored
    with the database role [user] and, as metadata role, its normalised
    text; a missing or empty selection is [user] twice. *)
Theorem normalizeSelection_by_tokens (selection : option string) :
  normalizeSelection selection
  = match selection with
    | None => ("user", "user")
    | Some role =>
        if negb (truthyStr role) then ("user", "user")
        else if has role "car" && has role "company"
        then ("car_company", "car-company")
        else if has role "insurance" && has role "company"
        then ("insurance_company", "insurance-company")
        else if has role "admin" then ("admin", "admin")
        else let metadataRole :=
               replaceAll isHyphen "-"
                 (replaceAll isUnderscoreOrSpace "-" (toLowerCase (trim role))) in
             ("user", if truthyStr metadataRole then metadataRole else "user")
    end.
Proof.
  destruct selection as [role|]; [|reflexivity].
  unfold normalizeSelection, has. cbn [truthyS default from_option id].
  destruct (negb (truthyStr role)); [reflexivity|].
  by rewrite !includes_signup_normalized_eq by reflexivity.
Qed.

Definition isSignUp (e : Effect) : bool :=
  match e with SignUp _ _ _ _ => true | _ => false end.

Definition isSetLoading (e : Effect) : bool :=
  match e with SetLoading _ => true | _ => false end.

(** X23. A run of the signup handler has one of two shapes: a single
    error message and nothing else, or the loading state switched on, the
    progress message, one sign-up request, what follows from its answer,
    and at the end the loading state switched off. Between the request
    and the end there is no second request and the loading state is not
    touched; an answer that is an error gives one error message and no
    further remote call. *)
Theorem signup_run_shape (form : Form) (answer : SignUpResult) :
  (exists message, handleSignup form answer = [ ShowMessage message "error" ])
  \/ exists email password dbRole metadataRole rest,
       handleSignup form answer
       = ([ SetLoading true; ShowMessage "Creating account…" "info";
            SignUp email password dbRole metadataRole ]
          ++ rest ++ [ SetLoading false ])%list
       /\ List.filter isSignUp rest = []
       /\ List.filter isSetLoading rest = []
       /\ match answer with
          | SignUpError _ _ =>
              exists message, rest = [ ShowMessage message "error" ]
          | SignUpDone _ => True
          end.
Proof.
  unfold handleSignup. destruct (normalizeSelection (portalRole form)) as [dbRole metadataRole].
  unfold validatePayload.
  repeat match goal with
         | |- context [if ?b then (false, _) else _] =>
             destruct b; [left; cbn [fst snd negb]; by eexists|]
         end.
  cbn [fst snd negb]. right. eexists _, _, _, _, _. split; [reflexivity|].
  destruct answer as [code message | [confirmed|]]; cbn; repeat split; try done.
  by eexists.
Qed.

End SignupFacts.

(** ** The documents on the page and the documents in the table *)

Section PageInSync.
Import JS Data.

(** Every document the page holds is the row of the table. *)
Definition synced (docs : list Document) (d : DB) : Prop :=
  forall dc, In dc docs -> documents_table d !! doc_id dc = Some (doc dc).

Lemma patchFirst_In (k : string) (patch : list DocAssign) (docs : list Document)
      (dc : Document) :
  NoDup (map doc_id docs) ->
  In dc (patchFirst k patch docs) ->
  (doc_id dc <> k /\ In dc docs)
  \/ exists dc0, In dc0 docs /\ doc_id dc0 = k
                 /\ dc = mkDocument k (patchDoc patch (doc dc0)).
Proof.
  induction docs as [|d docs IH]; simpl; [done|].
  rewrite NoDup_cons. intros [Hd Hnd].
  destruct (String.eqb_spec (doc_id d) k) as [Hk|Hk].
  - intros [<- | Hin].
    + right. exists d. rewrite Hk. auto.
    + left. split; [|by right]. intros Hdc. apply Hd. rewrite Hk, <- Hdc.
      apply list_elem_of_In. by apply in_map.
  - intros [<- | Hin]; [left; auto|].
    destruct (IH Hnd Hin) as [[Hne Hdc] | (dc0 & Hdc0 & Hid & ->)].
    + left. auto.
    + right. exists dc0. auto.
Qed.

Lemma synced_patch (k : string) (patch : list DocAssign) (docs : list Document) (d : DB) :
  NoDup (map doc_id docs) -> synced docs d ->
  synced (patchFirst k patch docs) (updateDocumentEq k patch d).
Proof.
  intros Hnd Hs dc Hin. simpl.
  destruct (patchFirst_In k patch docs dc Hnd Hin) as [[Hne Hdc] | (dc0 & Hdc0 & Hid & ->)].
  - rewrite lookup_alter_ne; [by apply Hs | done].
  - simpl. rewrite lookup_alter_eq, <- Hid, (Hs dc0 Hdc0). done.
Qed.

Lemma synced_ext (docs : list Document) (d d' : DB) :
  documents_table d' = documents_table d -> synced docs d -> synced docs d'.
Proof. unfold synced. by intros ->. Qed.

Lemma car_whenClaimOpen_documents (s : Session) (patch : list ClaimAssign) (w : World) :
  documents_table (db (CarPortal.whenClaimOpen s (fun c => remoteUpdateClaim c patch) w))
  = documents_table (db w).
Proof.
  unfold CarPortal.whenClaimOpen. destruct (currentClaim s) as [c|]; [|done].
  by destruct (truthyStr c).
Qed.

Lemma insurance_whenClaimOpen_documents (s : Session) (patch : list ClaimAssign) (w : World) :
  documents_table (db (InsurancePortal.whenClaimOpen s (fun c => remoteUpdateClaim c patch) w))
  = documents_table (db w).
Proof.
  unfold InsurancePortal.whenClaimOpen. destruct (currentClaim s) as [c|]; [|done].
  by destruct (truthyStr c).
Qed.

Lemma safetyGuard_documents (s : Session) (w : World) :
  documents_table (db (CarPortal.safetyGuard s w)) = documents_table (db w).
Proof.
  unfold CarPortal.safetyGuard. destruct (currentClaim s) as [c|]; [|done].
  destruct (truthyStr c && _); [|done].
  destruct (claims_table (db w) !! c) as [r|]; [|done].
  by match goal with |- context [if ?b then _ else _] => destruct b end.
Qed.

Lemma insurance_afterDecision_documents (k : string) (s : Session) :
  currentDocuments (InsurancePortal.afterDecision k s) = currentDocuments s.
Proof. unfold InsurancePortal.afterDecision. by destruct (_ <? _)%Z. Qed.

(** What a document handler does to the page and to the table: nothing,
    or the same patch to both. *)
Definition samePatch (s : Session) (w : World) (result : Session * World) : Prop :=
  (currentDocuments (fst result) = currentDocuments s
   /\ documents_table (db (snd result)) = documents_table (db w))
  \/ exists k patch,
       currentDocuments (fst result) = patchFirst k patch (currentDocuments s)
       /\ documents_table (db (snd result))
          = documents_table (updateDocumentEq k patch (db w)).

Lemma car_decision_samePatch (decision : string) (user : option string)
      (updateError : bool) (now : string) (s : Session) (w : World) :
  samePatch s w (CarPortal.handleDocumentDecision decision user updateError now s w).
Proof.
  unfold CarPortal.handleDocumentDecision.
  destruct (currentClaimApproved s); [by left|].
  destruct (negb (truthyS (currentDocId s))); [by left|].
  destruct user as [uid|]; [|by left].
  destruct updateError; [by left|].
  right. eexists _, _. cbn [fst snd]. rewrite afterDecision_documents, db_emit.
  split; [reflexivity|]. rewrite safetyGuard_documents.
  destruct (negb (decision =? "verify")); [|reflexivity].
  by rewrite car_whenClaimOpen_documents.
Qed.

Lemma insurance_decision_samePatch (decision : string) (user : option string)
      (updateError : bool) (now : string) (s : Session) (w : World) :
  samePatch s w (InsurancePortal.handleDocumentDecision decision user updateError now s w).
Proof.
  unfold InsurancePortal.handleDocumentDecision.
  destruct (currentClaimApproved s); [by left|].
  destruct (negb (truthyS (currentDocId s))); [by left|].
  destruct user as [uid|]; [|by left].
  destruct updateError; [by left|].
  right. eexists _, _. cbn [fst snd]. rewrite insurance_afterDecision_documents, db_emit.
  split; [reflexivity|].
  destruct (negb (decision =? "verify")); [|reflexivity].
  by rewrite insurance_whenClaimOpen_documents.
Qed.

Lemma car_rejection_samePatch (reason other : string) (updateError : bool)
      (s : Session) (w : World) :
  samePatch s w (CarPortal.confirmDocumentRejection reason other updateError s w).
Proof.
  unfold CarPortal.confirmDocumentRejection.
  destruct (negb (truthyStr reason)); [by left|].
  destruct ((reason =? "others") && _); [by left|].
  destruct (negb (truthyS (currentDocId s))); [by left|].
  destruct updateError; [by left|].
  right. eexists _, _. cbn [fst snd]. split; [reflexivity|].
  unfold showSuccess. by rewrite db_emit, car_whenClaimOpen_documents.
Qed.

Lemma insurance_rejection_samePatch (reason other : string) (updateError : bool)
      (s : Session) (w : World) :
  samePatch s w (InsurancePortal.confirmDocumentRejection reason other updateError s w).
Proof.
  unfold InsurancePortal.confirmDocumentRejection.
  destruct (negb (truthyStr reason)); [by left|].
  destruct ((reason =? "others") && _); [by left|].
  destruct (negb (truthyS (currentDocId s))); [by left|].
  destruct updateError; [by left|].
  right. eexists _, _. cbn [fst snd]. split; [reflexivity|].
  unfold showSuccess. by rewrite db_emit, insurance_whenClaimOpen_documents.
Qed.

Lemma samePatch_synced (s : Session) (w : World) (result : Session * World) :
  NoDup (map doc_id (currentDocuments s)) ->
  synced (currentDocuments s) (db w) ->
  samePatch s w result ->
  synced (currentDocuments (fst result)) (db (snd result)).
Proof.
  intros Hnd Hs [[-> Hdocs] | (k & patch & -> & Hdocs)].
  - by apply (synced_ext _ (db w)).
  - apply (synced_ext _ (updateDocumentEq k patch (db w))); [done|].
    by apply synced_patch.
Qed.

(** X24. The documents the page holds stay those of the table: when the
    documents of the open claim have distinct ids and each of them is the
    row of the documents table, this is still so after a document
    decision or a document rejection, in either portal, whether the
    update is saved, refused or not attempted. *)
Theorem page_documents_stay_in_sync (s : Session) (w : World) :
  NoDup (map doc_id (currentDocuments s)) ->
  synced (currentDocuments s) (db w) ->
  (forall decision user updateError now,
      let car := CarPortal.handleDocumentDecision decision user updateError now s w in
      let insurance :=
        InsurancePortal.handleDocumentDecision decision user updateError now s w in
      synced (currentDocuments (fst car)) (db (snd car))
      /\ synced (currentDocuments (fst insurance)) (db (snd insurance)))
  /\ (forall reason other updateError,
         let car := CarPortal.confirmDocumentRejection reason other updateError s w in
         let insurance :=
           InsurancePortal.confirmDocumentRejection reason other updateError s w in
         synced (currentDocuments (fst car)) (db (snd car))
         /\ synced (currentDocuments (fst insurance)) (db (snd insurance))).
Proof.
  intros Hnd Hs. split.
  - intros decision user updateError now. cbv zeta. split.
    + apply (samePatch_synced s w); [done | done | apply car_decision_samePatch].
    + apply (samePatch_synced s w); [done | done | apply insurance_decision_samePatch].
  - intros reason other updateError. cbv zeta. split.
    + apply (samePatch_synced s w); [done | done | apply car_rejection_samePatch].
    + apply (samePatch_synced s w); [done | done | apply insurance_rejection_samePatch].
Qed.

Lemma page_documents_stay_in_sync_witness :
  (forall decision user updateError now,
      let car :=
        CarPortal.handleDocumentDecision decision user updateError now
          fourDocsSession (mkWorld fourDocsDB []) in
      let insurance :=
        InsurancePortal.handleDocumentDecision decision user updateError now
          fourDocsSession (mkWorld fourDocsDB []) in
      synced (currentDocuments (fst car)) (db (snd car))
      /\ synced (currentDocuments (fst insurance)) (db (snd insurance)))
  /\ (forall reason other updateError,
         let car :=
           CarPortal.confirmDocumentRejection reason other updateError
             fourDocsSession (mkWorld fourDocsDB []) in
         let insurance :=
           InsurancePortal.confirmDocumentRejection reason other updateError
             fourDocsSession (mkWorld fourDocsDB []) in
         synced (currentDocuments (fst car)) (db (snd car))
         /\ synced (currentDocuments (fst insurance)) (db (snd insurance))).
Proof.
  apply (page_documents_stay_in_sync fourDocsSession (mkWorld fourDocsDB [])).
  - simpl. repeat (apply NoDup_cons; split; [rewrite list_elem_of_In; simpl; intuition discriminate|]).
    apply NoDup_nil. exact I.
  - intros dc Hin. simpl in Hin.
    repeat (destruct Hin as [<- | Hin]; [reflexivity|]). destruct Hin.
Defined.

End PageInSync.
